(** * FWHR_Calculator: a shallow embedding of [FWHR_calculator.py]

    The development follows the Python module function by function:
    [load_image], [get_face_points], [good_picture_check], [FWHR_calc],
    [get_fwhr] and [get_fwhr_bulk].

    - Python [int] is [Z]; a landmark is a pair of [Z].
    - Python [float] is IEEE 754 binary64, taken from the Standard
      Library's executable specification [SpecFloat] (precision 53,
      [emax] 1024, round to nearest even).
    - An exception is a value of [exn]; a computation that may raise
      returns a [res].
    - The file system, the web and the external libraries (landmark
      detector, data-frame sort) are explicit: a [world] record threaded
      through the I/O functions, and the class [External] for the
      library calls. *)

From Stdlib Require Import ZArith Lia List Bool String Ascii Permutation.
From Stdlib Require Import SpecFloat.
From stdpp Require Import gmap strings.

Open Scope Z_scope.

(** ** Exceptions and results *)

Inductive exn : Type :=
| ValueError
| ZeroDivisionError
| OverflowError
| IndexError
| OSError
| OtherError.

Inductive res (A : Type) : Type :=
| Ok (a : A)
| Raise (e : exn).

Arguments Ok {A} a.
Arguments Raise {A} e.

Definition res_bind {A B : Type} (r : res A) (k : A -> res B) : res B :=
  match r with
  | Ok a => k a
  | Raise e => Raise e
  end.

Notation "'let*' x ':=' r 'in' k" := (res_bind r (fun x => k))
  (at level 10, x pattern, r at level 100, k at level 200).

(** ** Python numbers *)

Module Py.

Definition prec : Z := 53.
Definition emax : Z := 1024.

Definition float : Type := spec_float.

(** The operand of a true division as the divider sees it: the integer
    itself, mantissa and exponent zero, not yet rounded. *)
Definition int_operand (z : Z) : float :=
  match z with
  | Z0 => S754_zero false
  | Zpos p => S754_finite false p 0
  | Zneg p => S754_finite true p 0
  end.

Definition is_zero (x : float) : bool :=
  match x with
  | S754_zero _ => true
  | _ => false
  end.

Definition is_infinity (x : float) : bool :=
  match x with
  | S754_infinity _ => true
  | _ => false
  end.

(** [float(z)]: the nearest binary64 value; [OverflowError] when [z]
    is too large to convert. *)
Definition float_of_int (z : Z) : res float :=
  let x := binary_normalize prec emax z 0 false in
  if is_infinity x then Raise OverflowError else Ok x.

(** [a / b] on two ints: the correctly rounded quotient. *)
Definition int_truediv (a b : Z) : res float :=
  if b =? 0 then Raise ZeroDivisionError
  else
    let q :=
      match a with
      | Z0 => S754_zero (b <? 0)
      | _ => SFdiv prec emax (int_operand a) (int_operand b)
      end in
    if is_infinity q then Raise OverflowError else Ok q.

(** [x / y] on two floats. *)
Definition float_truediv (x y : float) : res float :=
  if is_zero y then Raise ZeroDivisionError
  else Ok (SFdiv prec emax x y).

(** [a / y] with an int on the left: the int is converted first. *)
Definition int_float_truediv (a : Z) (y : float) : res float :=
  let* x := float_of_int a in
  float_truediv x y.

Definition float_sub (x y : float) : float := SFsub prec emax x y.

(** [x > y]; false when either side is not a number. *)
Definition float_gt (x y : float) : bool := SFltb y x.

Definition float_le (x y : float) : bool := SFleb x y.

(** [int(x)]: truncation towards zero. *)
Definition int_of_float (x : float) : res Z :=
  match x with
  | S754_zero _ => Ok 0
  | S754_finite s m e =>
      Ok (cond_Zopp s
            (if 0 <=? e then Zpos m * 2 ^ e else Zpos m / 2 ^ (- e)))
  | S754_infinity _ => Raise OverflowError
  | S754_nan => Raise ValueError
  end.

(** The literals of the module: [2.0], [3.5], and the ints [5] and [3]
    as the comparison with a float sees them. *)
Definition lit_2_0 : float := S754_finite false 4503599627370496 (-51).
Definition lit_3_5 : float := S754_finite false 7881299347898368 (-51).
Definition lit_5 : float := S754_finite false 5629499534213120 (-50).
Definition lit_3 : float := S754_finite false 6755399441055744 (-51).

End Py.

(** ** Landmarks and the measurement box *)

Definition point : Type := (Z * Z)%type.

Definition px (p : point) : Z := fst p.
Definition py (p : point) : Z := snd p.

(** [points[i]] for a literal index [i]. *)
Definition index (points : list point) (i : nat) : res point :=
  match nth_error points i with
  | Some p => Ok p
  | None => Raise IndexError
  end.

(** The dictionary returned by [get_face_points]: its four keys. *)
Record BoxCorners : Type := {
  top_left : point;
  bottom_left : point;
  top_right : point;
  bottom_right : point
}.

(** ** [get_face_points] *)

Definition top_points (points : list point) (top : string) : res (point * point) :=
  if String.eqb top "eyebrow" then
    let* top_left := index points 18 in
    let* top_right := index points 25 in
    Ok (top_left, top_right)
  else if String.eqb top "eyelid" then
    let* top_left := index points 37 in
    let* top_right := index points 43 in
    Ok (top_left, top_right)
  else Raise ValueError.

(** [int((a + b) / 2)] *)
Definition int_average (a b : Z) : res Z :=
  let* q := Py.int_truediv (a + b) 2 in
  Py.int_of_float q.

Definition get_face_points (points : list point) (method top : string)
  : res BoxCorners :=
  let* width_left := index points 0 in
  let* width_right := index points 16 in
  let* tops := top_points points top in
  let '(top_left, top_right) := tops in
  let* bottom_left := index points 50 in
  let* bottom_right := index points 52 in
  let* coords :=
    if String.eqb method "left" then
      Ok (px width_left, px width_right, py top_left, py bottom_left)
    else if String.eqb method "right" then
      Ok (px width_left, px width_right, py top_right, py bottom_right)
    else
      let* top_average := int_average (py top_left) (py top_right) in
      let* bottom_average := int_average (py bottom_left) (py bottom_right) in
      Ok (px width_left, px width_right, top_average, bottom_average) in
  let '(c0, c1, c2, c3) := coords in
  let c2 := if String.eqb top "eyelid" then c2 - 4 else c2 in
  Ok {| top_left := (c0, c2);
        bottom_left := (c0, c3);
        top_right := (c1, c2);
        bottom_right := (c1, c3) |}.

(** ** [good_picture_check] *)

(** The three values the function computes (and prints under [debug]),
    in the order of the source: [eye_dif], [nose_dif], [space_ratio]. *)
Definition picture_measures (p : list point) : res (Py.float * Py.float * Py.float) :=
  let* p16 := index p 16 in
  let* p0 := index p 0 in
  let* width_im := Py.int_truediv (px p16 - px p0) 100 in
  let* p37 := index p 37 in
  let* p41 := index p 41 in
  let* eye_y_l := Py.int_float_truediv (py p37 + py p41) Py.lit_2_0 in
  let* p44 := index p 44 in
  let* p46 := index p 46 in
  let* eye_y_r := Py.int_float_truediv (py p44 + py p46) Py.lit_2_0 in
  let* eye_dif := Py.float_truediv (Py.float_sub eye_y_r eye_y_l) width_im in
  let* p30 := index p 30 in
  let* p27 := index p 27 in
  let* nose_dif := Py.int_float_truediv (px p30 - px p27) width_im in
  let* p36 := index p 36 in
  let* p0' := index p 0 in
  let left_space := px p36 - px p0' in
  let* p16' := index p 16 in
  let* p45 := index p 45 in
  let right_space := px p16' - px p45 in
  let* space_ratio := Py.int_truediv left_space right_space in
  Ok (eye_dif, nose_dif, space_ratio).

Definition good_picture_check (p : list point) (debug : bool) : res bool :=
  let* m := picture_measures p in
  let '(eye_dif, nose_dif, space_ratio) := m in
  if Py.float_gt eye_dif Py.lit_5
     || Py.float_gt nose_dif Py.lit_3_5
     || Py.float_gt space_ratio Py.lit_3
  then Ok false
  else Ok true.

(** ** [FWHR_calc] *)

Definition FWHR_calc (corners : BoxCorners) : res Py.float :=
  let width := px (top_right corners) - px (top_left corners) in
  let height := py (bottom_left corners) - py (top_left corners) in
  let* w := Py.float_of_int width in
  let* h := Py.float_of_int height in
  Py.float_truediv w h.

(** ** The world outside the module *)

(** One row of the batch table: [[filename, fwh_ratio]], where the ratio
    is [None] when [get_fwhr] returned nothing. *)
Definition row : Type := (string * option Py.float)%type.

(** [pd.DataFrame(image_data, columns=[...])] *)
Record DataFrame : Type := {
  columns : list string;
  rows : list row
}.

(** The libraries the module calls. [raw_face_landmarks] is
    [face_recognition.api._raw_face_landmarks] followed by the conversion
    of each face to a list of [(x, y)] tuples; [sort_values] is
    [DataFrame.sort_values(by=..., inplace=True)] on the rows.

    What a library raises when it fails is the library's business and is
    left open: [fetch_error url] is the exception of
    [urllib.request.urlretrieve] for a URL it cannot fetch (an [OSError]
    for an unreachable one, a [ValueError] for a path without a scheme,
    ...), [open_error path there] that of
    [face_recognition.load_image_file] for a path it cannot decode,
    [there] telling whether a file exists at the path, and
    [listdir_error folder_path] that of [os.listdir].

    [new_entry path listings] gives the folder listings once a file has
    been created at [path]: which folders show the new name, and where,
    is the file system's business. *)
Class External : Type := {
  image : Type;
  raw_face_landmarks : image -> list (list point);
  sort_values : string -> list row -> list row;
  fetch_error : string -> exn;
  open_error : string -> bool -> exn;
  listdir_error : string -> exn;
  new_entry : string -> gmap string (list string) -> gmap string (list string)
}.

Section IO.

Context `{External}.

Inductive file : Type :=
| ImageFile (i : image)
| CsvFile (df : DataFrame)
| OtherFile.

(** [web]: what a URL serves; [disk]: the files by path; [dirs]: what
    [os.listdir] returns for a folder path. *)
Record world : Type := {
  web : gmap string file;
  disk : gmap string file;
  dirs : gmap string (list string)
}.

Definition io (A : Type) : Type := world -> res A * world.

Definition io_ret {A : Type} (a : A) : io A := fun w => (Ok a, w).

Definition io_raise {A : Type} (e : exn) : io A := fun w => (Raise e, w).

Definition io_bind {A B : Type} (m : io A) (k : A -> io B) : io B :=
  fun w =>
    match m w with
    | (Ok a, w') => k a w'
    | (Raise e, w') => (Raise e, w')
    end.

Definition io_lift {A : Type} (r : res A) : io A := fun w => (r, w).

Notation "'let!' x ':=' m 'in' k" := (io_bind m (fun x => k))
  (at level 10, x pattern, m at level 100, k at level 200).

(** Writing a file: the disk holds the new contents at the path, and
    when no file was there before, the folder listings get the new
    entry. *)
Definition write_file (path : string) (f : file) (w : world) : world :=
  {| web := web w;
     disk := <[path := f]> (disk w);
     dirs := match disk w !! path with
             | Some _ => dirs w
             | None => new_entry path (dirs w)
             end |}.

(** [urllib.request.urlretrieve(url, dest)] *)
Definition urlretrieve (url dest : string) : io unit :=
  fun w =>
    match web w !! url with
    | Some f => (Ok tt, write_file dest f w)
    | None => (Raise (fetch_error url), w)
    end.

(** [face_recognition.load_image_file(path)] *)
Definition load_image_file (path : string) : io image :=
  fun w =>
    match disk w !! path with
    | Some (ImageFile i) => (Ok i, w)
    | Some _ => (Raise (open_error path true), w)
    | None => (Raise (open_error path false), w)
    end.

(** [os.listdir(folder_path)] *)
Definition listdir (folder_path : string) : io (list string) :=
  fun w =>
    match dirs w !! folder_path with
    | Some names => (Ok names, w)
    | None => (Raise (listdir_error folder_path), w)
    end.

(** [df.to_csv(csv_file, index=False)] *)
Definition to_csv (csv_file : string) (df : DataFrame) : io unit :=
  fun w => (Ok tt, write_file csv_file (CsvFile df) w).

(** [s[-n:]] *)
Definition last_chars (n : nat) (s : string) : string :=
  substring (String.length s - n) n s.

(** [s.endswith(suffix)] *)
Definition endswith (s suffix : string) : bool :=
  String.eqb (last_chars (String.length suffix) s) suffix.

(** ** [load_image] *)

Definition load_image (path : string) (url : bool) : io image :=
  if negb url then load_image_file path
  else if String.eqb (last_chars 3 path) "jpg" || String.eqb (last_chars 3 path) "png" then
    let! _ := urlretrieve path "tmp.jpg" in
    load_image_file "tmp.jpg"
  else if String.eqb (last_chars 3 path) "png" then
    let! _ := urlretrieve path "tmp.png" in
    load_image_file "tmp.png"
  else io_raise ValueError.

(** ** [get_fwhr] *)

(** [landmarks[0]] *)
Definition first_face (landmarks : list (list point)) : res (list point) :=
  match landmarks with
  | face :: _ => Ok face
  | [] => Raise IndexError
  end.

(** The printed line and the displayed picture of [show=True] are not
    part of the state; in that mode the function falls off its end and
    returns [None]. *)
Definition get_fwhr (image_path : string) (url show : bool) (method top : string)
  : io (option Py.float) :=
  let! image := load_image image_path url in
  let landmarks := raw_face_landmarks image in
  let! landmarks_as_tuples := io_lift (first_face landmarks) in
  let! good := io_lift (good_picture_check landmarks_as_tuples false) in
  if good then
    let! corners := io_lift (get_face_points landmarks_as_tuples method top) in
    let! fwh_ratio := io_lift (FWHR_calc corners) in
    if show then io_ret None else io_ret (Some fwh_ratio)
  else
    if show then io_ret None else io_ret None.

(** ** [get_fwhr_bulk] *)

Definition is_image_name (filename : string) : bool :=
  endswith filename ".jpg" || endswith filename ".png".

(** The [for file in os.listdir(directory)] loop, [image_data] being
    the list it appends to. *)
Fixpoint bulk_loop (folder_path : string) (files : list string)
         (image_data : list row) : io (list row) :=
  match files with
  | [] => io_ret image_data
  | filename :: files' =>
      if is_image_name filename then
        let image_path := (folder_path ++ filename)%string in
        let! fwh_ratio := get_fwhr image_path false false "average" "eyelid" in
        bulk_loop folder_path files' (image_data ++ [(filename, fwh_ratio)])
      else bulk_loop folder_path files' image_data
  end.

(** The first half of [get_fwhr_bulk], up to the data frame. *)
Definition collect_image_data (folder_path : string) : io (list row) :=
  let! files := listdir folder_path in
  bulk_loop folder_path files [].

Definition get_fwhr_bulk (folder_path sort_by : string) : io unit :=
  let! image_data := collect_image_data folder_path in
  let df := {| columns := ["Filename"; "Ratio"]; rows := image_data |} in
  let! df :=
    if String.eqb sort_by "filename" then
      io_ret {| columns := columns df; rows := sort_values "Filename" (rows df) |}
    else if String.eqb sort_by "ratio" then
      io_ret {| columns := columns df; rows := sort_values "Ratio" (rows df) |}
    else io_raise ValueError in
  let csv_file := (folder_path ++ "fwhr_ratios.csv")%string in
  to_csv csv_file df.

(** What the specification says of the row of one image file: its
    name, and the ratio of the first face under the fixed configuration
    when the face passes the gate, nothing when it fails. *)
Definition batch_row (w : world) (folder_path filename : string) (r : row) : Prop :=
  fst r = filename /\
  exists img face others,
    disk w !! (folder_path ++ filename)%string = Some (ImageFile img) /\
    raw_face_landmarks img = face :: others /\
    ((good_picture_check face false = Ok false /\ snd r = None) \/
     (good_picture_check face false = Ok true /\
      exists corners ratio,
        get_face_points face "average" "eyelid" = Ok corners /\
        FWHR_calc corners = Ok ratio /\ snd r = Some ratio)).

End IO.

Arguments file {_}.
Arguments world {_}.
Arguments io {_} A.

(** ** The data model of the specification *)

(** Landmark [i] of a face, for stating properties of a complete face. *)
Definition landmark (p : list point) (i : nat) : point := nth i p (0, 0).

(** A pixel coordinate: an integer of magnitude below [2 ^ 52], a range
    that holds every position in or near an image and on which the sum
    and the difference of two coordinates are floats. *)
Definition pixel (z : Z) : Prop := Z.abs z < 2 ^ 52.

(** A LandmarkSet: exactly 68 points with pixel coordinates. *)
Definition LandmarkSet (p : list point) : Prop :=
  length p = 68%nat /\ Forall (fun q => pixel (px q) /\ pixel (py q)) p.

Definition landmark_setb (p : list point) : bool :=
  Nat.eqb (length p) 68
  && forallb (fun q => (Z.abs (px q) <? 2 ^ 52) && (Z.abs (py q) <? 2 ^ 52)) p.

(** The two landmark indices that give the top of the box. *)
Definition top_indices (top : string) : nat * nat :=
  if String.eqb top "eyebrow" then (18%nat, 25%nat) else (37%nat, 43%nat).

(** How far the top line is moved up. *)
Definition top_shift (top : string) : Z :=
  if String.eqb top "eyelid" then 4 else 0.

(** The value a method makes of a left and a right coordinate, in the
    words of the specification: one side, or the truncating integer
    average of both. *)
Definition combine (method : string) (l r : Z) : Z :=
  if String.eqb method "left" then l
  else if String.eqb method "right" then r
  else Z.quot (l + r) 2.

(** The three heuristics of the quality gate, each on its own, in the
    words of the specification. *)
Definition face_width_scale (p : list point) : res Py.float :=
  let* p16 := index p 16 in
  let* p0 := index p 0 in
  Py.int_truediv (px p16 - px p0) 100.

Definition average_y (p : list point) (i j : nat) : res Py.float :=
  let* a := index p i in
  let* b := index p j in
  Py.int_float_truediv (py a + py b) Py.lit_2_0.

Definition eye_height_difference (p : list point) : res Py.float :=
  let* scale := face_width_scale p in
  let* eye_l := average_y p 37 41 in
  let* eye_r := average_y p 44 46 in
  Py.float_truediv (Py.float_sub eye_r eye_l) scale.

Definition nose_tilt (p : list point) : res Py.float :=
  let* scale := face_width_scale p in
  let* p30 := index p 30 in
  let* p27 := index p 27 in
  Py.int_float_truediv (px p30 - px p27) scale.

Definition space_ratio (p : list point) : res Py.float :=
  let* p36 := index p 36 in
  let* p0 := index p 0 in
  let* p16 := index p 16 in
  let* p45 := index p 45 in
  Py.int_truediv (px p36 - px p0) (px p16 - px p45).

(** ** Sample faces *)

(** A face given by the landmarks that matter; the others are [(0, 0)]. *)
Definition mark (i : nat) (x y : Z) : nat * point := (i, (x, y)).

Arguments mark i%_nat x%_Z y%_Z.

Definition face_of (marks : list (nat * point)) : list point :=
  fold_right (fun m p => <[fst m := snd m]> p) (repeat (0, 0) 68) marks.

(** A frontal face 100 pixels wide: eyes level, nose upright, the two eye
    corners 20 pixels from the face edges. *)
Definition frontal_face : list point :=
  face_of [mark 0 0 50; mark 16 100 50; mark 18 20 30; mark 25 80 32;
           mark 27 50 40; mark 30 50 70; mark 36 20 45; mark 45 80 45;
           mark 37 25 43; mark 41 25 47; mark 43 70 44; mark 44 75 43;
           mark 46 75 47; mark 50 45 85; mark 52 55 88].

(** A face 200 pixels wide with the right eye exactly 5 hundredths of
    the face width lower, the nose tip exactly 3.5 hundredths to the
    right and the left space exactly three times the right one: every
    heuristic sits on its threshold. *)
Definition threshold_face : list point :=
  face_of [mark 0 0 50; mark 16 200 50; mark 27 100 40; mark 30 107 70;
           mark 36 60 45; mark 45 180 45; mark 37 50 43; mark 41 50 47;
           mark 43 140 43; mark 44 150 53; mark 46 150 57;
           mark 50 90 130; mark 52 110 130].

(** The threshold face with the right eye half a pixel lower still. *)
Definition uneven_face : list point :=
  <[46%nat := (150, 58)]> threshold_face.

(** A face turned so far that the right eye corner lies on the face edge. *)
Definition profile_face : list point :=
  face_of [mark 45 100 45; mark 0 0 50; mark 16 100 50; mark 36 20 45].

(** A face of no width. *)
Definition flat_face : list point :=
  face_of [mark 0 40 50; mark 16 40 50; mark 45 30 45].

(** A face whose left space is four times its right space. *)
Definition turned_face : list point :=
  face_of [mark 0 0 50; mark 16 100 50; mark 36 40 45; mark 45 90 45].

(** A box 50 wide and 25 high. *)
Definition sample_box : BoxCorners :=
  {| top_left := (10, 20); bottom_left := (10, 45);
     top_right := (60, 20); bottom_right := (60, 45) |}.

(** ** A sample world *)

(** [path] split after its last [/] into folder and file name. *)
Fixpoint split_path (path : string) : string * string :=
  match path with
  | EmptyString => (EmptyString, EmptyString)
  | String c rest =>
      let '(folder, name) := split_path rest in
      if String.eqb folder EmptyString then
        if Ascii.eqb c "/" then (String c EmptyString, name)
        else (EmptyString, String c name)
      else (String c folder, name)
  end.

(** The listing of the file's folder, when there is one, gets the
    file's name at its end; a path without a folder is in [./]. *)
Definition append_entry (path : string) (listings : gmap string (list string))
  : gmap string (list string) :=
  let '(folder, name) := split_path path in
  let folder := if String.eqb folder EmptyString then "./"%string else folder in
  match listings !! folder with
  | Some names => <[folder := names ++ [name]]> listings
  | None => listings
  end.

(** A stand-in for the libraries: an image is the list of faces the
    detector finds in it, and sorting leaves the rows as they are; a
    fetch fails with [ValueError] for a path that does not start with
    [http] and with [OSError] otherwise, the other failures are
    [OSError]. *)
Definition sample_libraries : External :=
  {| image := list (list point);
     raw_face_landmarks := fun i => i;
     sort_values := fun _ table => table;
     fetch_error := fun url => if String.prefix "http" url then OSError else ValueError;
     open_error := fun _ _ => OSError;
     listdir_error := fun _ => OSError;
     new_entry := append_entry |}.

Definition picture (faces : list (list point)) : @file sample_libraries :=
  @ImageFile sample_libraries faces.

(** A folder with three images (the second fails the gate) and a text
    file, and a folder whose only image shows no face. *)
Definition sample_world : @world sample_libraries :=
  {| web := {[ "http://example.org/face.png" := picture [frontal_face] ]};
     disk :=
       <[ "./images/a.jpg" := picture [frontal_face] ]> (
       <[ "./images/b.png" := picture [turned_face; frontal_face] ]> (
       <[ "./images/c.jpg" := picture [threshold_face] ]> (
       <[ "./images/notes.txt" := OtherFile ]> (
       <[ "./empty/wall.jpg" := picture [] ]> ∅))));
     dirs :=
       <[ "./images/" := ["c.jpg"; "notes.txt"; "a.jpg"; "b.png"] ]> (
       <[ "./empty/" := ["wall.jpg"] ]> ∅) |}.

(** ** [show_box] *)

(** [math.ceil(x)] *)
Definition math_ceil (x : Py.float) : res Z :=
  match x with
  | S754_zero _ => Ok 0
  | S754_finite s m e =>
      Ok (if 0 <=? e then cond_Zopp s (Zpos m * 2 ^ e)
          else if s then - (Zpos m / 2 ^ (- e))
          else - (Zneg m / 2 ^ (- e)))
  | S754_infinity _ => Raise OverflowError
  | S754_nan => Raise ValueError
  end.

(** One call of [d.line([a, b], width=w)]. *)
Record line : Type := {
  line_from : point;
  line_to : point;
  line_width : Z
}.

(** [show_box] as the list of lines it asks the drawing library for, on
    an image of size [(w, h)]; the pixels and the window are the
    library's. *)
Definition show_box (size : Z * Z) (corners : BoxCorners) : res (list line) :=
  let '(w, h) := size in
  let* q := Py.int_truediv h 100 in
  let* line_width := math_ceil q in
  Ok [ {| line_from := bottom_left corners; line_to := top_left corners;
          line_width := line_width |};
       {| line_from := bottom_left corners; line_to := bottom_right corners;
          line_width := line_width |};
       {| line_from := top_left corners; line_to := top_right corners;
          line_width := line_width |};
       {| line_from := top_right corners; line_to := bottom_right corners;
          line_width := line_width |} ].

(** ** Helpers for stating properties *)

(** The two lines of [get_fwhr] that turn a face into its ratio. *)
Definition fwh_ratio_of (face : list point) (method top : string) : res Py.float :=
  let* corners := get_face_points face method top in
  FWHR_calc corners.

(** A face, or a box, moved by [(dx, dy)] in the picture. *)
Definition move (dx dy : Z) (q : point) : point := (px q + dx, py q + dy).

Definition translate (dx dy : Z) (p : list point) : list point :=
  map (move dx dy) p.

Definition translate_box (dx dy : Z) (box : BoxCorners) : BoxCorners :=
  {| top_left := move dx dy (top_left box);
     bottom_left := move dx dy (bottom_left box);
     top_right := move dx dy (top_right box);
     bottom_right := move dx dy (bottom_right box) |}.

Definition res_map {A B : Type} (f : A -> B) (r : res A) : res B :=
  match r with
  | Ok a => Ok (f a)
  | Raise e => Raise e
  end.

(** A finite float of sign [s] whose exponent and magnitude are within
    [k] of zero. *)
Definition bounded_float (k : Z) (s : bool) (x : Py.float) : Prop :=
  exists m e,
    x = S754_finite s m e /\ - k <= e <= k /\ - k <= Zdigits2 (Zpos m) + e <= k.

(** A face cut short after its first [n] landmarks. *)
Definition first_landmarks (n : nat) (p : list point) : list point := firstn n p.

(** A world whose web serves two pictures, whose disk holds an old
    [tmp.jpg], with a folder of text files only and a folder whose
    second image shows no face. *)
Definition second_world : @world sample_libraries :=
  {| web :=
       <[ "http://example.org/face.png" := picture [frontal_face] ]> (
       <[ "http://example.org/other.jpg" := picture [turned_face] ]> ∅);
     disk :=
       <[ "tmp.jpg" := @OtherFile sample_libraries ]> (
       <[ "./mixed/a.jpg" := picture [frontal_face] ]> (
       <[ "./mixed/blank.jpg" := picture [] ]> (
       <[ "./mixed/c.png" := picture [threshold_face] ]> ∅)));
     dirs :=
       <[ "./" := ["tmp.jpg"] ]> (
       <[ "./docs/" := ["notes.txt"; "README"; "photo.JPG"] ]> (
       <[ "./mixed/" := ["a.jpg"; "blank.jpg"; "c.png"] ]> ∅)) |}.

(** The threshold face tilted the other way: the left eye 40 pixels
    lower than the right one and the nose tip 40 pixels left of the
    bridge. *)
Definition leaning_face : list point :=
  face_of [mark 0 0 50; mark 16 200 50; mark 27 100 40; mark 30 60 70;
           mark 36 60 45; mark 45 180 45; mark 37 50 83; mark 41 50 87;
           mark 44 150 43; mark 46 150 47; mark 50 90 130; mark 52 110 130].

Example lit_check :
  Py.float_of_int 2 = Ok Py.lit_2_0 /\ Py.float_of_int 5 = Ok Py.lit_5 /\
  Py.float_of_int 3 = Ok Py.lit_3 /\ Py.int_truediv 7 2 = Ok Py.lit_3_5.
Proof. repeat split; vm_compute; reflexivity. Qed.

(** The arithmetic on known values: [1 / 3] and [3 / 100] are the
    doubles Python prints as [0.3333333333333333] and [0.03]; a quotient
    that needs 54 bits is rounded to even; ints too large for a float
    still divide when the quotient fits; [int] truncates towards zero. *)
Example binary64_known_values :
  Py.int_truediv 1 3 = Ok (S754_finite false 6004799503160661 (-54)) /\
  Py.int_truediv 3 100 = Ok (S754_finite false 8646911284551352 (-58)) /\
  Py.int_truediv (2 ^ 54 + 2) 2 = Py.float_of_int (2 ^ 53) /\
  Py.int_truediv (2 ^ 54 + 6) 2 = Py.float_of_int (2 ^ 53 + 4) /\
  Py.float_of_int (2 ^ 53 + 1) = Py.float_of_int (2 ^ 53) /\
  Py.int_truediv (2 ^ 2000) (2 ^ 1999) = Ok Py.lit_2_0 /\
  Py.int_truediv (2 ^ 2000) 2 = Raise OverflowError /\
  Py.float_of_int (2 ^ 1024) = Raise OverflowError /\
  Py.int_truediv 0 (-5) = Ok (S754_zero true) /\
  int_average (-1) (-2) = Ok (-1) /\
  int_average 3 4 = Ok 3.
Proof. repeat split; vm_compute; reflexivity. Qed.

(** * Facts about the binary64 operations *)

Module Binary64.

Import Py.

Abbreviation fexp := (SpecFloat.fexp prec emax).
Abbreviation emin := (SpecFloat.emin prec emax).

Lemma fexp_eq e : fexp e = Z.max (e - 53) (-1074).
Proof. reflexivity. Qed.

Lemma fexp_mono a b : a <= b -> fexp a <= fexp b.
Proof. rewrite !fexp_eq. lia. Qed.

(** The number of binary digits of a positive number. *)
Lemma digits2_pos_log2 p : Zpos (digits2_pos p) = Z.log2 (Zpos p) + 1.
Proof.
  induction p as [p IH | p IH |]; cbn [digits2_pos].
  - rewrite Pos2Z.inj_succ, IH.
    change (Zpos p~1) with (2 * Zpos p + 1).
    rewrite Z.log2_succ_double by lia. lia.
  - rewrite Pos2Z.inj_succ, IH.
    change (Zpos p~0) with (2 * Zpos p).
    rewrite Z.log2_double by lia. lia.
  - reflexivity.
Qed.

Lemma Zdigits2_log2 m : 0 < m -> Zdigits2 m = Z.log2 m + 1.
Proof.
  destruct m as [| p | p]; try lia. intros _. apply digits2_pos_log2.
Qed.

Lemma Zdigits2_bounds m :
  0 < m -> 2 ^ (Zdigits2 m - 1) <= m < 2 ^ Zdigits2 m.
Proof.
  intros Hm. rewrite (Zdigits2_log2 m Hm).
  replace (Z.log2 m + 1 - 1) with (Z.log2 m) by lia.
  replace (Z.log2 m + 1) with (Z.succ (Z.log2 m)) by lia.
  apply Z.log2_spec; assumption.
Qed.

Lemma Zdigits2_unique m k :
  2 ^ (k - 1) <= m < 2 ^ k -> 0 < k -> Zdigits2 m = k.
Proof.
  intros Hb Hk.
  assert (0 < m) by (pose proof (Z.pow_pos_nonneg 2 (k - 1)); lia).
  rewrite Zdigits2_log2 by assumption.
  rewrite (Z.log2_unique m (k - 1)); [lia | lia |].
  replace (Z.succ (k - 1)) with k by lia. assumption.
Qed.

Lemma Zdigits2_pos m : 0 < m -> 0 < Zdigits2 m.
Proof.
  intros Hm. rewrite Zdigits2_log2 by assumption.
  pose proof (Z.log2_nonneg m). lia.
Qed.

Lemma Zdigits2_le m k : 0 < m -> m < 2 ^ k -> 0 <= k -> Zdigits2 m <= k.
Proof.
  intros Hm Hlt Hk. rewrite Zdigits2_log2 by assumption.
  assert (Z.log2 m < k) by (apply Z.log2_lt_pow2; assumption). lia.
Qed.

Lemma Zdigits2_mono a b : 0 < a -> a <= b -> Zdigits2 a <= Zdigits2 b.
Proof.
  intros Ha Hab. rewrite !Zdigits2_log2 by lia.
  pose proof (Z.log2_le_mono a b Hab). lia.
Qed.

Lemma Zdigits2_succ_le m : 0 < m -> Zdigits2 (m + 1) <= Zdigits2 m + 1.
Proof.
  intros Hm. pose proof (Zdigits2_bounds m Hm) as [_ Hu].
  pose proof (Zdigits2_pos m Hm).
  apply Zdigits2_le; [lia | | lia].
  rewrite Z.pow_add_r by lia. lia.
Qed.

Lemma shr_1_m r : 0 <= shr_m r -> shr_m (shr_1 r) = shr_m r / 2.
Proof.
  destruct r as [m rb sb]. cbn [shr_m shr_1]. intros Hm.
  destruct m as [| [p | p |] | p]; cbn [shr_m]; try lia.
  all: try reflexivity.
  - rewrite Pos2Z.inj_xI. apply (Z.div_unique _ _ _ 1); lia.
  - rewrite Pos2Z.inj_xO. apply (Z.div_unique _ _ _ 0); lia.
Qed.

Lemma pow2_xI n : 2 ^ Zpos n~1 = 2 * 2 ^ Zpos n * 2 ^ Zpos n.
Proof.
  replace (Zpos n~1) with (1 + Zpos n + Zpos n) by lia.
  rewrite !Z.pow_add_r by lia. reflexivity.
Qed.

Lemma pow2_xO n : 2 ^ Zpos n~0 = 2 ^ Zpos n * 2 ^ Zpos n.
Proof.
  replace (Zpos n~0) with (Zpos n + Zpos n) by lia.
  rewrite !Z.pow_add_r by lia. reflexivity.
Qed.

Lemma pow2_pos k : 0 <= k -> 0 < 2 ^ k.
Proof. intros. apply Z.pow_pos_nonneg; lia. Qed.

Lemma iter_shr_1_m n : forall r,
  0 <= shr_m r -> shr_m (SpecFloat.iter_pos shr_1 n r) = shr_m r / 2 ^ Zpos n.
Proof.
  assert (Hnn : forall r, 0 <= shr_m r -> 0 <= shr_m (shr_1 r)).
  { intros r Hr. rewrite shr_1_m by assumption. apply Z.div_pos; lia. }
  pose proof (pow2_pos (Zpos n) ltac:(lia)) as Hp.
  induction n as [n IH | n IH |]; intros r Hr; cbn [SpecFloat.iter_pos].
  - pose proof (pow2_pos (Zpos n) ltac:(lia)) as Hq.
    specialize (IH Hq).
    assert (H1 : 0 <= shr_m (SpecFloat.iter_pos shr_1 n (shr_1 r))).
    { rewrite IH by auto. apply Z.div_pos; auto. }
    rewrite IH by assumption. rewrite IH by auto. rewrite shr_1_m by assumption.
    rewrite !Z.div_div by lia. rewrite pow2_xI. f_equal. lia.
  - pose proof (pow2_pos (Zpos n) ltac:(lia)) as Hq.
    specialize (IH Hq).
    assert (H1 : 0 <= shr_m (SpecFloat.iter_pos shr_1 n r)).
    { rewrite IH by auto. apply Z.div_pos; auto. }
    rewrite IH by assumption. rewrite IH by auto.
    rewrite !Z.div_div by lia. rewrite pow2_xO. reflexivity.
  - rewrite shr_1_m by assumption. reflexivity.
Qed.

Lemma shr_record_of_loc_m m l : shr_m (shr_record_of_loc m l) = m.
Proof. destruct l as [| []]; reflexivity. Qed.

(** What [shr_fexp] does to a positive mantissa: a right shift by the
    distance to the canonical exponent, when that is positive. *)
Lemma shr_fexp_m m e l :
  0 < m ->
  let n := Z.max 0 (fexp (Zdigits2 m + e) - e) in
  shr_m (fst (shr_fexp prec emax m e l)) = m / 2 ^ n /\
  snd (shr_fexp prec emax m e l) = e + n.
Proof.
  intros Hm n. unfold shr_fexp, shr. subst n.
  destruct (fexp (Zdigits2 m + e) - e) as [| p | p] eqn:E; cbn [fst snd].
  - rewrite shr_record_of_loc_m. cbn. rewrite Z.div_1_r. lia.
  - rewrite iter_shr_1_m by (rewrite shr_record_of_loc_m; lia).
    rewrite shr_record_of_loc_m. rewrite Z.max_r by lia. split; reflexivity.
  - rewrite shr_record_of_loc_m. cbn. rewrite Z.div_1_r. lia.
Qed.

Lemma round_nearest_even_bounds m l :
  m <= round_nearest_even m l <= m + 1.
Proof.
  destruct l as [| []]; cbn [round_nearest_even]; try lia.
  destruct (Z.even m); lia.
Qed.

(** Shifting a positive mantissa right by fewer places than it has
    digits leaves a positive mantissa with that many digits fewer. *)
Lemma shift_digits m n :
  0 < m -> 0 <= n < Zdigits2 m ->
  0 < m / 2 ^ n /\ Zdigits2 (m / 2 ^ n) = Zdigits2 m - n.
Proof.
  intros Hm Hn.
  pose proof (Zdigits2_bounds m Hm) as [Hl Hu].
  pose proof (pow2_pos n ltac:(lia)) as Hp.
  assert (Hlo : 2 ^ (Zdigits2 m - n - 1) <= m / 2 ^ n).
  { apply Z.div_le_lower_bound; [assumption |].
    rewrite <- Z.pow_add_r by lia.
    replace (n + (Zdigits2 m - n - 1)) with (Zdigits2 m - 1) by lia. assumption. }
  assert (Hhi : m / 2 ^ n < 2 ^ (Zdigits2 m - n)).
  { apply Z.div_lt_upper_bound; [assumption |].
    rewrite <- Z.pow_add_r by lia.
    replace (n + (Zdigits2 m - n)) with (Zdigits2 m) by lia. assumption. }
  pose proof (pow2_pos (Zdigits2 m - n - 1) ltac:(lia)).
  split; [lia |].
  apply Zdigits2_unique; [| lia]. split; assumption.
Qed.

(** The shape of a rounded result: a positive mantissa never rounds to
    zero unless it lies below the smallest subnormal, and the exponent
    of the result is bounded by the magnitude of the input. *)
Lemma binary_round_aux_shape s mz ez l :
  0 < mz -> -1074 < Zdigits2 mz + ez ->
  exists m e,
    e <= Z.max ez (fexp (Zdigits2 mz + ez + 1)) /\
    binary_round_aux prec emax s mz ez l =
      if e <=? emax - prec then S754_finite s m e else S754_infinity s.
Proof.
  intros Hmz Hmag. unfold binary_round_aux.
  pose proof (shr_fexp_m mz ez l Hmz) as H1. cbv zeta in H1.
  destruct (shr_fexp prec emax mz ez l) as [mrs' e'].
  cbn [fst snd] in H1. destruct H1 as [Hm1 He1].
  set (n1 := Z.max 0 (fexp (Zdigits2 mz + ez) - ez)) in *.
  assert (Hn1 : 0 <= n1 < Zdigits2 mz).
  { subst n1. pose proof (Zdigits2_pos mz Hmz).
    rewrite fexp_eq. lia. }
  destruct (shift_digits mz n1 Hmz Hn1) as [Hpos1 Hdig1].
  rewrite <- Hm1 in Hpos1, Hdig1.
  set (m2 := round_nearest_even (shr_m mrs') (loc_of_shr_record mrs')).
  pose proof (round_nearest_even_bounds (shr_m mrs') (loc_of_shr_record mrs')) as Hr.
  fold m2 in Hr.
  assert (Hm2 : 0 < m2) by lia.
  assert (Hd2 : Zdigits2 (shr_m mrs') <= Zdigits2 m2 <= Zdigits2 (shr_m mrs') + 1).
  { split; [apply Zdigits2_mono; lia |].
    transitivity (Zdigits2 (shr_m mrs' + 1)).
    - apply Zdigits2_mono; lia.
    - apply Zdigits2_succ_le; assumption. }
  pose proof (shr_fexp_m m2 e' loc_Exact Hm2) as H2. cbv zeta in H2.
  destruct (shr_fexp prec emax m2 e' loc_Exact) as [mrs'' e''].
  cbn [fst snd] in H2. destruct H2 as [Hm3 He3].
  set (n2 := Z.max 0 (fexp (Zdigits2 m2 + e') - e')) in *.
  assert (Hn2 : 0 <= n2 < Zdigits2 m2).
  { subst n2. rewrite fexp_eq. lia. }
  destruct (shift_digits m2 n2 Hm2 Hn2) as [Hpos3 _].
  rewrite <- Hm3 in Hpos3.
  destruct (shr_m mrs'') as [| m3 | m3]; try lia.
  exists m3, e''. split; [| reflexivity].
  subst e'' e' n2 n1. rewrite !fexp_eq in *. lia.
Qed.

Lemma binary_round_aux_not_zero s mz ez l :
  0 < mz -> -1074 < Zdigits2 mz + ez ->
  is_zero (binary_round_aux prec emax s mz ez l) = false.
Proof.
  intros Hmz Hmag.
  destruct (binary_round_aux_shape s mz ez l Hmz Hmag) as (m & e & _ & ->).
  destruct (e <=? emax - prec); reflexivity.
Qed.

Lemma binary_round_aux_finite s mz ez l :
  0 < mz -> -1074 < Zdigits2 mz + ez <= 1023 -> ez <= 971 ->
  exists m e, binary_round_aux prec emax s mz ez l = S754_finite s m e.
Proof.
  intros Hmz Hmag Hez.
  destruct (binary_round_aux_shape s mz ez l Hmz ltac:(lia)) as (m & e & Hb & ->).
  exists m, e. rewrite fexp_eq in Hb.
  replace (e <=? emax - prec) with true; [reflexivity |].
  symmetry. apply Z.leb_le. unfold emax, prec. lia.
Qed.

Lemma iter_xO_pow m d : Zpos (Pos.iter xO m d) = Zpos m * 2 ^ Zpos d.
Proof.
  induction d as [| d IH] using Pos.peano_ind.
  - cbn. lia.
  - rewrite Pos.iter_succ, Pos2Z.inj_xO, IH, Pos2Z.inj_succ.
    rewrite Z.pow_succ_r by lia. lia.
Qed.

(** [shl_align] pads the mantissa with zeros down to the wanted
    exponent and changes neither the value nor its magnitude. *)
Lemma shl_align_spec mx ex ex' :
  let mz := fst (shl_align mx ex ex') in
  let ez := snd (shl_align mx ex ex') in
  ez = Z.min ex ex' /\ Zpos mz = Zpos mx * 2 ^ (ex - ez) /\
  Zdigits2 (Zpos mz) + ez = Zdigits2 (Zpos mx) + ex.
Proof.
  unfold shl_align. destruct (ex' - ex) as [| d | d] eqn:E; cbn [fst snd].
  - rewrite Z.min_l by lia. rewrite Z.sub_diag. cbn. lia.
  - rewrite Z.min_l by lia. rewrite Z.sub_diag. cbn. lia.
  - rewrite Z.min_r by lia. rewrite iter_xO_pow.
    replace (ex - ex') with (Zpos d) by lia.
    split; [reflexivity |]. split; [reflexivity |].
    pose proof (Zdigits2_bounds (Zpos mx) ltac:(lia)) as [Hl Hu].
    pose proof (Zdigits2_pos (Zpos mx) ltac:(lia)) as Hd.
    rewrite <- iter_xO_pow.
    rewrite (Zdigits2_unique (Zpos (Pos.iter xO mx d)) (Zdigits2 (Zpos mx) + Zpos d)); [lia | | lia].
    rewrite iter_xO_pow.
    replace (Zdigits2 (Zpos mx) + Zpos d - 1) with (Zdigits2 (Zpos mx) - 1 + Zpos d) by lia.
    rewrite !Z.pow_add_r by lia.
    pose proof (pow2_pos (Zpos d) ltac:(lia)). nia.
Qed.

(** ** Conversion of an int *)

Lemma float_of_int_zero : float_of_int 0 = Ok (S754_zero false).
Proof. reflexivity. Qed.

Lemma binary_round_finite s m :
  Zdigits2 (Zpos m) <= 1023 ->
  exists m' e', binary_round prec emax s m 0 = S754_finite s m' e'.
Proof.
  intros Hd. unfold binary_round.
  pose proof (shl_align_spec m 0 (fexp (Zpos (digits2_pos m) + 0))) as H.
  cbv zeta in H.
  destruct (shl_align m 0 (fexp (Zpos (digits2_pos m) + 0))) as [mz ez].
  cbn [fst snd] in H. destruct H as (Hez & Hmz & Hdig).
  pose proof (Zdigits2_pos (Zpos m) ltac:(lia)).
  apply binary_round_aux_finite; lia.
Qed.

(** A non-zero int of fewer than 1024 bits converts to a finite,
    non-zero float of the same sign. *)
Lemma float_of_int_finite z :
  z <> 0 -> Z.abs z < 2 ^ 1023 ->
  exists m e, float_of_int z = Ok (S754_finite (z <? 0) m e).
Proof.
  intros Hz Hb. unfold float_of_int, binary_normalize.
  destruct z as [| p | p]; [lia | |].
  - destruct (binary_round_finite false p) as (m & e & ->).
    { apply Zdigits2_le; lia. }
    exists m, e. reflexivity.
  - destruct (binary_round_finite true p) as (m & e & ->).
    { apply Zdigits2_le; lia. }
    exists m, e. reflexivity.
Qed.

Lemma float_of_int_ok z :
  Z.abs z < 2 ^ 1023 -> exists x, float_of_int z = Ok x.
Proof.
  intros Hb. destruct (Z.eq_dec z 0) as [-> | Hz].
  - eexists. reflexivity.
  - destruct (float_of_int_finite z Hz Hb) as (m & e & H). eauto.
Qed.

Lemma binary_round_not_zero s m :
  is_zero (binary_round prec emax s m 0) = false.
Proof.
  unfold binary_round.
  pose proof (shl_align_spec m 0 (fexp (Zpos (digits2_pos m) + 0))) as H.
  cbv zeta in H.
  destruct (shl_align m 0 (fexp (Zpos (digits2_pos m) + 0))) as [mz ez].
  cbn [fst snd] in H. destruct H as (Hez & Hmz & Hdig).
  pose proof (Zdigits2_pos (Zpos m) ltac:(lia)).
  apply binary_round_aux_not_zero; lia.
Qed.

(** The float of an int is zero only for the int zero. *)
Lemma float_of_int_zero_iff z x :
  float_of_int z = Ok x -> (is_zero x = true <-> z = 0).
Proof.
  unfold float_of_int, binary_normalize. intros Hx.
  destruct z as [| p | p].
  - injection Hx as <-. split; reflexivity.
  - pose proof (binary_round_not_zero false p) as Hnz.
    destruct (is_infinity (binary_round prec emax false p 0)); [discriminate Hx |].
    injection Hx as <-. rewrite Hnz. split; [discriminate | lia].
  - pose proof (binary_round_not_zero true p) as Hnz.
    destruct (is_infinity (binary_round prec emax true p 0)); [discriminate Hx |].
    injection Hx as <-. rewrite Hnz. split; [discriminate | lia].
Qed.

(** ** True division of two ints *)

Lemma div_core_shape pa pb :
  Zdigits2 (Zpos pb) <= Zdigits2 (Zpos pa) + 1073 ->
  exists q e' l,
    SFdiv_core_binary prec emax (Zpos pa) 0 (Zpos pb) 0 = (q, e', l) /\
    0 < q /\ -1074 <= e' <= 0 /\
    Zdigits2 q + e' <= Zdigits2 (Zpos pa) - Zdigits2 (Zpos pb) + 1.
Proof.
  intros Hd. unfold SFdiv_core_binary.
  set (d1 := Zdigits2 (Zpos pa)) in *. set (d2 := Zdigits2 (Zpos pb)) in *.
  set (e' := Z.min (fexp (d1 + 0 - (d2 + 0))) (0 - 0)).
  set (s := 0 - 0 - e').
  set (m' := match s with Zpos _ => Z.shiftl (Zpos pa) s | Z0 => Zpos pa | Zneg _ => 0 end).
  pose proof (Zdigits2_bounds (Zpos pa) ltac:(lia)) as [Hal Hau]. fold d1 in Hal, Hau.
  pose proof (Zdigits2_bounds (Zpos pb) ltac:(lia)) as [Hbl Hbu]. fold d2 in Hbl, Hbu.
  pose proof (Zdigits2_pos (Zpos pa) ltac:(lia)) as Hd1. fold d1 in Hd1.
  pose proof (Zdigits2_pos (Zpos pb) ltac:(lia)) as Hd2. fold d2 in Hd2.
  assert (He' : -1074 <= e' <= 0) by (subst e'; rewrite fexp_eq; lia).
  assert (Hs : s = - e') by (subst s; lia).
  assert (Hm' : m' = Zpos pa * 2 ^ s).
  { subst m'. destruct s as [| p | p] eqn:Es; [cbn; lia | | lia].
    rewrite Z.shiftl_mul_pow2 by lia. reflexivity. }
  assert (Hsd : d2 + 1 <= d1 + s).
  { subst s e'. rewrite fexp_eq. lia. }
  destruct (Z.div_eucl m' (Zpos pb)) as [q r] eqn:E.
  assert (Hq : q = m' / Zpos pb) by (unfold Z.div; rewrite E; reflexivity).
  exists q, e', (new_location (Zpos pb) r). split; [reflexivity |].
  assert (Hlo : 2 ^ (d1 - 1 + s) <= m').
  { rewrite Hm', Z.pow_add_r by lia.
    apply Z.mul_le_mono_nonneg_r; [apply Z.lt_le_incl, pow2_pos; lia | assumption]. }
  assert (Hhi : m' < 2 ^ (d1 + s)).
  { rewrite Hm', Z.pow_add_r by lia.
    apply Z.mul_lt_mono_pos_r; [apply pow2_pos; lia | assumption]. }
  assert (Hq1 : 0 < q).
  { rewrite Hq. apply Z.div_str_pos. split; [lia |].
    assert (2 ^ d2 <= 2 ^ (d1 - 1 + s)) by (apply Z.pow_le_mono_r; lia). lia. }
  split; [assumption |]. split; [assumption |].
  assert (Hqu : q < 2 ^ (d1 + s - d2 + 1)).
  { rewrite Hq. apply Z.div_lt_upper_bound; [lia |].
    apply Z.lt_le_trans with (1 := Hhi).
    replace (d1 + s) with (d2 - 1 + (d1 + s - d2 + 1)) at 1 by lia.
    rewrite Z.pow_add_r by lia.
    apply Z.mul_le_mono_nonneg_r; [apply Z.lt_le_incl, pow2_pos; lia | assumption]. }
  pose proof (Zdigits2_le q (d1 + s - d2 + 1) Hq1 Hqu ltac:(lia)). lia.
Qed.

(** The quotient of two non-zero ints of fewer than 1000 bits each is a
    finite, non-zero float whose sign is the product of the signs. *)
Lemma int_truediv_finite a b :
  a <> 0 -> b <> 0 -> Z.abs a < 2 ^ 1000 -> Z.abs b < 2 ^ 1000 ->
  exists m e,
    int_truediv a b = Ok (S754_finite (xorb (a <? 0) (b <? 0)) m e).
Proof.
  intros Ha Hb Hba Hbb. unfold int_truediv.
  destruct (Z.eqb_spec b 0) as [| _]; [contradiction |].
  assert (Hsh : forall sa sb pa pb,
             Zpos pa < 2 ^ 1000 -> Zpos pb < 2 ^ 1000 ->
             exists m e, SFdiv prec emax (S754_finite sa pa 0) (S754_finite sb pb 0)
                         = S754_finite (xorb sa sb) m e).
  { intros sa sb pa pb Hpa Hpb. cbn [SFdiv].
    pose proof (Zdigits2_le (Zpos pa) 1000 ltac:(lia) Hpa ltac:(lia)) as Hda.
    pose proof (Zdigits2_le (Zpos pb) 1000 ltac:(lia) Hpb ltac:(lia)) as Hdb.
    pose proof (Zdigits2_pos (Zpos pa) ltac:(lia)) as Hda0.
    pose proof (Zdigits2_pos (Zpos pb) ltac:(lia)) as Hdb0.
    destruct (div_core_shape pa pb ltac:(lia)) as (q & e' & l & -> & Hq & He' & Hdq).
    pose proof (Zdigits2_pos q Hq).
    apply binary_round_aux_finite; lia. }
  destruct a as [| pa | pa]; [lia | |]; destruct b as [| pb | pb]; try lia;
    cbn [int_operand Z.ltb Z.compare];
    match goal with
    | |- context [SFdiv prec emax (S754_finite ?sa ?pa 0) (S754_finite ?sb ?pb 0)] =>
        destruct (Hsh sa sb pa pb ltac:(lia) ltac:(lia)) as (m & e & ->)
    end; exists m, e; reflexivity.
Qed.

(** ** Halving is exact *)

(** A 54-digit even mantissa with an exact location rounds to its half
    one exponent higher: nothing is lost. *)
Lemma binary_round_aux_even s P ez :
  Zpos (digits2_pos P) = 53 -> -1074 <= ez + 1 <= 971 ->
  binary_round_aux prec emax s (Zpos P~0) ez loc_Exact = S754_finite s P (ez + 1).
Proof.
  intros HP He. unfold binary_round_aux.
  assert (E1 : shr_fexp prec emax (Zpos P~0) ez loc_Exact
               = ({| shr_m := Zpos P; shr_r := false; shr_s := false |}, ez + 1)).
  { unfold shr_fexp. cbn [Zdigits2 digits2_pos]. rewrite Pos2Z.inj_succ, HP.
    replace (fexp (Z.succ 53 + ez) - ez) with 1 by (rewrite fexp_eq; lia).
    reflexivity. }
  rewrite E1. cbn [shr_m loc_of_shr_record round_nearest_even].
  assert (E2 : shr_fexp prec emax (Zpos P) (ez + 1) loc_Exact
               = ({| shr_m := Zpos P; shr_r := false; shr_s := false |}, ez + 1)).
  { unfold shr_fexp. cbn [Zdigits2]. rewrite HP.
    replace (fexp (53 + (ez + 1)) - (ez + 1)) with 0 by (rewrite fexp_eq; lia).
    reflexivity. }
  rewrite E2. cbn [shr_m].
  replace (ez + 1 <=? emax - prec) with true; [reflexivity |].
  symmetry. apply Z.leb_le. unfold emax, prec. lia.
Qed.

Lemma div_core_two pa :
  Zdigits2 (Zpos pa) <= 53 ->
  let d := Zdigits2 (Zpos pa) in
  SFdiv_core_binary prec emax (Zpos pa) 0 2 0
  = (Zpos pa * 2 ^ (54 - d), d - 55, loc_Exact).
Proof.
  intros Hd d. unfold SFdiv_core_binary. fold d.
  pose proof (Zdigits2_pos (Zpos pa) ltac:(lia)) as Hd0. fold d in Hd0, Hd.
  change (Zdigits2 2) with 2.
  replace (Z.min (fexp (d + 0 - (2 + 0))) (0 - 0)) with (d - 55)
    by (rewrite fexp_eq; lia).
  replace (0 - 0 - (d - 55)) with (55 - d) by lia.
  destruct (55 - d) as [| s | s] eqn:Es; try lia.
  rewrite Z.shiftl_mul_pow2 by lia. rewrite <- Es.
  replace (55 - d) with (1 + (54 - d)) by lia.
  rewrite Z.pow_add_r by lia. change (2 ^ 1) with 2.
  replace (Zpos pa * (2 * 2 ^ (54 - d))) with (2 * (Zpos pa * 2 ^ (54 - d)) + 0) by lia.
  assert (Hq : 0 < Zpos pa * 2 ^ (54 - d)).
  { apply Z.mul_pos_pos; [lia | apply pow2_pos; lia]. }
  destruct (Z.div_eucl (2 * (Zpos pa * 2 ^ (54 - d)) + 0) 2) as [q r] eqn:E.
  pose proof (Z.div_eucl_eq (2 * (Zpos pa * 2 ^ (54 - d)) + 0) 2 ltac:(lia)) as Heq.
  pose proof (Z.mod_pos_bound (2 * (Zpos pa * 2 ^ (54 - d)) + 0) 2 ltac:(lia)) as Hr.
  unfold Z.modulo in Hr. rewrite E in Heq, Hr.
  assert (r = 0) by lia. assert (q = Zpos pa * 2 ^ (54 - d)) by lia.
  subst q r. reflexivity.
Qed.

(** [n / 2] for an int of at most 53 bits: the float that holds the
    exact half. *)
Lemma int_truediv_two_finite s pa :
  Zdigits2 (Zpos pa) <= 53 ->
  let d := Zdigits2 (Zpos pa) in
  SFdiv prec emax (S754_finite s pa 0) (S754_finite false 2 0)
  = S754_finite s (Z.to_pos (Zpos pa * 2 ^ (53 - d))) (d - 54).
Proof.
  intros Hd d. cbn [SFdiv]. 
  pose proof (div_core_two pa Hd) as Hc. cbv zeta in Hc. fold d in Hc.
  change (Zpos 2) with 2. rewrite Hc. clear Hc.
  pose proof (Zdigits2_pos (Zpos pa) ltac:(lia)) as Hd0. fold d in Hd0, Hd.
  pose proof (Zdigits2_bounds (Zpos pa) ltac:(lia)) as [Hl Hu]. fold d in Hl, Hu.
  set (P := Z.to_pos (Zpos pa * 2 ^ (53 - d))).
  assert (HPpos : 0 < Zpos pa * 2 ^ (53 - d)).
  { apply Z.mul_pos_pos; [lia | apply pow2_pos; lia]. }
  assert (HP : Zpos P = Zpos pa * 2 ^ (53 - d)) by (subst P; apply Z2Pos.id; assumption).
  replace (Zpos pa * 2 ^ (54 - d)) with (Zpos P~0).
  2:{ rewrite Pos2Z.inj_xO, HP. replace (54 - d) with (1 + (53 - d)) by lia.
      rewrite Z.pow_add_r by lia. change (2 ^ 1) with 2. lia. }
  rewrite xorb_false_r.
  replace (d - 54) with (d - 55 + 1) by lia.
  apply binary_round_aux_even; [| lia].
  change (Zpos (digits2_pos P)) with (Zdigits2 (Zpos P)).
  apply Zdigits2_unique; [| lia]. rewrite HP.
  pose proof (pow2_pos (53 - d) ltac:(lia)) as Hp.
  assert (E1 : 2 ^ (53 - 1) = 2 ^ (d - 1) * 2 ^ (53 - d)).
  { rewrite <- Z.pow_add_r by lia. f_equal. lia. }
  assert (E2 : 2 ^ 53 = 2 ^ d * 2 ^ (53 - d)).
  { rewrite <- Z.pow_add_r by lia. f_equal. lia. }
  rewrite E1, E2. split.
  - apply Z.mul_le_mono_nonneg_r; lia.
  - apply Z.mul_lt_mono_pos_r; lia.
Qed.

Lemma int_of_float_half s pa :
  Zdigits2 (Zpos pa) <= 53 ->
  let d := Zdigits2 (Zpos pa) in
  int_of_float (S754_finite s (Z.to_pos (Zpos pa * 2 ^ (53 - d))) (d - 54))
  = Ok (cond_Zopp s (Zpos pa / 2)).
Proof.
  intros Hd d. cbn [int_of_float].
  pose proof (Zdigits2_pos (Zpos pa) ltac:(lia)) as Hd0. fold d in Hd0, Hd.
  assert (HPpos : 0 < Zpos pa * 2 ^ (53 - d)).
  { apply Z.mul_pos_pos; [lia | apply pow2_pos; lia]. }
  rewrite Z2Pos.id by assumption.
  destruct (Z.leb_spec 0 (d - 54)) as [| _]; [lia |].
  do 2 f_equal.
  replace (- (d - 54)) with (53 - d + 1) by lia.
  rewrite Z.pow_add_r by lia. change (2 ^ 1) with 2.
  rewrite (Z.mul_comm (2 ^ (53 - d)) 2).
  rewrite Z.div_mul_cancel_r; [reflexivity | lia |].
  pose proof (pow2_pos (53 - d) ltac:(lia)). lia.
Qed.

(** [int((a + b) / 2)] is the integer average truncated towards zero,
    as long as the sum fits the 53 bits of a float. *)
Lemma int_average_quot a b :
  Z.abs (a + b) < 2 ^ 53 -> int_average a b = Ok (Z.quot (a + b) 2).
Proof.
  intros Hb. unfold int_average, int_truediv.
  change (2 =? 0) with false. cbv iota.
  destruct (a + b) as [| pa | pa] eqn:E.
  - reflexivity.
  - assert (Hd : Zdigits2 (Zpos pa) <= 53) by (apply Zdigits2_le; lia).
    cbn [int_operand].
    rewrite (int_truediv_two_finite false pa Hd). cbn [is_infinity res_bind].
    rewrite (int_of_float_half false pa Hd). cbn [cond_Zopp].
    rewrite Z.quot_div_nonneg by lia. reflexivity.
  - assert (Hd : Zdigits2 (Zpos pa) <= 53) by (apply Zdigits2_le; lia).
    cbn [int_operand].
    rewrite (int_truediv_two_finite true pa Hd). cbn [is_infinity res_bind].
    rewrite (int_of_float_half true pa Hd). cbn [cond_Zopp].
    change (Zneg pa) with (- Zpos pa). rewrite Z.quot_opp_l by lia.
    rewrite Z.quot_div_nonneg by lia. reflexivity.
Qed.

(** ** Comparison *)

Lemma SFcompare_antisym x y :
  SFcompare y x = option_map CompOpp (SFcompare x y).
Proof.
  destruct x as [sx | sx | | sx mx ex], y as [sy | sy | | sy my ey];
    cbn [SFcompare option_map]; try reflexivity;
    try (destruct sx; reflexivity); try (destruct sy; reflexivity);
    try (destruct sx, sy; reflexivity).
  destruct sx, sy; try reflexivity;
    rewrite (Z.compare_antisym ex ey); destruct (ex ?= ey); cbn [CompOpp];
    try reflexivity.
  all: rewrite (Pos.compare_cont_antisym mx my Eq); reflexivity.
Qed.

(** [x <= y] excludes [x > y]. *)
Lemma float_le_not_gt x y : float_le x y = true -> float_gt x y = false.
Proof.
  unfold float_le, float_gt, SFleb, SFltb. rewrite (SFcompare_antisym x y).
  destruct (SFcompare x y) as [[] |]; cbn; congruence.
Qed.

(** ** Division by zero *)

Lemma int_truediv_by_zero a : int_truediv a 0 = Raise ZeroDivisionError.
Proof. reflexivity. Qed.

Lemma float_truediv_defined x y :
  is_zero y = false -> float_truediv x y = Ok (SFdiv prec emax x y).
Proof. intros Hy. unfold float_truediv. rewrite Hy. reflexivity. Qed.

Lemma float_truediv_by_zero x y :
  is_zero y = true -> float_truediv x y = Raise ZeroDivisionError.
Proof. intros Hy. unfold float_truediv. rewrite Hy. reflexivity. Qed.

End Binary64.

(** * The geometry extractor *)

Section Landmarks.

Import Py Binary64.

Lemma landmark_setb_true p : landmark_setb p = true -> LandmarkSet p.
Proof.
  unfold landmark_setb, LandmarkSet. intros Hb.
  apply andb_prop in Hb as [Hlen Hall].
  split; [apply Nat.eqb_eq; assumption |].
  apply List.Forall_forall. intros q Hq.
  rewrite forallb_forall in Hall. specialize (Hall q Hq).
  apply andb_prop in Hall as [Hx Hy].
  apply Z.ltb_lt in Hx, Hy. split; assumption.
Qed.

(** Every literal index of the module is in range on a LandmarkSet. *)
Lemma index_landmark p i :
  LandmarkSet p -> (i < 68)%nat ->
  index p i = Ok (landmark p i) /\
  pixel (px (landmark p i)) /\ pixel (py (landmark p i)).
Proof.
  intros [Hlen Hall] Hi. unfold index, landmark.
  destruct (nth_error p i) as [q |] eqn:E.
  - rewrite (nth_error_nth p i (0, 0) E). split; [reflexivity |].
    rewrite List.Forall_forall in Hall. apply Hall.
    eapply nth_error_In; eassumption.
  - apply nth_error_None in E. lia.
Qed.

Lemma pixel_sum a b : pixel a -> pixel b -> Z.abs (a + b) < 2 ^ 53.
Proof. unfold pixel. change (2 ^ 53) with (2 * 2 ^ 52). lia. Qed.

Lemma pixel_diff a b : pixel a -> pixel b -> Z.abs (a - b) < 2 ^ 53.
Proof. unfold pixel. change (2 ^ 53) with (2 * 2 ^ 52). lia. Qed.

Lemma top_points_valid p top :
  LandmarkSet p -> top = "eyebrow" \/ top = "eyelid" ->
  top_points p top
  = Ok (landmark p (fst (top_indices top)), landmark p (snd (top_indices top))).
Proof.
  intros Hp [-> | ->]; unfold top_points, top_indices; cbn [String.eqb Ascii.eqb Bool.eqb fst snd].
  - destruct (index_landmark p 18 Hp ltac:(lia)) as (-> & _).
    destruct (index_landmark p 25 Hp ltac:(lia)) as (-> & _). reflexivity.
  - destruct (index_landmark p 37 Hp ltac:(lia)) as (-> & _).
    destruct (index_landmark p 43 Hp ltac:(lia)) as (-> & _). reflexivity.
Qed.

Lemma top_indices_range top :
  (fst (top_indices top) < 68)%nat /\ (snd (top_indices top) < 68)%nat.
Proof. unfold top_indices. destruct (String.eqb top "eyebrow"); cbn; lia. Qed.

(** The box of a LandmarkSet, in closed form. *)
Lemma get_face_points_box p method top :
  LandmarkSet p -> top = "eyebrow" \/ top = "eyelid" ->
  let tl := landmark p (fst (top_indices top)) in
  let tr := landmark p (snd (top_indices top)) in
  let top_y := combine method (py tl) (py tr) - top_shift top in
  let bottom_y := combine method (py (landmark p 50)) (py (landmark p 52)) in
  get_face_points p method top
  = Ok {| top_left := (px (landmark p 0), top_y);
          bottom_left := (px (landmark p 0), bottom_y);
          top_right := (px (landmark p 16), top_y);
          bottom_right := (px (landmark p 16), bottom_y) |}.
Proof.
  intros Hp Htop tl tr top_y bottom_y. unfold get_face_points.
  destruct (index_landmark p 0 Hp ltac:(lia)) as (-> & _).
  destruct (index_landmark p 16 Hp ltac:(lia)) as (-> & _).
  rewrite (top_points_valid p top Hp Htop).
  destruct (index_landmark p 50 Hp ltac:(lia)) as (-> & _ & H50).
  destruct (index_landmark p 52 Hp ltac:(lia)) as (-> & _ & H52).
  destruct (top_indices_range top) as [Hi Hj].
  destruct (index_landmark p _ Hp Hi) as (_ & _ & Htl).
  destruct (index_landmark p _ Hp Hj) as (_ & _ & Htr).
  cbn [res_bind]. fold tl tr in Htl, Htr |- *.
  subst top_y bottom_y. unfold combine, top_shift.
  destruct (String.eqb method "left"); [| destruct (String.eqb method "right")].
  - cbn [res_bind]. destruct (String.eqb top "eyelid"); do 2 f_equal; f_equal; lia.
  - cbn [res_bind]. destruct (String.eqb top "eyelid"); do 2 f_equal; f_equal; lia.
  - rewrite (int_average_quot (py tl) (py tr)) by (apply pixel_sum; assumption).
    rewrite (int_average_quot (py (landmark p 50)) (py (landmark p 52)))
      by (apply pixel_sum; assumption).
    cbn [res_bind]. destruct (String.eqb top "eyelid"); do 2 f_equal; f_equal; lia.
Qed.

End Landmarks.

Section GeometryClaims.

Import Py Binary64.

Lemma frontal_face_landmarks : LandmarkSet frontal_face.
Proof. apply landmark_setb_true. vm_compute. reflexivity. Qed.

(** C3, as stated, fails: with [top='eyelid'] the top of the box is not
    the truncating average of the two top points (method average) nor the
    left point's value (method left), but 4 less. *)
Lemma C3_top_is_not_the_plain_average :
  LandmarkSet frontal_face /\
  (exists box,
      get_face_points frontal_face "average" "eyelid" = Ok box /\
      py (top_left box)
      <> Z.quot (py (landmark frontal_face 37) + py (landmark frontal_face 43)) 2) /\
  (exists box,
      get_face_points frontal_face "left" "eyelid" = Ok box /\
      py (top_left box) <> py (landmark frontal_face 37)).
Proof.
  split; [exact frontal_face_landmarks |].
  split; eexists; (split; [vm_compute; reflexivity | vm_compute; discriminate]).
Qed.

(** C3, amended: on every LandmarkSet and for each valid [top], method
    average puts the top of the box at the truncating integer average of
    the y of the two top points, less the shift of [top] (4 for eyelid,
    0 for eyebrow), and the bottom at the truncating integer average of
    the y of points 50 and 52; method left puts them at the y of the left
    top point less the shift and the y of point 50; method right at the
    y of the right top point less the shift and the y of point 52. *)
Theorem C3_method_selects_top_and_bottom (p : list point) (top : string) :
  LandmarkSet p -> top = "eyebrow" \/ top = "eyelid" ->
  let tl := landmark p (fst (top_indices top)) in
  let tr := landmark p (snd (top_indices top)) in
  (exists box,
      get_face_points p "average" top = Ok box /\
      py (top_left box) = Z.quot (py tl + py tr) 2 - top_shift top /\
      py (top_right box) = Z.quot (py tl + py tr) 2 - top_shift top /\
      py (bottom_left box) = Z.quot (py (landmark p 50) + py (landmark p 52)) 2 /\
      py (bottom_right box) = Z.quot (py (landmark p 50) + py (landmark p 52)) 2) /\
  (exists box,
      get_face_points p "left" top = Ok box /\
      py (top_left box) = py tl - top_shift top /\
      py (top_right box) = py tl - top_shift top /\
      py (bottom_left box) = py (landmark p 50) /\
      py (bottom_right box) = py (landmark p 50)) /\
  (exists box,
      get_face_points p "right" top = Ok box /\
      py (top_left box) = py tr - top_shift top /\
      py (top_right box) = py tr - top_shift top /\
      py (bottom_left box) = py (landmark p 52) /\
      py (bottom_right box) = py (landmark p 52)).
Proof.
  intros Hp Htop tl tr.
  repeat split; eexists;
    (split; [apply (get_face_points_box p _ top Hp Htop) | repeat split]).
Qed.

Lemma C3_method_selects_top_and_bottom_witness :
  LandmarkSet frontal_face /\
  exists box,
    get_face_points frontal_face "average" "eyelid" = Ok box /\
    py (top_left box) = 39 /\ py (bottom_left box) = 86.
Proof.
  split; [apply landmark_setb_true; vm_compute; reflexivity |].
  destruct (C3_method_selects_top_and_bottom frontal_face "eyelid")
    as [(box & Hbox & Htl & _ & Hbl & _) _].
  - apply landmark_setb_true. vm_compute. reflexivity.
  - right. reflexivity.
  - exists box. split; [exact Hbox |]. split; [exact Htl | exact Hbl].
Defined.

(** C4: on every LandmarkSet and for every method, [top='eyelid'] gives
    a top y exactly 4 less than the method's value of the y of points
    37 and 43, and [top='eyebrow'] gives the method's value of the y of
    points 18 and 25 unshifted. *)
Theorem C4_eyelid_shifts_by_four (p : list point) (method : string) :
  LandmarkSet p ->
  exists lid brow,
    get_face_points p method "eyelid" = Ok lid /\
    get_face_points p method "eyebrow" = Ok brow /\
    py (top_left lid) = combine method (py (landmark p 37)) (py (landmark p 43)) - 4 /\
    py (top_right lid) = combine method (py (landmark p 37)) (py (landmark p 43)) - 4 /\
    py (top_left brow) = combine method (py (landmark p 18)) (py (landmark p 25)) /\
    py (top_right brow) = combine method (py (landmark p 18)) (py (landmark p 25)).
Proof.
  intros Hp.
  pose proof (get_face_points_box p method "eyelid" Hp ltac:(right; reflexivity)) as Hlid.
  pose proof (get_face_points_box p method "eyebrow" Hp ltac:(left; reflexivity)) as Hbrow.
  cbv zeta in Hlid, Hbrow.
  eexists. eexists. split; [exact Hlid |]. split; [exact Hbrow |].
  cbn [top_left top_right py snd]. unfold top_shift, top_indices.
  cbn [String.eqb Ascii.eqb Bool.eqb fst snd]. repeat split; lia.
Qed.

Lemma C4_eyelid_shifts_by_four_witness :
  LandmarkSet frontal_face /\
  exists lid brow,
    get_face_points frontal_face "right" "eyelid" = Ok lid /\
    get_face_points frontal_face "right" "eyebrow" = Ok brow /\
    py (top_left lid) = 44 - 4 /\ py (top_left brow) = 32.
Proof.
  split; [apply landmark_setb_true; vm_compute; reflexivity |].
  destruct (C4_eyelid_shifts_by_four frontal_face "right")
    as (lid & brow & Hlid & Hbrow & Htl & _ & Hbl & _).
  - apply landmark_setb_true. vm_compute. reflexivity.
  - exists lid, brow. repeat split; assumption.
Defined.

(** C5: on every LandmarkSet, for every method and each valid [top], the
    left corners of the box have the x of point 0 and the right corners
    the x of point 16, whatever the other landmarks are. *)
Theorem C5_width_from_face_edges (p : list point) (method top : string) :
  LandmarkSet p -> top = "eyebrow" \/ top = "eyelid" ->
  exists box,
    get_face_points p method top = Ok box /\
    px (top_left box) = px (landmark p 0) /\
    px (bottom_left box) = px (landmark p 0) /\
    px (top_right box) = px (landmark p 16) /\
    px (bottom_right box) = px (landmark p 16).
Proof.
  intros Hp Htop. eexists.
  split; [apply (get_face_points_box p method top Hp Htop) | repeat split].
Qed.

Lemma C5_width_from_face_edges_witness :
  LandmarkSet frontal_face /\
  exists box,
    get_face_points frontal_face "average" "eyebrow" = Ok box /\
    px (top_left box) = 0 /\ px (bottom_left box) = 0 /\
    px (top_right box) = 100 /\ px (bottom_right box) = 100.
Proof.
  split; [apply landmark_setb_true; vm_compute; reflexivity |].
  apply (C5_width_from_face_edges frontal_face "average" "eyebrow").
  - apply landmark_setb_true. vm_compute. reflexivity.
  - left. reflexivity.
Defined.

Lemma method_fallback p method top :
  method <> "left" -> method <> "right" ->
  get_face_points p method top = get_face_points p "average" top.
Proof.
  intros Hl Hr. unfold get_face_points.
  destruct (String.eqb_spec method "left") as [| _]; [contradiction |].
  destruct (String.eqb_spec method "right") as [| _]; [contradiction |].
  reflexivity.
Qed.

(** C6: on every LandmarkSet, a [top] other than ['eyebrow'] and
    ['eyelid'] raises [ValueError], whereas a [method] other than
    ['left'] and ['right'] raises nothing and gives the box of
    ['average']. *)
Theorem C6_top_is_checked_method_is_not (p : list point) (method top : string) :
  LandmarkSet p ->
  (top <> "eyebrow" -> top <> "eyelid" ->
   get_face_points p method top = Raise ValueError) /\
  (method <> "left" -> method <> "right" ->
   get_face_points p method top = get_face_points p "average" top /\
   (top = "eyebrow" \/ top = "eyelid" ->
    exists box, get_face_points p method top = Ok box)).
Proof.
  intros Hp. split.
  - intros Hb Hl. unfold get_face_points, top_points.
    destruct (index_landmark p 0 Hp ltac:(lia)) as (-> & _).
    destruct (index_landmark p 16 Hp ltac:(lia)) as (-> & _).
    destruct (String.eqb_spec top "eyebrow") as [| _]; [contradiction |].
    destruct (String.eqb_spec top "eyelid") as [| _]; [contradiction |].
    reflexivity.
  - intros Hl Hr. split; [apply method_fallback; assumption |].
    intros Htop. eexists. apply (get_face_points_box p method top Hp Htop).
Qed.

Lemma C6_top_is_checked_method_is_not_witness :
  LandmarkSet frontal_face /\
  get_face_points frontal_face "average" "chin" = Raise ValueError /\
  get_face_points frontal_face "median" "eyelid"
  = get_face_points frontal_face "average" "eyelid" /\
  exists box, get_face_points frontal_face "median" "eyelid" = Ok box.
Proof.
  split; [apply landmark_setb_true; vm_compute; reflexivity |].
  destruct (C6_top_is_checked_method_is_not frontal_face "average" "chin")
    as [Hraise _]; [apply landmark_setb_true; vm_compute; reflexivity |].
  destruct (C6_top_is_checked_method_is_not frontal_face "median" "eyelid")
    as [_ Hfall]; [apply landmark_setb_true; vm_compute; reflexivity |].
  split; [apply Hraise; discriminate |].
  destruct Hfall as [Heq Hok]; [discriminate | discriminate |].
  split; [exact Heq | apply Hok; right; reflexivity].
Defined.

End GeometryClaims.

(** * The quality gate and the ratio *)

Section GateClaims.

Import Py Binary64.

Ltac step_res :=
  match goal with
  | H : res_bind ?r _ = Ok _ |- _ =>
      let E := fresh "E" in
      destruct r eqn:E; cbn [res_bind] in *; [| discriminate H]
  end.

(** The source computes the three heuristics one after the other; the
    result is that of computing each on its own. *)
Lemma picture_measures_heuristics p e n s :
  eye_height_difference p = Ok e -> nose_tilt p = Ok n -> space_ratio p = Ok s ->
  picture_measures p = Ok (e, n, s).
Proof.
  unfold eye_height_difference, nose_tilt, space_ratio, face_width_scale,
    average_y, picture_measures.
  intros He Hn Hs. repeat step_res.
  repeat match goal with
         | H : ?r = Ok _ |- context [res_bind ?r _] => rewrite H; cbn [res_bind]
         end.
  reflexivity.
Qed.

Lemma picture_measures_defined p e n s :
  picture_measures p = Ok (e, n, s) ->
  eye_height_difference p = Ok e /\ nose_tilt p = Ok n /\ space_ratio p = Ok s.
Proof.
  unfold eye_height_difference, nose_tilt, space_ratio, face_width_scale,
    average_y, picture_measures.
  intros H. repeat step_res. injection H as -> -> ->. repeat split; reflexivity.
Qed.

(** The gate returns exactly when the three heuristics are defined. *)
Lemma good_picture_check_returns p debug :
  (exists b, good_picture_check p debug = Ok b) <->
  (exists e n s,
      eye_height_difference p = Ok e /\ nose_tilt p = Ok n /\ space_ratio p = Ok s).
Proof.
  unfold good_picture_check. split.
  - intros [b Hb].
    destruct (picture_measures p) as [[[e n] s] |] eqn:E; [| discriminate Hb].
    exists e, n, s. apply picture_measures_defined. exact E.
  - intros (e & n & s & He & Hn & Hs).
    rewrite (picture_measures_heuristics p e n s He Hn Hs). cbn [res_bind].
    destruct (float_gt e lit_5 || float_gt n lit_3_5 || float_gt s lit_3); eauto.
Qed.

(** C1: whenever the three heuristics are defined, [good_picture_check]
    returns [False] exactly when the eye-height difference is above 5,
    or the nose tilt above 3.5, or the space ratio above 3, and [True]
    when all three are at or below their thresholds. *)
Theorem C1_gate_rejects_above_thresholds
  (p : list point) (debug : bool) (e n s : float) :
  eye_height_difference p = Ok e -> nose_tilt p = Ok n -> space_ratio p = Ok s ->
  (good_picture_check p debug = Ok false <->
   float_gt e lit_5 = true \/ float_gt n lit_3_5 = true \/ float_gt s lit_3 = true) /\
  (good_picture_check p debug = Ok true <->
   float_gt e lit_5 = false /\ float_gt n lit_3_5 = false /\ float_gt s lit_3 = false) /\
  (float_le e lit_5 = true -> float_le n lit_3_5 = true -> float_le s lit_3 = true ->
   good_picture_check p debug = Ok true).
Proof.
  intros He Hn Hs. unfold good_picture_check.
  rewrite (picture_measures_heuristics p e n s He Hn Hs). cbn [res_bind].
  split; [| split].
  - destruct (float_gt e lit_5), (float_gt n lit_3_5), (float_gt s lit_3);
      cbn [orb]; split; intros H; try discriminate H; try reflexivity; auto;
      destruct H as [H | [H | H]]; discriminate H.
  - destruct (float_gt e lit_5), (float_gt n lit_3_5), (float_gt s lit_3);
      cbn [orb]; split; intros H; try discriminate H; try reflexivity; auto;
      destruct H as (H1 & H2 & H3); discriminate.
  - intros Le Ln Ls.
    rewrite (float_le_not_gt _ _ Le), (float_le_not_gt _ _ Ln), (float_le_not_gt _ _ Ls).
    reflexivity.
Qed.

Lemma C1_gate_rejects_above_thresholds_witness :
  eye_height_difference threshold_face = Ok lit_5 /\
  nose_tilt threshold_face = Ok lit_3_5 /\
  space_ratio threshold_face = Ok lit_3 /\
  good_picture_check threshold_face false = Ok true.
Proof.
  assert (He : eye_height_difference threshold_face = Ok lit_5)
    by (vm_compute; reflexivity).
  assert (Hn : nose_tilt threshold_face = Ok lit_3_5) by (vm_compute; reflexivity).
  assert (Hs : space_ratio threshold_face = Ok lit_3) by (vm_compute; reflexivity).
  split; [exact He |]. split; [exact Hn |]. split; [exact Hs |].
  apply (C1_gate_rejects_above_thresholds threshold_face false _ _ _ He Hn Hs);
    vm_compute; reflexivity.
Defined.

(** C2: for every box, [FWHR_calc] returns a value exactly when the
    height is not zero and the width and the height convert to floats,
    and the value is then the quotient of the two floats, whatever the
    sign of the height; a zero height raises [ZeroDivisionError]; the
    conversions succeed below [2 ^ 1023]; width 50 over height 25 is
    exactly [2.0], and over height -25 exactly [-2.0]. *)
Theorem C2_ratio_is_width_over_height (corners : BoxCorners) :
  let width := px (top_right corners) - px (top_left corners) in
  let height := py (bottom_left corners) - py (top_left corners) in
  (forall ratio,
      FWHR_calc corners = Ok ratio <->
      height <> 0 /\
      exists w h,
        float_of_int width = Ok w /\ float_of_int height = Ok h /\
        ratio = SFdiv prec emax w h) /\
  (Z.abs width < 2 ^ 1023 -> height = 0 ->
   FWHR_calc corners = Raise ZeroDivisionError) /\
  (Z.abs width < 2 ^ 1023 -> Z.abs height < 2 ^ 1023 -> height <> 0 ->
   exists ratio, FWHR_calc corners = Ok ratio) /\
  (width = 50 -> height = 25 -> FWHR_calc corners = Ok lit_2_0) /\
  (width = 50 -> height = -25 -> FWHR_calc corners = Ok (SFopp lit_2_0)).
Proof.
  intros width height. unfold FWHR_calc. fold width height.
  split; [| split; [| split; [| split]]].
  - intros ratio. split.
    + intros Hr.
      destruct (float_of_int width) as [w |] eqn:Ew; [| discriminate Hr].
      destruct (float_of_int height) as [h |] eqn:Eh; [| discriminate Hr].
      cbn [res_bind] in Hr. unfold float_truediv in Hr.
      destruct (is_zero h) eqn:Ez; [discriminate Hr |].
      injection Hr as <-. split.
      * intros Hzero. apply (float_of_int_zero_iff height h Eh) in Hzero.
        congruence.
      * exists w, h. repeat split; reflexivity.
    + intros (Hne & w & h & -> & Eh & ->). cbn [res_bind]. rewrite Eh.
      cbn [res_bind]. apply float_truediv_defined.
      destruct (is_zero h) eqn:Ez; [| reflexivity].
      apply (float_of_int_zero_iff height h Eh) in Ez. contradiction.
  - intros Hw ->. destruct (float_of_int_ok width Hw) as [w ->]. reflexivity.
  - intros Hw Hh Hne. destruct (float_of_int_ok width Hw) as [w ->].
    destruct (float_of_int_finite height Hne Hh) as (m & e & ->).
    eexists. reflexivity.
  - intros -> ->. reflexivity.
  - intros -> ->. reflexivity.
Qed.

Lemma C2_ratio_is_width_over_height_witness :
  px (top_right sample_box) - px (top_left sample_box) = 50 /\
  py (bottom_left sample_box) - py (top_left sample_box) = 25 /\
  FWHR_calc sample_box = Ok lit_2_0.
Proof.
  destruct (C2_ratio_is_width_over_height sample_box) as (_ & _ & _ & Hexact & _).
  split; [reflexivity |]. split; [reflexivity |].
  apply Hexact; reflexivity.
Defined.

End GateClaims.

Section DivisionClaims.

Import Py Binary64.

Lemma bits_53_1000 z : Z.abs z < 2 ^ 53 -> Z.abs z < 2 ^ 1000.
Proof.
  intros Hz. assert (2 ^ 53 < 2 ^ 1000) by (apply Z.pow_lt_mono_r; lia). lia.
Qed.

Lemma bits_53_1023 z : Z.abs z < 2 ^ 53 -> Z.abs z < 2 ^ 1023.
Proof.
  intros Hz. assert (2 ^ 53 < 2 ^ 1023) by (apply Z.pow_lt_mono_r; lia). lia.
Qed.

(** A quotient of two small ints with a non-zero divisor is defined,
    and it is the float zero exactly when the dividend is zero. *)
Lemma int_truediv_defined a b :
  b <> 0 -> Z.abs a < 2 ^ 53 -> Z.abs b < 2 ^ 53 ->
  exists x, int_truediv a b = Ok x /\ (is_zero x = true <-> a = 0).
Proof.
  intros Hb Ha Hbb. destruct (Z.eq_dec a 0) as [-> | Hne].
  - exists (S754_zero (b <? 0)). unfold int_truediv.
    destruct (Z.eqb_spec b 0) as [| _]; [contradiction |].
    split; [reflexivity |]. split; reflexivity.
  - destruct (int_truediv_finite a b Hne Hb (bits_53_1000 a Ha) (bits_53_1000 b Hbb))
      as (m & e & E).
    eexists. split; [exact E |]. cbn [is_zero]. split; [discriminate | contradiction].
Qed.

Lemma int_float_truediv_defined a y :
  Z.abs a < 2 ^ 53 -> is_zero y = false -> exists x, int_float_truediv a y = Ok x.
Proof.
  intros Ha Hy. unfold int_float_truediv, float_truediv.
  destruct (float_of_int_ok a (bits_53_1023 a Ha)) as [x ->].
  cbn [res_bind]. rewrite Hy. eauto.
Qed.

Lemma int_float_truediv_by_zero a y :
  Z.abs a < 2 ^ 53 -> is_zero y = true ->
  int_float_truediv a y = Raise ZeroDivisionError.
Proof.
  intros Ha Hy. unfold int_float_truediv, float_truediv.
  destruct (float_of_int_ok a (bits_53_1023 a Ha)) as [x ->].
  cbn [res_bind]. rewrite Hy. reflexivity.
Qed.

(** C10: on every LandmarkSet, a face of zero width (the x of points 16
    and 0 equal) or of zero right space (the x of points 16 and 45
    equal) makes [good_picture_check] raise [ZeroDivisionError], and
    when neither is zero every division is defined and the gate
    returns. *)
Theorem C10_gate_divisions (p : list point) (debug : bool) :
  LandmarkSet p ->
  let x0 := px (landmark p 0) in
  let x16 := px (landmark p 16) in
  let x45 := px (landmark p 45) in
  (x16 = x0 -> good_picture_check p debug = Raise ZeroDivisionError) /\
  (x16 = x45 -> good_picture_check p debug = Raise ZeroDivisionError) /\
  (x16 <> x0 -> x16 <> x45 -> exists b, good_picture_check p debug = Ok b).
Proof.
  intros Hp x0 x16 x45.
  unfold good_picture_check, picture_measures.
  destruct (index_landmark p 0 Hp ltac:(lia)) as (-> & Hx0 & _).
  destruct (index_landmark p 16 Hp ltac:(lia)) as (-> & Hx16 & _).
  destruct (index_landmark p 37 Hp ltac:(lia)) as (-> & _ & Hy37).
  destruct (index_landmark p 41 Hp ltac:(lia)) as (-> & _ & Hy41).
  destruct (index_landmark p 44 Hp ltac:(lia)) as (-> & _ & Hy44).
  destruct (index_landmark p 46 Hp ltac:(lia)) as (-> & _ & Hy46).
  destruct (index_landmark p 30 Hp ltac:(lia)) as (-> & Hx30 & _).
  destruct (index_landmark p 27 Hp ltac:(lia)) as (-> & Hx27 & _).
  destruct (index_landmark p 36 Hp ltac:(lia)) as (-> & Hx36 & _).
  destruct (index_landmark p 45 Hp ltac:(lia)) as (-> & Hx45 & _).
  cbn [res_bind]. fold x0 x16 x45 in Hx0, Hx16, Hx45 |- *.
  destruct (int_truediv_defined (x16 - x0) 100 ltac:(lia)
              (pixel_diff _ _ Hx16 Hx0) ltac:(cbn; lia))
    as (width_im & -> & Hwidth).
  destruct (int_float_truediv_defined _ lit_2_0 (pixel_sum _ _ Hy37 Hy41) eq_refl)
    as (eye_y_l & ->).
  destruct (int_float_truediv_defined _ lit_2_0 (pixel_sum _ _ Hy44 Hy46) eq_refl)
    as (eye_y_r & ->).
  cbn [res_bind].
  assert (Hzero : x16 = x0 ->
            res_bind (float_truediv (float_sub eye_y_r eye_y_l) width_im)
              (fun eye_dif =>
                 let* nose_dif := int_float_truediv (px (landmark p 30) - px (landmark p 27)) width_im in
                 let* space_ratio := int_truediv (px (landmark p 36) - x0) (x16 - x45) in
                 Ok (eye_dif, nose_dif, space_ratio))
            = Raise ZeroDivisionError).
  { intros Heq. rewrite float_truediv_by_zero by (apply Hwidth; lia).
    reflexivity. }
  destruct (Z.eq_dec x16 x0) as [Heq | Hne].
  - rewrite (Hzero Heq). cbn [res_bind].
    split; [reflexivity |]. split; [reflexivity | contradiction].
  - clear Hzero.
    assert (Hnz : is_zero width_im = false).
    { destruct (is_zero width_im); [| reflexivity].
      assert (x16 - x0 = 0) by (apply Hwidth; reflexivity). lia. }
    rewrite (float_truediv_defined _ width_im Hnz). cbn [res_bind].
    destruct (int_float_truediv_defined _ width_im (pixel_diff _ _ Hx30 Hx27) Hnz)
      as (nose_dif & ->).
    cbn [res_bind].
    split; [contradiction |].
    destruct (Z.eq_dec x16 x45) as [Heq' | Hne'].
    + replace (x16 - x45) with 0 by lia. rewrite int_truediv_by_zero.
      cbn [res_bind]. split; [reflexivity | contradiction].
    + split; [contradiction |]. intros _ _.
      destruct (int_truediv_defined (px (landmark p 36) - x0) (x16 - x45)
                  ltac:(lia) (pixel_diff _ _ Hx36 Hx0) (pixel_diff _ _ Hx16 Hx45))
        as (ratio & -> & _).
      cbn [res_bind].
      destruct (float_gt _ lit_5 || float_gt nose_dif lit_3_5 || float_gt ratio lit_3);
        eauto.
Qed.

Lemma C10_gate_divisions_witness :
  (LandmarkSet flat_face /\ good_picture_check flat_face false = Raise ZeroDivisionError) /\
  (LandmarkSet profile_face /\ good_picture_check profile_face false = Raise ZeroDivisionError) /\
  (LandmarkSet frontal_face /\ exists b, good_picture_check frontal_face false = Ok b).
Proof.
  assert (Hflat : LandmarkSet flat_face) by (apply landmark_setb_true; vm_compute; reflexivity).
  assert (Hprofile : LandmarkSet profile_face) by (apply landmark_setb_true; vm_compute; reflexivity).
  assert (Hfrontal : LandmarkSet frontal_face) by (apply landmark_setb_true; vm_compute; reflexivity).
  split; [| split]; (split; [assumption |]).
  - destruct (C10_gate_divisions flat_face false Hflat) as (Hwidth & _ & _).
    apply Hwidth. vm_compute. reflexivity.
  - destruct (C10_gate_divisions profile_face false Hprofile) as (_ & Hspace & _).
    apply Hspace. vm_compute. reflexivity.
  - destruct (C10_gate_divisions frontal_face false Hfrontal) as (_ & _ & Hdefined).
    apply Hdefined; vm_compute; discriminate.
Defined.

End DivisionClaims.

(** * Loading and the batch *)

Section Strings.

Lemma substring_all n s :
  (String.length s <= n)%nat -> substring 0 n s = s.
Proof.
  revert n. induction s as [| c s IH]; intros n Hn.
  - destruct n; reflexivity.
  - destruct n as [| n]; cbn in Hn; [lia |].
    cbn. rewrite IH by lia. reflexivity.
Qed.

Lemma substring_split k n s :
  (String.length s <= k + n)%nat ->
  s = (substring 0 k s ++ substring k n s)%string.
Proof.
  revert s. induction k as [| k IH]; intros s Hs.
  - cbn in Hs. rewrite (substring_all n s Hs).
    destruct s; reflexivity.
  - destruct s as [| c s]; [reflexivity |].
    cbn in Hs. cbn [substring].
    change (String c s = String c (substring 0 k s ++ substring k n s)%string).
    f_equal. apply IH. lia.
Qed.

Lemma substring_skip pre suf n :
  substring (String.length pre) n (pre ++ suf)%string = substring 0 n suf.
Proof. induction pre as [| c pre IH]; [reflexivity | exact IH]. Qed.

Lemma length_append pre suf :
  String.length (pre ++ suf)%string = (String.length pre + String.length suf)%nat.
Proof.
  induction pre as [| c pre IH]; [reflexivity |].
  change (S (String.length (pre ++ suf)%string)
          = S (String.length pre + String.length suf)).
  rewrite IH. reflexivity.
Qed.

(** [s[-n:] == suffix], for a suffix of [n] characters, says that [s]
    ends with it. *)
Lemma last_chars_suffix s suffix :
  last_chars (String.length suffix) s = suffix <->
  exists pre, s = (pre ++ suffix)%string.
Proof.
  unfold last_chars. split.
  - intros H. exists (substring 0 (String.length s - String.length suffix) s).
    pose proof (substring_split (String.length s - String.length suffix)
                  (String.length suffix) s ltac:(lia)) as Hsplit.
    rewrite H in Hsplit. exact Hsplit.
  - intros [pre ->]. rewrite length_append.
    replace (String.length pre + String.length suffix - String.length suffix)%nat
      with (String.length pre) by lia.
    rewrite substring_skip. apply substring_all. lia.
Qed.

Lemma last_chars_eqb s suffix :
  String.eqb (last_chars (String.length suffix) s) suffix = true <->
  exists pre, s = (pre ++ suffix)%string.
Proof. rewrite String.eqb_eq. apply last_chars_suffix. Qed.

End Strings.

Section BatchClaims.

Context `{External}.

(** C9: with [url=True], [load_image] accepts exactly the paths that
    end in [jpg] or [png]: such a path is fetched to the file [tmp.jpg]
    and the image is decoded from that file, and when the fetch fails
    the load raises what the fetch raises and touches nothing; any other
    path raises [ValueError] and touches nothing, whether or not the web
    serves it. *)
Theorem C9_url_needs_image_suffix (path : string) (w : world) :
  let accepted :=
    (exists pre, path = (pre ++ "jpg")%string) \/
    (exists pre, path = (pre ++ "png")%string) in
  (accepted ->
   match web w !! path with
   | Some f =>
       load_image path true w
       = (match f with
          | ImageFile i => Ok i
          | _ => Raise (open_error "tmp.jpg" true)
          end,
          write_file "tmp.jpg" f w)
   | None => load_image path true w = (Raise (fetch_error path), w)
   end) /\
  (~ accepted -> load_image path true w = (Raise ValueError, w)).
Proof.
  intros accepted. unfold load_image. cbn [negb].
  pose proof (last_chars_eqb path "jpg") as Hjpg.
  pose proof (last_chars_eqb path "png") as Hpng.
  change (String.length "jpg") with 3%nat in Hjpg.
  change (String.length "png") with 3%nat in Hpng.
  assert (Hfetch :
    match web w !! path with
    | Some f =>
        io_bind (urlretrieve path "tmp.jpg") (fun _ => load_image_file "tmp.jpg") w
        = (match f with
           | ImageFile i => Ok i
           | _ => Raise (open_error "tmp.jpg" true)
           end,
           write_file "tmp.jpg" f w)
    | None =>
        io_bind (urlretrieve path "tmp.jpg") (fun _ => load_image_file "tmp.jpg") w
        = (Raise (fetch_error path), w)
    end).
  { unfold io_bind, urlretrieve, load_image_file.
    destruct (web w !! path) as [f |]; [| reflexivity].
    unfold write_file at 1. cbn [disk]. rewrite lookup_insert_eq.
    destruct f; reflexivity. }
  destruct (String.eqb (last_chars 3 path) "jpg") eqn:Ej;
    [| destruct (String.eqb (last_chars 3 path) "png") eqn:Ep]; cbn [orb].
  - split.
    + intros _. exact Hfetch.
    + intros Hno. exfalso. apply Hno. left. apply Hjpg. reflexivity.
  - split.
    + intros _. exact Hfetch.
    + intros Hno. exfalso. apply Hno. right. apply Hpng. reflexivity.
  - split.
    + intros [Hacc | Hacc].
      * apply Hjpg in Hacc. discriminate Hacc.
      * apply Hpng in Hacc. discriminate Hacc.
    + intros _. reflexivity.
Qed.

(** Reading leaves the world as it is. *)
Lemma load_image_file_world path w : snd (load_image_file path w) = w.
Proof.
  unfold load_image_file. destruct (disk w !! path) as [[] |]; reflexivity.
Qed.

Lemma get_fwhr_local_world path show method top w :
  snd (get_fwhr path false show method top w) = w.
Proof.
  unfold get_fwhr, load_image, io_bind, io_lift, io_ret. cbn [negb].
  pose proof (load_image_file_world path w) as Hw.
  destruct (load_image_file path w) as [[img | e] w']; cbn [snd] in Hw; subst w';
    [| reflexivity].
  destruct (first_face (raw_face_landmarks img)) as [face | e]; [| reflexivity].
  destruct (good_picture_check face false) as [[] | e]; [| | reflexivity].
  - destruct (get_face_points face method top) as [corners | e]; [| reflexivity].
    destruct (FWHR_calc corners) as [ratio | e]; [| reflexivity].
    destruct show; reflexivity.
  - destruct show; reflexivity.
Qed.

Lemma bulk_loop_world folder files : forall image_data w,
  snd (bulk_loop folder files image_data w) = w.
Proof.
  induction files as [| filename files IH]; intros image_data w; cbn [bulk_loop].
  - reflexivity.
  - destruct (is_image_name filename); [| apply IH].
    unfold io_bind.
    pose proof (get_fwhr_local_world (folder ++ filename) false "average" "eyelid" w) as Hw.
    destruct (get_fwhr (folder ++ filename) false false "average" "eyelid" w)
      as [[ratio | e] w']; cbn [snd] in Hw; subst w'; [apply IH | reflexivity].
Qed.

Lemma collect_image_data_world folder w :
  snd (collect_image_data folder w) = w.
Proof.
  unfold collect_image_data, io_bind, listdir.
  destruct (dirs w !! folder) as [files |]; [apply bulk_loop_world | reflexivity].
Qed.

(** C7, amended: for every [sort_by] other than ['filename'] and
    ['ratio'], [get_fwhr_bulk] raises and writes no file; what it raises
    is [ValueError] whenever listing the folder and processing its
    images raised nothing, the value of [sort_by] being looked at only
    after that. *)
Theorem C7_invalid_sort_by_writes_nothing (folder_path sort_by : string) (w : world) :
  sort_by <> "filename" -> sort_by <> "ratio" ->
  (exists e, get_fwhr_bulk folder_path sort_by w = (Raise e, w)) /\
  (forall image_data,
      fst (collect_image_data folder_path w) = Ok image_data ->
      get_fwhr_bulk folder_path sort_by w = (Raise ValueError, w)).
Proof.
  intros Hf Hr. unfold get_fwhr_bulk, io_bind.
  pose proof (collect_image_data_world folder_path w) as Hw.
  destruct (collect_image_data folder_path w) as [[image_data | e] w'];
    cbn [snd] in Hw; subst w'.
  - destruct (String.eqb_spec sort_by "filename") as [| _]; [contradiction |].
    destruct (String.eqb_spec sort_by "ratio") as [| _]; [contradiction |].
    unfold io_raise. split; [eexists; reflexivity | reflexivity].
  - split; [eexists; reflexivity |]. intros image_data Hd. discriminate Hd.
Qed.

Lemma get_fwhr_batch_row w folder filename r :
  batch_row w folder filename r ->
  get_fwhr (folder ++ filename) false false "average" "eyelid" w = (Ok (snd r), w).
Proof.
  intros (_ & img & face & others & Hdisk & Hfaces & Hgate).
  unfold get_fwhr, load_image, load_image_file, io_bind, io_lift, io_ret.
  cbn [negb]. rewrite Hdisk, Hfaces. cbn [first_face].
  destruct Hgate as [(-> & ->) | (-> & corners & ratio & -> & -> & ->)]; reflexivity.
Qed.

Lemma bulk_loop_rows w folder files : forall image_data,
  (forall f, In f files -> is_image_name f = true -> exists r, batch_row w folder f r) ->
  exists new,
    bulk_loop folder files image_data w = (Ok (image_data ++ new), w) /\
    Forall2 (batch_row w folder) (List.filter is_image_name files) new.
Proof.
  induction files as [| filename files IH]; intros image_data Hall.
  - exists []. cbn. rewrite app_nil_r. split; [reflexivity | constructor].
  - cbn [bulk_loop List.filter].
    destruct (is_image_name filename) eqn:Eimg.
    + destruct (Hall filename (or_introl eq_refl) Eimg) as [r Hr].
      unfold io_bind. rewrite (get_fwhr_batch_row w folder filename r Hr).
      destruct (IH (image_data ++ [(filename, snd r)])) as (new & Hloop & Hrows).
      { intros f Hin. apply Hall. right. exact Hin. }
      exists ((filename, snd r) :: new). split.
      * rewrite Hloop. rewrite <- app_assoc. reflexivity.
      * constructor; [| exact Hrows].
        destruct r as [name ratio]. destruct Hr as [Hname Hrest].
        cbn [fst snd] in *. subst name. split; [reflexivity | exact Hrest].
    + apply IH. intros f Hin. apply Hall. right. exact Hin.
Qed.

(** C8: in a batch run over a listed folder whose image files each
    load and show a face that the gate and the ratio can be computed
    for, the table written to [fwhr_ratios.csv] has, up to the order the
    sort gives, exactly one row per file whose name ends in [.jpg] or
    [.png]: the file's name with no ratio when the first face fails the
    gate, and with the ratio of the box of method average and top eyelid
    when it passes. *)
Theorem C8_one_row_per_image (folder_path sort_by : string) (w : world)
  (files : list string) :
  (forall by_column table, Permutation (sort_values by_column table) table) ->
  dirs w !! folder_path = Some files ->
  sort_by = "filename" \/ sort_by = "ratio" ->
  (forall f, In f files -> is_image_name f = true ->
             exists r, batch_row w folder_path f r) ->
  exists table unsorted,
    get_fwhr_bulk folder_path sort_by w
    = (Ok tt,
       write_file (folder_path ++ "fwhr_ratios.csv")%string
         (CsvFile {| columns := ["Filename"; "Ratio"]; rows := table |}) w) /\
    Permutation table unsorted /\
    Forall2 (batch_row w folder_path) (List.filter is_image_name files) unsorted.
Proof.
  intros Hsort Hdir Hby Hall.
  destruct (bulk_loop_rows w folder_path files [] Hall) as (new & Hloop & Hrows).
  cbn [app] in Hloop.
  unfold get_fwhr_bulk, collect_image_data, io_bind, listdir.
  rewrite Hdir, Hloop.
  destruct Hby as [-> | ->]; cbn [String.eqb Ascii.eqb Bool.eqb rows columns io_ret to_csv].
  - exists (sort_values "Filename" new), new.
    split; [reflexivity |]. split; [apply Hsort | exact Hrows].
  - exists (sort_values "Ratio" new), new.
    split; [reflexivity |]. split; [apply Hsort | exact Hrows].
Qed.

End BatchClaims.

(** * A sample run *)

Section SampleRun.

Local Existing Instance sample_libraries.

(** The gate is strict: on its thresholds it accepts, half a pixel
    above one of them it rejects. *)
Example gate_is_strict :
  good_picture_check threshold_face false = Ok true /\
  good_picture_check uneven_face false = Ok false.
Proof. split; reflexivity. Qed.

Lemma C9_url_needs_image_suffix_witness :
  (exists pre, "http://example.org/face.png" = (pre ++ "png")%string) /\
  (exists w',
      load_image "http://example.org/face.png" true sample_world
      = (Ok [frontal_face], w') /\
      disk w' !! "tmp.jpg" = Some (picture [frontal_face])) /\
  load_image "http://example.org/face.gif" true sample_world
  = (Raise ValueError, sample_world).
Proof.
  assert (Hacc : exists pre, "http://example.org/face.png" = (pre ++ "png")%string)
    by (exists "http://example.org/face."; reflexivity).
  split; [exact Hacc |]. split.
  - destruct (C9_url_needs_image_suffix "http://example.org/face.png" sample_world)
      as [Hfetch _].
    specialize (Hfetch (or_intror Hacc)).
    assert (Hweb : web sample_world !! "http://example.org/face.png"
                   = Some (picture [frontal_face])) by (reflexivity).
    rewrite Hweb in Hfetch. eexists. split; [exact Hfetch |].
    reflexivity.
  - destruct (C9_url_needs_image_suffix "http://example.org/face.gif" sample_world)
      as [_ Hreject].
    apply Hreject. intros [Hjpg | Hpng].
    + apply last_chars_suffix in Hjpg. vm_compute in Hjpg. discriminate Hjpg.
    + apply last_chars_suffix in Hpng. vm_compute in Hpng. discriminate Hpng.
Defined.

(** The error alone does not tell a rejected path from an accepted one
    whose fetch fails: a path without a scheme passes the test of its
    last three characters and the fetch then raises [ValueError] as
    well. *)
Example accepted_path_without_scheme :
  (exists pre, "photo.jpg" = (pre ++ "jpg")%string) /\
  load_image "photo.jpg" true sample_world = (Raise ValueError, sample_world).
Proof. split; [exists "photo."; reflexivity | reflexivity]. Qed.

(** C7, as stated, fails: in a folder whose image shows no face the
    run with an unknown [sort_by] ends in [IndexError], not in the
    invalid-argument error. *)
Lemma C7_another_error_comes_first :
  "bogus" <> "filename" /\ "bogus" <> "ratio" /\
  get_fwhr_bulk "./empty/" "bogus" sample_world = (Raise IndexError, sample_world) /\
  IndexError <> ValueError.
Proof.
  split; [discriminate |]. split; [discriminate |].
  split; [reflexivity | discriminate].
Qed.

Lemma C7_invalid_sort_by_writes_nothing_witness :
  "bogus" <> "filename" /\ "bogus" <> "ratio" /\
  get_fwhr_bulk "./images/" "bogus" sample_world = (Raise ValueError, sample_world) /\
  disk sample_world !! "./images/fwhr_ratios.csv" = None.
Proof.
  split; [discriminate |]. split; [discriminate |]. split.
  - destruct (C7_invalid_sort_by_writes_nothing "./images/" "bogus" sample_world)
      as [_ Hvalue]; [discriminate | discriminate |].
    eapply Hvalue. reflexivity.
  - reflexivity.
Defined.

Lemma sample_images_have_rows f :
  In f ["c.jpg"; "notes.txt"; "a.jpg"; "b.png"] -> is_image_name f = true ->
  exists r, batch_row sample_world "./images/" f r.
Proof.
  intros Hin Himg.
  destruct Hin as [<- | [<- | [<- | [<- | []]]]].
  - eexists ("c.jpg", _). split; [reflexivity |].
    exists [threshold_face], threshold_face, [].
    split; [reflexivity |]. split; [reflexivity |]. right.
    split; [reflexivity |].
    eexists. eexists. split; [reflexivity |].
    split; [reflexivity | reflexivity].
  - vm_compute in Himg. discriminate Himg.
  - eexists ("a.jpg", _). split; [reflexivity |].
    exists [frontal_face], frontal_face, [].
    split; [reflexivity |]. split; [reflexivity |]. right.
    split; [reflexivity |].
    eexists. eexists. split; [reflexivity |].
    split; [reflexivity | reflexivity].
  - exists ("b.png", None). split; [reflexivity |].
    exists [turned_face; frontal_face], turned_face, [frontal_face].
    split; [reflexivity |]. split; [reflexivity |]. left.
    split; [reflexivity | reflexivity].
Defined.

Lemma C8_one_row_per_image_witness :
  dirs sample_world !! "./images/" = Some ["c.jpg"; "notes.txt"; "a.jpg"; "b.png"] /\
  exists table unsorted,
    get_fwhr_bulk "./images/" "ratio" sample_world
    = (Ok tt,
       write_file "./images/fwhr_ratios.csv"
         (CsvFile {| columns := ["Filename"; "Ratio"]; rows := table |})
         sample_world) /\
    Permutation table unsorted /\
    Forall2 (batch_row sample_world "./images/") ["c.jpg"; "a.jpg"; "b.png"] unsorted.
Proof.
  assert (Hdir : dirs sample_world !! "./images/"
                 = Some ["c.jpg"; "notes.txt"; "a.jpg"; "b.png"])
    by (reflexivity).
  split; [exact Hdir |].
  apply (C8_one_row_per_image "./images/" "ratio" sample_world
           ["c.jpg"; "notes.txt"; "a.jpg"; "b.png"]).
  - intros by_column table. apply Permutation_refl.
  - exact Hdir.
  - right. reflexivity.
  - exact sample_images_have_rows.
Defined.

End SampleRun.

(** * More facts about the binary64 operations: values *)

Module Rounding.

Import Py Binary64.

Lemma shr_1_double x :
  0 <= x ->
  shr_1 {| shr_m := 2 * x; shr_r := false; shr_s := false |}
  = {| shr_m := x; shr_r := false; shr_s := false |}.
Proof. destruct x as [| p | p]; [reflexivity | reflexivity | lia]. Qed.

Lemma iter_shr_1_exact n : forall k,
  0 <= k ->
  SpecFloat.iter_pos shr_1 n {| shr_m := k * 2 ^ Zpos n; shr_r := false; shr_s := false |}
  = {| shr_m := k; shr_r := false; shr_s := false |}.
Proof.
  induction n as [n IH | n IH |]; intros k Hk; cbn [SpecFloat.iter_pos].
  - rewrite pow2_xI.
    replace (k * (2 * 2 ^ Zpos n * 2 ^ Zpos n)) with (2 * (k * 2 ^ Zpos n * 2 ^ Zpos n)) by lia.
    pose proof (pow2_pos (Zpos n) ltac:(lia)).
    rewrite shr_1_double by nia.
    rewrite IH by nia. apply IH. assumption.
  - rewrite pow2_xO.
    replace (k * (2 ^ Zpos n * 2 ^ Zpos n)) with (k * 2 ^ Zpos n * 2 ^ Zpos n) by lia.
    pose proof (pow2_pos (Zpos n) ltac:(lia)).
    rewrite IH by nia. apply IH. assumption.
  - change (2 ^ 1) with 2. rewrite Z.mul_comm. apply shr_1_double. assumption.
Qed.

(** The two steps of [binary_round_aux] on a positive mantissa: a right
    shift down to the precision, the rounding of what was shifted out,
    and a second shift of at most one place when the rounding carried. *)
Lemma binary_round_aux_steps s mz ez l :
  0 < mz -> -1074 < Zdigits2 mz + ez ->
  let n1 := Z.max 0 (fexp (Zdigits2 mz + ez) - ez) in
  let m1 := mz / 2 ^ n1 in
  let e1 := ez + n1 in
  exists m2 m3,
    m1 <= m2 <= m1 + 1 /\
    (l = loc_Exact -> mz = m1 * 2 ^ n1 -> m2 = m1) /\
    let n2 := Z.max 0 (fexp (Zdigits2 m2 + e1) - e1) in
    Zpos m3 = m2 / 2 ^ n2 /\
    binary_round_aux prec emax s mz ez l
    = if e1 + n2 <=? emax - prec then S754_finite s m3 (e1 + n2)
      else S754_infinity s.
Proof.
  intros Hmz Hmag n1 m1 e1. unfold binary_round_aux.
  pose proof (shr_fexp_m mz ez l Hmz) as H1. cbv zeta in H1. fold n1 in H1.
  assert (Hexact : l = loc_Exact -> mz = m1 * 2 ^ n1 ->
                   loc_of_shr_record (fst (shr_fexp prec emax mz ez l)) = loc_Exact).
  { intros -> Hdiv. unfold shr_fexp, shr. subst n1.
    destruct (fexp (Zdigits2 mz + ez) - ez) as [| p | p] eqn:E; cbn [fst];
      try reflexivity.
    rewrite Z.max_r in Hdiv by lia. cbn [shr_record_of_loc].
    rewrite Hdiv. rewrite iter_shr_1_exact; [reflexivity |].
    subst m1. apply Z.div_pos; [lia | apply pow2_pos; lia]. }
  destruct (shr_fexp prec emax mz ez l) as [mrs' e'].
  cbn [fst snd] in H1, Hexact. destruct H1 as [Hm1 He1].
  fold m1 in Hm1. fold e1 in He1. subst e'.
  assert (Hn1 : 0 <= n1 < Zdigits2 mz).
  { subst n1. pose proof (Zdigits2_pos mz Hmz). rewrite fexp_eq. lia. }
  destruct (shift_digits mz n1 Hmz Hn1) as [Hpos1 Hdig1]. fold m1 in Hpos1, Hdig1.
  set (m2 := round_nearest_even (shr_m mrs') (loc_of_shr_record mrs')).
  pose proof (round_nearest_even_bounds (shr_m mrs') (loc_of_shr_record mrs')) as Hr.
  fold m2 in Hr. rewrite Hm1 in Hr.
  assert (Hm2 : 0 < m2) by lia.
  assert (Hd2 : Zdigits2 m1 <= Zdigits2 m2 <= Zdigits2 m1 + 1).
  { split; [apply Zdigits2_mono; lia |].
    transitivity (Zdigits2 (m1 + 1)).
    - apply Zdigits2_mono; lia.
    - apply Zdigits2_succ_le; assumption. }
  pose proof (shr_fexp_m m2 e1 loc_Exact Hm2) as H2. cbv zeta in H2.
  destruct (shr_fexp prec emax m2 e1 loc_Exact) as [mrs'' e''].
  cbn [fst snd] in H2. destruct H2 as [Hm3 He3].
  set (n2 := Z.max 0 (fexp (Zdigits2 m2 + e1) - e1)) in *.
  assert (Hn2 : 0 <= n2 < Zdigits2 m2).
  { subst n2 e1 n1. rewrite !fexp_eq. rewrite fexp_eq in Hdig1. lia. }
  destruct (shift_digits m2 n2 Hm2 Hn2) as [Hpos3 _].
  rewrite <- Hm3 in Hpos3.
  destruct (shr_m mrs'') as [| m3 | m3] eqn:E3; try lia.
  exists m2, m3. split; [exact Hr |]. split.
  - intros Hl Hdiv. subst m2. rewrite (Hexact Hl Hdiv). cbn [round_nearest_even].
    exact Hm1.
  - cbv zeta. split; [exact Hm3 |]. subst e''. reflexivity.
Qed.

(** When rounding carries into one more digit, the mantissa is a power
    of two and the second shift loses nothing. *)
Lemma carry_shift m1 m2 e1 :
  0 < m1 -> m1 <= m2 <= m1 + 1 ->
  fexp (Zdigits2 m1 + e1) <= e1 -> -1074 < Zdigits2 m1 + e1 ->
  let n2 := Z.max 0 (fexp (Zdigits2 m2 + e1) - e1) in
  0 <= n2 <= 1 /\
  m2 = m2 / 2 ^ n2 * 2 ^ n2 /\
  Zdigits2 m1 <= Zdigits2 m2 <= Zdigits2 m1 + 1 /\
  Zdigits2 (m2 / 2 ^ n2) = Zdigits2 m2 - n2 /\
  (fexp (Zdigits2 m1 + e1) = e1 -> e1 + n2 = fexp (Zdigits2 m2 + e1)).
Proof.
  intros Hm1 Hm2 Hcan Hmag n2.
  assert (Hd2 : Zdigits2 m1 <= Zdigits2 m2 <= Zdigits2 m1 + 1).
  { split; [apply Zdigits2_mono; lia |].
    transitivity (Zdigits2 (m1 + 1)).
    - apply Zdigits2_mono; lia.
    - apply Zdigits2_succ_le; assumption. }
  pose proof (Zdigits2_pos m1 Hm1) as Hd1.
  assert (Hn2 : 0 <= n2 <= 1).
  { subst n2. rewrite fexp_eq in *. lia. }
  assert (Hlt : 0 <= n2 < Zdigits2 m2) by (subst n2; rewrite fexp_eq in *; lia).
  destruct (shift_digits m2 n2 ltac:(lia) Hlt) as [_ Hdig].
  split; [exact Hn2 |].
  assert (Hcases : n2 = 0 \/ n2 = 1) by lia.
  destruct Hcases as [E | E].
  - split.
    { rewrite E. change (2 ^ 0) with 1. rewrite Z.div_1_r, Z.mul_1_r. reflexivity. }
    split; [exact Hd2 |]. split; [exact Hdig |].
    intros Hc. subst n2. rewrite fexp_eq in *. lia.
  - assert (Hgrow : Zdigits2 m2 = Zdigits2 m1 + 1).
    { subst n2. rewrite fexp_eq in *. lia. }
    pose proof (Zdigits2_bounds m1 Hm1) as [_ Hu1].
    pose proof (Zdigits2_bounds m2 ltac:(lia)) as [Hl2 _].
    rewrite Hgrow in Hl2. replace (Zdigits2 m1 + 1 - 1) with (Zdigits2 m1) in Hl2 by lia.
    assert (Hpow : m2 = 2 ^ Zdigits2 m1) by lia.
    split.
    { rewrite E. change (2 ^ 1) with 2. rewrite Hpow.
      replace (Zdigits2 m1) with (1 + (Zdigits2 m1 - 1)) by lia.
      rewrite Z.pow_add_r by lia. change (2 ^ 1) with 2.
      rewrite (Z.mul_comm 2), Z.div_mul by lia. reflexivity. }
    split; [exact Hd2 |]. split; [exact Hdig |].
    intros Hc. subst n2. rewrite fexp_eq in *. lia.
Qed.

(** What [binary_round_aux] returns for a positive mantissa: the sign is
    kept, the exponent rises by the places shifted out, the magnitude by
    at most one digit, the value stays within one unit of the shifted
    mantissa and is exact when nothing non-zero was shifted out, and the
    result is in canonical form when the input was fine enough. *)
Lemma binary_round_aux_spec s mz ez l :
  0 < mz -> -1074 < Zdigits2 mz + ez ->
  let n1 := Z.max 0 (fexp (Zdigits2 mz + ez) - ez) in
  exists m e,
    binary_round_aux prec emax s mz ez l
    = (if e <=? emax - prec then S754_finite s m e else S754_infinity s) /\
    ez + n1 <= e <= ez + n1 + 1 /\
    Zdigits2 mz + ez <= Zdigits2 (Zpos m) + e <= Zdigits2 mz + ez + 1 /\
    mz / 2 ^ n1 * 2 ^ n1 <= Zpos m * 2 ^ (e - ez) <= (mz / 2 ^ n1 + 1) * 2 ^ n1 /\
    (l = loc_Exact -> mz = mz / 2 ^ n1 * 2 ^ n1 -> Zpos m * 2 ^ (e - ez) = mz) /\
    (ez <= fexp (Zdigits2 mz + ez) -> e = fexp (Zdigits2 (Zpos m) + e)).
Proof.
  intros Hmz Hmag n1.
  destruct (binary_round_aux_steps s mz ez l Hmz Hmag)
    as (m2 & m3 & Hr & Hex & Hm3 & Hres).
  fold n1 in Hr, Hex, Hm3, Hres.
  set (m1 := mz / 2 ^ n1) in *. set (e1 := ez + n1) in *.
  set (n2 := Z.max 0 (fexp (Zdigits2 m2 + e1) - e1)) in *.
  assert (Hn1 : 0 <= n1 < Zdigits2 mz).
  { subst n1. pose proof (Zdigits2_pos mz Hmz). rewrite fexp_eq. lia. }
  destruct (shift_digits mz n1 Hmz Hn1) as [Hpos1 Hdig1]. fold m1 in Hpos1, Hdig1.
  assert (Hcan1 : fexp (Zdigits2 m1 + e1) <= e1).
  { rewrite Hdig1. subst e1 n1. rewrite !fexp_eq. lia. }
  assert (Hmag1 : -1074 < Zdigits2 m1 + e1) by (rewrite Hdig1; subst e1; lia).
  destruct (carry_shift m1 m2 e1 Hpos1 Hr Hcan1 Hmag1)
    as (Hn2 & Hm2 & Hd2 & Hd3 & Hc). fold n2 in Hn2, Hm2, Hd3, Hc.
  rewrite <- Hm3 in Hm2, Hd3.
  exists m3, (e1 + n2). split; [exact Hres |].
  pose proof (pow2_pos n1 ltac:(lia)) as Hp1.
  pose proof (pow2_pos n2 ltac:(lia)) as Hp2.
  assert (Hval : Zpos m3 * 2 ^ (e1 + n2 - ez) = m2 * 2 ^ n1).
  { replace (e1 + n2 - ez) with (n2 + n1) by (subst e1; lia).
    rewrite Z.pow_add_r by lia. rewrite Z.mul_assoc, <- Hm2. reflexivity. }
  split; [subst e1; lia |]. split; [rewrite Hd3; subst e1; lia |].
  split; [rewrite Hval; nia |]. split.
  - intros Hl Hdiv. rewrite Hval. rewrite (Hex Hl Hdiv). symmetry. exact Hdiv.
  - intros Hfine. rewrite Hd3.
    replace (Zdigits2 m2 - n2 + (e1 + n2)) with (Zdigits2 m2 + e1) by lia.
    apply Hc. rewrite Hdig1. subst e1 n1. rewrite !fexp_eq in *. lia.
Qed.

Lemma new_location_zero nb : new_location nb 0 = loc_Exact.
Proof.
  unfold new_location, new_location_even, new_location_odd.
  destruct (Z.even nb); reflexivity.
Qed.

(** The integer division at the heart of [SFdiv]: the dividend is
    scaled so that the quotient has 53 or 54 digits. *)
Lemma div_core_spec pa ea pb eb :
  let LL := Zdigits2 (Zpos pa) + ea - (Zdigits2 (Zpos pb) + eb) in
  let e' := Z.min (fexp LL) (ea - eb) in
  let s := ea - eb - e' in
  let q := Zpos pa * 2 ^ s / Zpos pb in
  -1073 <= LL ->
  SFdiv_core_binary prec emax (Zpos pa) ea (Zpos pb) eb
  = (q, e', new_location (Zpos pb) ((Zpos pa * 2 ^ s) mod Zpos pb)) /\
  0 <= s /\ 0 < q /\ LL <= Zdigits2 q + e' <= LL + 1.
Proof.
  intros LL e' s q HLL. unfold SFdiv_core_binary.
  set (d1 := Zdigits2 (Zpos pa)) in *. set (d2 := Zdigits2 (Zpos pb)) in *.
  fold LL. fold e'. fold s.
  pose proof (Zdigits2_bounds (Zpos pa) ltac:(lia)) as [Hal Hau]. fold d1 in Hal, Hau.
  pose proof (Zdigits2_bounds (Zpos pb) ltac:(lia)) as [Hbl Hbu]. fold d2 in Hbl, Hbu.
  pose proof (Zdigits2_pos (Zpos pa) ltac:(lia)) as Hd1. fold d1 in Hd1.
  pose proof (Zdigits2_pos (Zpos pb) ltac:(lia)) as Hd2. fold d2 in Hd2.
  assert (Hs : 0 <= s) by (subst s e'; lia).
  assert (Hsd : d2 + 1 <= d1 + s).
  { subst s e' LL. rewrite fexp_eq. lia. }
  set (m' := match s with Zpos _ => Z.shiftl (Zpos pa) s | Z0 => Zpos pa | Zneg _ => 0 end).
  assert (Hm' : m' = Zpos pa * 2 ^ s).
  { subst m'. destruct s as [| p | p] eqn:Es; [cbn; lia | | lia].
    rewrite Z.shiftl_mul_pow2 by lia. reflexivity. }
  destruct (Z.div_eucl m' (Zpos pb)) as [q' r] eqn:E.
  assert (Hq' : q' = q).
  { subst q. rewrite <- Hm'. unfold Z.div. rewrite E. reflexivity. }
  assert (Hr : r = (Zpos pa * 2 ^ s) mod Zpos pb).
  { rewrite <- Hm'. unfold Z.modulo. rewrite E. reflexivity. }
  subst q' r. split; [reflexivity |]. split; [exact Hs |].
  assert (Hlo : 2 ^ (d1 - 1 + s) <= Zpos pa * 2 ^ s).
  { rewrite Z.pow_add_r by lia.
    apply Z.mul_le_mono_nonneg_r; [apply Z.lt_le_incl, pow2_pos; lia | assumption]. }
  assert (Hhi : Zpos pa * 2 ^ s < 2 ^ (d1 + s)).
  { rewrite Z.pow_add_r by lia.
    apply Z.mul_lt_mono_pos_r; [apply pow2_pos; lia | assumption]. }
  assert (Hql : 2 ^ (d1 + s - d2 - 1) <= q).
  { subst q. apply Z.div_le_lower_bound; [lia |].
    apply Z.le_trans with (2 := Hlo).
    replace (d1 - 1 + s) with (d2 + (d1 + s - d2 - 1)) by lia.
    rewrite Z.pow_add_r by lia.
    apply Z.mul_le_mono_nonneg_r; [apply Z.lt_le_incl, pow2_pos; lia | lia]. }
  assert (Hq0 : 0 < q).
  { pose proof (pow2_pos (d1 + s - d2 - 1) ltac:(lia)). lia. }
  split; [exact Hq0 |].
  assert (Hqu : q < 2 ^ (d1 + s - d2 + 1)).
  { subst q. apply Z.div_lt_upper_bound; [lia |].
    apply Z.lt_le_trans with (1 := Hhi).
    replace (d1 + s) with (d2 - 1 + (d1 + s - d2 + 1)) at 1 by lia.
    rewrite Z.pow_add_r by lia.
    apply Z.mul_le_mono_nonneg_r; [apply Z.lt_le_incl, pow2_pos; lia | assumption]. }
  pose proof (Zdigits2_le q (d1 + s - d2 + 1) Hq0 Hqu ltac:(lia)) as Hdu.
  assert (Hdl : d1 + s - d2 <= Zdigits2 q).
  { pose proof (Zdigits2_bounds q Hq0) as [_ Hu].
    pose proof (Zdigits2_pos q Hq0).
    destruct (Z.le_gt_cases (d1 + s - d2) (Zdigits2 q)) as [| Hlt]; [assumption |].
    assert (2 ^ Zdigits2 q <= 2 ^ (d1 + s - d2 - 1)) by (apply Z.pow_le_mono_r; lia).
    lia. }
  subst s LL. lia.
Qed.

(** The quotient of two finite floats, in full: sign, exponent,
    magnitude, distance from the integer quotient, exactness and
    canonical form. *)
Lemma SFdiv_finite_spec sx pa ea sy pb eb :
  let LL := Zdigits2 (Zpos pa) + ea - (Zdigits2 (Zpos pb) + eb) in
  let e' := Z.min (fexp LL) (ea - eb) in
  let s := ea - eb - e' in
  let q := Zpos pa * 2 ^ s / Zpos pb in
  let n1 := Z.max 0 (fexp (Zdigits2 q + e') - e') in
  -1073 <= LL -> -1074 <= ea - eb ->
  exists m e,
    SFdiv prec emax (S754_finite sx pa ea) (S754_finite sy pb eb)
    = (if e <=? emax - prec then S754_finite (xorb sx sy) m e
       else S754_infinity (xorb sx sy)) /\
    (fexp LL <= ea - eb -> n1 <= 1) /\
    e' + n1 <= e <= e' + n1 + 1 /\
    LL <= Zdigits2 (Zpos m) + e <= LL + 2 /\
    q / 2 ^ n1 * 2 ^ n1 <= Zpos m * 2 ^ (e - e') <= (q / 2 ^ n1 + 1) * 2 ^ n1 /\
    ((Zpos pa * 2 ^ s) mod Zpos pb = 0 -> q = q / 2 ^ n1 * 2 ^ n1 ->
     Zpos m * 2 ^ (e - e') = q) /\
    e = fexp (Zdigits2 (Zpos m) + e).
Proof.
  intros LL e' s q n1 HLL Hee. cbn [SFdiv].
  destruct (div_core_spec pa ea pb eb HLL) as (Hcore & Hs & Hq & Hdq).
  fold LL in Hcore, Hs, Hq, Hdq. fold e' in Hcore, Hs, Hq, Hdq.
  fold s in Hcore, Hs, Hq, Hdq. fold q in Hcore, Hq, Hdq.
  rewrite Hcore.
  assert (He' : -1074 <= e') by (subst e'; rewrite fexp_eq; lia).
  pose proof (Zdigits2_pos q Hq) as Hdq0.
  destruct (binary_round_aux_spec (xorb sx sy) q e'
              (new_location (Zpos pb) ((Zpos pa * 2 ^ s) mod Zpos pb)) Hq ltac:(lia))
    as (m & e & Hres & He & Hdig & Hval & Hex & Hcan).
  fold n1 in He, Hval, Hex.
  exists m, e. split; [exact Hres |].
  split; [intros Hfine; subst n1 e'; rewrite !fexp_eq in *; lia |].
  split; [exact He |].
  split; [clear Hval Hex Hcan Hres Hcore; clearbody n1 q s e' LL; lia |].
  split; [exact Hval |]. split.
  - intros Hmod. apply Hex. rewrite Hmod. apply new_location_zero.
  - apply Hcan.
    assert (Ee' : e' = Z.min (fexp LL) (ea - eb)) by reflexivity.
    clear Hval Hex Hcan Hres Hcore. clearbody n1 q s e' LL.
    rewrite !fexp_eq in *. lia.
Qed.

(** The quotient of two finite floats of moderate size is a finite float
    whose sign is the product of the signs. *)
Lemma SFdiv_bounded k sx sy x y :
  0 <= k <= 250 -> bounded_float k sx x -> bounded_float k sy y ->
  bounded_float (2 * k + 60) (xorb sx sy) (SFdiv prec emax x y).
Proof.
  intros Hk (pa & ea & -> & Hea & HLa) (pb & eb & -> & Heb & HLb).
  destruct (SFdiv_finite_spec sx pa ea sy pb eb ltac:(lia) ltac:(lia))
    as (m & e & Hres & _ & He & Hdig & _ & _ & _).
  set (LL := Zdigits2 (Zpos pa) + ea - (Zdigits2 (Zpos pb) + eb)) in *.
  set (e' := Z.min (fexp LL) (ea - eb)) in *.
  set (q := Zpos pa * 2 ^ (ea - eb - e') / Zpos pb) in *.
  set (n1 := Z.max 0 (fexp (Zdigits2 q + e') - e')) in *.
  assert (Ee' : e' = Z.min (fexp LL) (ea - eb)) by reflexivity.
  assert (En1 : n1 = Z.max 0 (fexp (Zdigits2 q + e') - e')) by reflexivity.
  assert (ELL : LL = Zdigits2 (Zpos pa) + ea - (Zdigits2 (Zpos pb) + eb)) by reflexivity.
  destruct (div_core_spec pa ea pb eb ltac:(lia)) as (_ & _ & _ & Hdq).
  fold LL in Hdq. fold e' in Hdq. fold q in Hdq.
  clearbody n1 q e' LL. rewrite !fexp_eq in *.
  assert (Hfin : e <= emax - prec) by (unfold emax, prec; lia).
  apply Z.leb_le in Hfin. rewrite Hfin in Hres.
  exists m, e. split; [exact Hres |]. lia.
Qed.

Lemma int_operand_bounded z :
  z <> 0 -> Z.abs z < 2 ^ 62 -> bounded_float 62 (z <? 0) (int_operand z).
Proof.
  intros Hz Hb.
  destruct z as [| p | p]; [lia | |]; cbn [int_operand Z.ltb Z.compare];
    exists p, 0;
    (split; [reflexivity |]);
    pose proof (Zdigits2_pos (Zpos p) ltac:(lia));
    pose proof (Zdigits2_le (Zpos p) 62 ltac:(lia) ltac:(lia) ltac:(lia)); lia.
Qed.

(** The quotient of two non-zero ints below [2 ^ 62]. *)
Lemma int_truediv_bounded a b :
  a <> 0 -> b <> 0 -> Z.abs a < 2 ^ 62 -> Z.abs b < 2 ^ 62 ->
  exists x, int_truediv a b = Ok x /\
            bounded_float 184 (xorb (a <? 0) (b <? 0)) x.
Proof.
  intros Ha Hb Hba Hbb. unfold int_truediv.
  destruct (Z.eqb_spec b 0) as [| _]; [contradiction |].
  pose proof (SFdiv_bounded 62 _ _ _ _ ltac:(lia)
                (int_operand_bounded a Ha Hba) (int_operand_bounded b Hb Hbb)) as Hq.
  destruct a as [| pa | pa]; [lia | |];
    destruct Hq as (m & e & Hq & Hr); rewrite Hq; cbn [is_infinity];
    eexists; (split; [reflexivity |]); exists m, e; (split; [reflexivity | exact Hr]).
Qed.

(** The float of a non-zero int below [2 ^ 62]. *)
Lemma float_of_int_bounded z :
  z <> 0 -> Z.abs z < 2 ^ 62 ->
  exists x, float_of_int z = Ok x /\ bounded_float 63 (z <? 0) x.
Proof.
  intros Hz Hb. unfold float_of_int, binary_normalize.
  assert (Hround : forall s p, Zpos p < 2 ^ 62 ->
             bounded_float 63 s (binary_round prec emax s p 0)).
  { intros s p Hp. unfold binary_round.
    pose proof (shl_align_spec p 0 (fexp (Zpos (digits2_pos p) + 0))) as H.
    cbv zeta in H.
    destruct (shl_align p 0 (fexp (Zpos (digits2_pos p) + 0))) as [mz ez].
    cbn [fst snd] in H. destruct H as (Hez & Hmz & Hdig).
    pose proof (Zdigits2_pos (Zpos p) ltac:(lia)) as Hd0.
    pose proof (Zdigits2_le (Zpos p) 62 ltac:(lia) Hp ltac:(lia)) as Hd.
    change (Zpos (digits2_pos p)) with (Zdigits2 (Zpos p)) in Hez.
    destruct (binary_round_aux_spec s (Zpos mz) ez loc_Exact ltac:(lia) ltac:(lia))
      as (m & e & Hres & He & Hdg & _).
    rewrite Hdig in He, Hdg. rewrite !fexp_eq in *.
    assert (Hfin : e <= emax - prec) by (unfold emax, prec; lia).
    apply Z.leb_le in Hfin. rewrite Hfin in Hres.
    exists m, e. split; [exact Hres |]. lia. }
  destruct z as [| p | p]; [lia | |]; cbn [Z.ltb Z.compare].
  - destruct (Hround false p ltac:(lia)) as (m & e & Hx & Hr). rewrite Hx.
    cbn [is_infinity]. eexists. split; [reflexivity |]. exists m, e. auto.
  - destruct (Hround true p ltac:(lia)) as (m & e & Hx & Hr). rewrite Hx.
    cbn [is_infinity]. eexists. split; [reflexivity |]. exists m, e. auto.
Qed.

End Rounding.

(** * Further properties of the geometry extractor *)

Section GeometryExtras.

Import Py Binary64.

Lemma index_short p i : (length p <= i)%nat -> index p i = Raise IndexError.
Proof.
  intros Hlen. unfold index.
  destruct (nth_error p i) eqn:E; [| reflexivity].
  assert (nth_error p i <> None) by congruence.
  apply nth_error_Some in H. lia.
Qed.

Lemma index_error p i e : index p i = Raise e -> e = IndexError.
Proof.
  unfold index. destruct (nth_error p i); [discriminate |].
  intros H. injection H as <-. reflexivity.
Qed.

Lemma index_long p i : (i < length p)%nat -> exists q, index p i = Ok q.
Proof.
  intros Hlen. unfold index.
  destruct (nth_error p i) eqn:E; [eauto |].
  apply nth_error_None in E. lia.
Qed.

Lemma top_points_error p top e :
  top = "eyebrow" \/ top = "eyelid" ->
  top_points p top = Raise e -> e = IndexError.
Proof.
  intros [-> | ->]; unfold top_points; cbn [String.eqb Ascii.eqb Bool.eqb].
  - destruct (index p 18) eqn:E1; cbn [res_bind].
    + destruct (index p 25) eqn:E2; cbn [res_bind]; [discriminate |].
      intros H. injection H as <-. eapply index_error; eassumption.
    + intros H. injection H as <-. eapply index_error; eassumption.
  - destruct (index p 37) eqn:E1; cbn [res_bind].
    + destruct (index p 43) eqn:E2; cbn [res_bind]; [discriminate |].
      intros H. injection H as <-. eapply index_error; eassumption.
    + intros H. injection H as <-. eapply index_error; eassumption.
Qed.

(** X1: a face list that stops before landmark 52 makes
    [get_face_points] raise [IndexError] for every method and each valid
    [top], whatever the coordinates; below 17 landmarks that holds for an
    invalid [top] as well, and from 17 landmarks on an invalid [top]
    raises [ValueError] even when the list is too short for the rest. *)
Theorem X1_incomplete_face_raises (p : list point) (method top : string) :
  ((length p < 53)%nat -> top = "eyebrow" \/ top = "eyelid" ->
   get_face_points p method top = Raise IndexError) /\
  ((length p < 17)%nat -> get_face_points p method top = Raise IndexError) /\
  ((17 <= length p)%nat -> top <> "eyebrow" -> top <> "eyelid" ->
   get_face_points p method top = Raise ValueError).
Proof.
  split; [| split].
  - intros Hlen Htop. unfold get_face_points.
    destruct (index p 0) as [p0 | e] eqn:E0; cbn [res_bind];
      [| apply index_error in E0; subst e; reflexivity].
    destruct (index p 16) as [p16 | e] eqn:E16; cbn [res_bind];
      [| apply index_error in E16; subst e; reflexivity].
    destruct (top_points p top) as [[tl tr] | e] eqn:Et; cbn [res_bind];
      [| apply (top_points_error p top e Htop) in Et; subst e; reflexivity].
    destruct (index p 50) as [p50 | e] eqn:E50; cbn [res_bind];
      [| apply index_error in E50; subst e; reflexivity].
    rewrite (index_short p 52) by lia. reflexivity.
  - intros Hlen. unfold get_face_points.
    destruct (index p 0) as [p0 | e] eqn:E0; cbn [res_bind];
      [| apply index_error in E0; subst e; reflexivity].
    rewrite (index_short p 16) by lia. reflexivity.
  - intros Hlen Hb Hl. unfold get_face_points, top_points.
    destruct (index_long p 0 ltac:(lia)) as [p0 ->].
    destruct (index_long p 16 ltac:(lia)) as [p16 ->].
    destruct (String.eqb_spec top "eyebrow") as [| _]; [contradiction |].
    destruct (String.eqb_spec top "eyelid") as [| _]; [contradiction |].
    reflexivity.
Qed.

Lemma X1_incomplete_face_raises_witness :
  (length (first_landmarks 52 frontal_face) < 53)%nat /\
  get_face_points (first_landmarks 52 frontal_face) "left" "eyelid" = Raise IndexError /\
  get_face_points (first_landmarks 10 frontal_face) "left" "chin" = Raise IndexError /\
  get_face_points (first_landmarks 30 frontal_face) "left" "chin" = Raise ValueError.
Proof.
  split; [vm_compute; lia |].
  destruct (X1_incomplete_face_raises (first_landmarks 52 frontal_face) "left" "eyelid")
    as (Hshort & _ & _).
  destruct (X1_incomplete_face_raises (first_landmarks 10 frontal_face) "left" "chin")
    as (_ & Hfirst & _).
  destruct (X1_incomplete_face_raises (first_landmarks 30 frontal_face) "left" "chin")
    as (_ & _ & Hvalue).
  split; [apply Hshort; [vm_compute; lia | right; reflexivity] |].
  split; [apply Hfirst; vm_compute; lia |].
  apply Hvalue; [vm_compute; lia | discriminate | discriminate].
Defined.

(** X3: whatever [get_face_points] returns is an upright rectangle: the
    two left corners share their x, the two right corners theirs, the two
    top corners their y and the two bottom corners theirs. *)
Theorem X3_box_is_upright (p : list point) (method top : string) (box : BoxCorners) :
  get_face_points p method top = Ok box ->
  px (top_left box) = px (bottom_left box) /\
  px (top_right box) = px (bottom_right box) /\
  py (top_left box) = py (top_right box) /\
  py (bottom_left box) = py (bottom_right box).
Proof.
  unfold get_face_points. intros H.
  destruct (index p 0); cbn [res_bind] in H; [| discriminate H].
  destruct (index p 16); cbn [res_bind] in H; [| discriminate H].
  destruct (top_points p top) as [[tl tr] |]; cbn [res_bind] in H; [| discriminate H].
  destruct (index p 50); cbn [res_bind] in H; [| discriminate H].
  destruct (index p 52); cbn [res_bind] in H; [| discriminate H].
  match type of H with
  | res_bind ?c _ = _ => destruct c as [[[[c0 c1] c2] c3] |]
  end; cbn [res_bind] in H; [| discriminate H].
  injection H as <-. repeat split.
Qed.

Lemma X3_box_is_upright_witness :
  exists box,
    get_face_points frontal_face "average" "eyelid" = Ok box /\
    px (top_left box) = px (bottom_left box) /\
    px (top_right box) = px (bottom_right box) /\
    py (top_left box) = py (top_right box) /\
    py (bottom_left box) = py (bottom_right box).
Proof.
  eexists. split; [vm_compute; reflexivity |].
  apply (X3_box_is_upright frontal_face "average" "eyelid").
  vm_compute. reflexivity.
Defined.

End GeometryExtras.

(** * Further properties of the quality gate and the ratio *)

Section GateExtras.

Import Py Binary64.

Lemma index_pixel p i q :
  Forall (fun q => pixel (px q) /\ pixel (py q)) p ->
  index p i = Ok q -> pixel (px q) /\ pixel (py q).
Proof.
  intros Hall. unfold index.
  destruct (nth_error p i) as [q' |] eqn:E; [| discriminate].
  intros Hq. injection Hq as <-.
  rewrite List.Forall_forall in Hall. apply Hall.
  eapply nth_error_In; eassumption.
Qed.

(** X2: a face list of pixel coordinates that stops before landmark 46
    makes [good_picture_check] raise [IndexError]. *)
Theorem X2_gate_needs_47_landmarks (p : list point) (debug : bool) :
  Forall (fun q => pixel (px q) /\ pixel (py q)) p ->
  (length p < 47)%nat ->
  good_picture_check p debug = Raise IndexError.
Proof.
  intros Hall Hlen. unfold good_picture_check, picture_measures.
  destruct (index p 16) as [p16 | e] eqn:E16; cbn [res_bind];
    [| apply index_error in E16; subst e; reflexivity].
  destruct (index p 0) as [p0 | e] eqn:E0; cbn [res_bind];
    [| apply index_error in E0; subst e; reflexivity].
  destruct (index_pixel p 16 p16 Hall E16) as [Hx16 _].
  destruct (index_pixel p 0 p0 Hall E0) as [Hx0 _].
  destruct (int_truediv_defined (px p16 - px p0) 100 ltac:(lia)
              (pixel_diff _ _ Hx16 Hx0) ltac:(cbn; lia)) as (width_im & -> & _).
  cbn [res_bind].
  destruct (index p 37) as [p37 | e] eqn:E37; cbn [res_bind];
    [| apply index_error in E37; subst e; reflexivity].
  destruct (index p 41) as [p41 | e] eqn:E41; cbn [res_bind];
    [| apply index_error in E41; subst e; reflexivity].
  destruct (index_pixel p 37 p37 Hall E37) as [_ Hy37].
  destruct (index_pixel p 41 p41 Hall E41) as [_ Hy41].
  destruct (int_float_truediv_defined _ lit_2_0 (pixel_sum _ _ Hy37 Hy41) eq_refl)
    as (eye_y_l & ->).
  cbn [res_bind].
  destruct (index p 44) as [p44 | e] eqn:E44; cbn [res_bind];
    [| apply index_error in E44; subst e; reflexivity].
  rewrite (index_short p 46) by lia. reflexivity.
Qed.

Lemma X2_gate_needs_47_landmarks_witness :
  (length (first_landmarks 46 frontal_face) < 47)%nat /\
  good_picture_check (first_landmarks 46 frontal_face) false = Raise IndexError.
Proof.
  split; [vm_compute; lia |].
  apply X2_gate_needs_47_landmarks; [| vm_compute; lia].
  apply List.Forall_forall. intros q Hq.
  assert (Hb : forallb (fun q => (Z.abs (px q) <? 2 ^ 52) && (Z.abs (py q) <? 2 ^ 52))
                 (first_landmarks 46 frontal_face) = true) by (vm_compute; reflexivity).
  rewrite forallb_forall in Hb. specialize (Hb q Hq).
  apply andb_prop in Hb as [Hx Hy]. apply Z.ltb_lt in Hx, Hy. split; assumption.
Defined.

Lemma index_translate dx dy p i :
  index (translate dx dy p) i = res_map (move dx dy) (index p i).
Proof.
  unfold index, translate. rewrite nth_error_map.
  destruct (nth_error p i); reflexivity.
Qed.

Lemma px_move_diff dx dy a b :
  px (move dx dy a) - px (move dx dy b) = px a - px b.
Proof. unfold move, px. cbn [fst]. lia. Qed.

Lemma py_move_diff dx dy a b :
  py (move dx dy a) - py (move dx dy b) = py a - py b.
Proof. unfold move, py. cbn [snd]. lia. Qed.

Lemma py_move_level dx a : py (move dx 0 a) = py a.
Proof. unfold move, py. cbn [snd]. lia. Qed.

(** X4: moving a face sideways in the picture changes nothing for the
    gate: [good_picture_check] gives the same verdict, or raises the same
    exception, on the face moved by any [dx]. *)
Theorem X4_gate_ignores_horizontal_position (p : list point) (debug : bool) (dx : Z) :
  good_picture_check (translate dx 0 p) debug = good_picture_check p debug.
Proof.
  unfold good_picture_check, picture_measures.
  rewrite !index_translate.
  destruct (index p 16) as [p16 |]; cbn [res_map res_bind]; [| reflexivity].
  destruct (index p 0) as [p0 |]; cbn [res_map res_bind]; [| reflexivity].
  rewrite px_move_diff.
  destruct (int_truediv (px p16 - px p0) 100) as [width_im |]; cbn [res_bind];
    [| reflexivity].
  destruct (index p 37) as [p37 |]; cbn [res_map res_bind]; [| reflexivity].
  destruct (index p 41) as [p41 |]; cbn [res_map res_bind]; [| reflexivity].
  rewrite !py_move_level.
  destruct (int_float_truediv (py p37 + py p41) lit_2_0) as [eye_y_l |];
    cbn [res_bind]; [| reflexivity].
  destruct (index p 44) as [p44 |]; cbn [res_map res_bind]; [| reflexivity].
  destruct (index p 46) as [p46 |]; cbn [res_map res_bind]; [| reflexivity].
  rewrite !py_move_level.
  destruct (int_float_truediv (py p44 + py p46) lit_2_0) as [eye_y_r |];
    cbn [res_bind]; [| reflexivity].
  destruct (float_truediv (float_sub eye_y_r eye_y_l) width_im) as [eye_dif |];
    cbn [res_bind]; [| reflexivity].
  destruct (index p 30) as [p30 |]; cbn [res_map res_bind]; [| reflexivity].
  destruct (index p 27) as [p27 |]; cbn [res_map res_bind]; [| reflexivity].
  rewrite px_move_diff.
  destruct (int_float_truediv (px p30 - px p27) width_im) as [nose_dif |];
    cbn [res_bind]; [| reflexivity].
  destruct (index p 36) as [p36 |]; cbn [res_map res_bind]; [| reflexivity].
  destruct (index p 45) as [p45 |]; cbn [res_map res_bind]; [| reflexivity].
  rewrite !px_move_diff. reflexivity.
Qed.

End GateExtras.

Section RatioExtras.

Import Py Binary64.

Lemma FWHR_calc_translate dx dy box :
  FWHR_calc (translate_box dx dy box) = FWHR_calc box.
Proof.
  unfold FWHR_calc, translate_box. cbn [top_right top_left bottom_left].
  rewrite px_move_diff, py_move_diff. reflexivity.
Qed.

Lemma box_eq a b c d a' b' c' d' :
  a = a' -> b = b' -> c = c' -> d = d' ->
  Ok {| top_left := (a, c); bottom_left := (a, d);
        top_right := (b, c); bottom_right := (b, d) |}
  = Ok {| top_left := (a', c'); bottom_left := (a', d');
          top_right := (b', c'); bottom_right := (b', d') |}.
Proof. intros -> -> -> ->. reflexivity. Qed.

Ltac open_index p :=
  repeat match goal with
         | |- context [index p ?i] =>
             destruct (index p i) as [? |]; cbn [res_map res_bind]; try reflexivity
         end.

Ltac close_box :=
  cbn [res_map res_bind];
  try match goal with
      | |- context [String.eqb ?t "eyelid"] => destruct (String.eqb t "eyelid")
      end;
  unfold translate_box, move, px, py;
  cbn [fst snd top_left bottom_left top_right bottom_right];
  apply box_eq; lia.

(** The box follows the face: sideways for every method, and in any
    direction for the methods that take one side. *)
Lemma get_face_points_translate dx dy p method top :
  dy = 0 \/ method = "left" \/ method = "right" ->
  get_face_points (translate dx dy p) method top
  = res_map (translate_box dx dy) (get_face_points p method top).
Proof.
  intros Hcase. unfold get_face_points, top_points.
  rewrite !index_translate.
  destruct (String.eqb top "eyebrow") eqn:Ebrow;
    [| destruct (String.eqb top "eyelid") eqn:Elid]; open_index p.
  all: destruct (String.eqb_spec method "left") as [| Hl];
    [| destruct (String.eqb_spec method "right") as [| Hr]].
  all: try close_box.
  all: destruct Hcase as [-> | [? | ?]]; try contradiction.
  all: rewrite !py_move_level.
  all: repeat match goal with
         | |- context [int_average ?a ?b] =>
             destruct (int_average a b) as [? |]; cbn [res_map res_bind];
             try reflexivity
         end.
  all: close_box.
Qed.

(** X5: the ratio of a face does not depend on where the face is in the
    picture horizontally, and with method left or right not on where it
    is vertically either: [FWHR_calc] of [get_face_points] gives the same
    float, or raises the same exception, on the moved face. *)
Theorem X5_ratio_ignores_position (p : list point) (method top : string) (dx dy : Z) :
  fwh_ratio_of (translate dx 0 p) method top = fwh_ratio_of p method top /\
  (method = "left" \/ method = "right" ->
   fwh_ratio_of (translate dx dy p) method top = fwh_ratio_of p method top).
Proof.
  unfold fwh_ratio_of. split.
  - rewrite (get_face_points_translate dx 0 p method top) by (left; reflexivity).
    destruct (get_face_points p method top) as [box |]; cbn [res_map res_bind];
      [apply FWHR_calc_translate | reflexivity].
  - intros Hside.
    rewrite (get_face_points_translate dx dy p method top) by (right; exact Hside).
    destruct (get_face_points p method top) as [box |]; cbn [res_map res_bind];
      [apply FWHR_calc_translate | reflexivity].
Qed.

Lemma X5_ratio_ignores_position_witness :
  fwh_ratio_of (translate 300 (-20) frontal_face) "right" "eyelid"
  = fwh_ratio_of frontal_face "right" "eyelid".
Proof.
  apply (X5_ratio_ignores_position frontal_face "right" "eyelid" 300 (-20)).
  right. reflexivity.
Defined.

End RatioExtras.

(** * Further properties of loading, [get_fwhr] and the batch *)

Section LoadExtras.

Context `{External}.

Lemma load_image_fetch path w :
  (exists pre, path = (pre ++ "jpg")%string) \/
  (exists pre, path = (pre ++ "png")%string) ->
  load_image path true w
  = io_bind (urlretrieve path "tmp.jpg") (fun _ => load_image_file "tmp.jpg") w.
Proof.
  intros Hacc. unfold load_image. cbn [negb].
  pose proof (last_chars_eqb path "jpg") as Hjpg.
  pose proof (last_chars_eqb path "png") as Hpng.
  change (String.length "jpg") with 3%nat in Hjpg.
  change (String.length "png") with 3%nat in Hpng.
  destruct (String.eqb (last_chars 3 path) "jpg") eqn:Ej; [reflexivity |].
  destruct (String.eqb (last_chars 3 path) "png") eqn:Ep; [reflexivity |].
  destruct Hacc as [Hacc | Hacc].
  - apply Hjpg in Hacc. discriminate Hacc.
  - apply Hpng in Hacc. discriminate Hacc.
Qed.

(** Writing twice to one path leaves what the second write alone
    leaves. *)
Lemma write_file_twice path f g w :
  write_file path g (write_file path f w) = write_file path g w.
Proof.
  unfold write_file. cbn [web disk dirs].
  rewrite lookup_insert_eq, insert_insert_eq. reflexivity.
Qed.



(** X8: the temporary file is shared: of two successive loads of
    accepted URLs that the web serves, only the second is left in
    [tmp.jpg], and the world is the one the second load alone would
    leave. *)
Theorem X8_second_url_load_overwrites_first (u1 u2 : string) (f1 f2 : file) (w : world) :
  (exists pre, u1 = (pre ++ "jpg")%string) \/ (exists pre, u1 = (pre ++ "png")%string) ->
  (exists pre, u2 = (pre ++ "jpg")%string) \/ (exists pre, u2 = (pre ++ "png")%string) ->
  web w !! u1 = Some f1 -> web w !! u2 = Some f2 ->
  snd (load_image u2 true (snd (load_image u1 true w))) = snd (load_image u2 true w) /\
  disk (snd (load_image u2 true (snd (load_image u1 true w)))) !! "tmp.jpg" = Some f2.
Proof.
  intros Ha1 Ha2 Hw1 Hw2.
  assert (Hstep : forall u f w0,
             ((exists pre, u = (pre ++ "jpg")%string) \/
              (exists pre, u = (pre ++ "png")%string)) ->
             web w0 !! u = Some f ->
             snd (load_image u true w0) = write_file "tmp.jpg" f w0).
  { intros u f w0 Ha Hw0. rewrite (load_image_fetch u w0 Ha).
    unfold io_bind, urlretrieve. rewrite Hw0. apply load_image_file_world. }
  rewrite (Hstep u1 f1 w Ha1 Hw1).
  rewrite (Hstep u2 f2 w Ha2 Hw2).
  rewrite (Hstep u2 f2 (write_file "tmp.jpg" f1 w) Ha2 Hw2).
  rewrite write_file_twice.
  split; [reflexivity | apply lookup_insert_eq].
Qed.

End LoadExtras.

Section BatchExtras.

Context `{External}.

(** X10: [get_fwhr] on a local image looks at the first face the
    detector reports and at no other: with no face at all it raises
    [IndexError], and otherwise (with [show=False]) it returns the ratio
    of the first face when that face passes the gate, [None] when it
    fails, and raises what the gate or the ratio raise; the world is left
    as it is. *)
Theorem X10_only_the_first_face_counts
  (path method top : string) (w : world) (img : image) :
  disk w !! path = Some (ImageFile img) ->
  (raw_face_landmarks img = [] ->
   forall show, get_fwhr path false show method top w = (Raise IndexError, w)) /\
  (forall face others,
      raw_face_landmarks img = face :: others ->
      get_fwhr path false false method top w
      = (match good_picture_check face false with
         | Ok true => res_map Some (fwh_ratio_of face method top)
         | Ok false => Ok None
         | Raise e => Raise e
         end, w)).
Proof.
  intros Hdisk.
  unfold get_fwhr, load_image, load_image_file, io_bind, io_lift, io_ret.
  cbn [negb]. rewrite Hdisk. split.
  - intros ->. reflexivity.
  - intros face others ->. cbn [first_face]. unfold fwh_ratio_of.
    destruct (good_picture_check face false) as [[] | e]; try reflexivity.
    destruct (get_face_points face method top) as [corners | e]; cbn [res_bind res_map];
      [| reflexivity].
    destruct (FWHR_calc corners); reflexivity.
Qed.

(** X11: with [show=True] [get_fwhr] never hands the ratio back: it
    returns [None] whenever the call with [show=False] returns anything,
    raises whatever that call raises, and leaves the same world. *)
Theorem X11_show_returns_nothing (image_path : string) (url : bool)
  (method top : string) (w : world) :
  get_fwhr image_path url true method top w
  = (match fst (get_fwhr image_path url false method top w) with
     | Ok _ => Ok None
     | Raise e => Raise e
     end,
     snd (get_fwhr image_path url false method top w)).
Proof.
  unfold get_fwhr, io_bind, io_lift, io_ret.
  destruct (load_image image_path url w) as [[img | e] w']; [| reflexivity].
  destruct (first_face (raw_face_landmarks img)) as [face | e]; [| reflexivity].
  destruct (good_picture_check face false) as [[] | e]; try reflexivity.
  destruct (get_face_points face method top) as [corners | e]; [| reflexivity].
  destruct (FWHR_calc corners); reflexivity.
Qed.

(** X12: the loop of [get_fwhr_bulk] passes over every name that does
    not end in [.jpg] or [.png]: on a listing it does what it does on the
    image names of that listing alone. *)
Theorem X12_batch_skips_other_files (folder_path : string) (files : list string)
  (image_data : list row) (w : world) :
  bulk_loop folder_path files image_data w
  = bulk_loop folder_path (List.filter is_image_name files) image_data w.
Proof.
  revert image_data w. induction files as [| filename files IH]; intros image_data w.
  - reflexivity.
  - cbn [bulk_loop List.filter]. destruct (is_image_name filename) eqn:E.
    + cbn [bulk_loop]. rewrite E. unfold io_bind.
      destruct (get_fwhr (folder_path ++ filename) false false "average" "eyelid" w)
        as [[ratio | e] w']; [apply IH | reflexivity].
    + apply IH.
Qed.

(** X13: a name counts as an image exactly when it ends in the four
    characters [.jpg] or [.png], in that case of letters. *)
Theorem X13_image_names (filename : string) :
  is_image_name filename = true <->
  (exists pre, filename = (pre ++ ".jpg")%string) \/
  (exists pre, filename = (pre ++ ".png")%string).
Proof.
  unfold is_image_name, endswith. rewrite orb_true_iff.
  rewrite (last_chars_eqb filename ".jpg"), (last_chars_eqb filename ".png").
  reflexivity.
Qed.

Lemma bulk_loop_prefix w folder before rest : forall image_data,
  (forall f, In f before -> is_image_name f = true -> exists r, batch_row w folder f r) ->
  exists new,
    bulk_loop folder (before ++ rest) image_data w
    = bulk_loop folder rest (image_data ++ new) w.
Proof.
  induction before as [| filename before IH]; intros image_data Hall.
  - exists []. rewrite app_nil_r. reflexivity.
  - cbn [app bulk_loop]. destruct (is_image_name filename) eqn:E.
    + destruct (Hall filename (or_introl eq_refl) E) as [r Hr].
      unfold io_bind. rewrite (get_fwhr_batch_row w folder filename r Hr).
      destruct (IH (image_data ++ [(filename, snd r)])) as [new Hnew].
      { intros f Hin. apply Hall. right. exact Hin. }
      exists ((filename, snd r) :: new). rewrite Hnew, <- app_assoc. reflexivity.
    + apply IH. intros f Hin. apply Hall. right. exact Hin.
Qed.

(** X14: the batch does not isolate failures: a folder that cannot be
    listed ends the run in the exception of the listing, and the first
    image file whose [get_fwhr] raises ends it in that exception; either
    way no file is written and no listing changes, whatever [sort_by]
    is, and the files after the failing one are not looked at. *)
Theorem X14_one_bad_file_aborts_the_batch (folder_path sort_by : string) (w : world) :
  (dirs w !! folder_path = None ->
   get_fwhr_bulk folder_path sort_by w = (Raise (listdir_error folder_path), w)) /\
  (forall before bad after e,
      dirs w !! folder_path = Some (before ++ bad :: after) ->
      (forall f, In f before -> is_image_name f = true ->
                 exists r, batch_row w folder_path f r) ->
      is_image_name bad = true ->
      fst (get_fwhr (folder_path ++ bad) false false "average" "eyelid" w) = Raise e ->
      get_fwhr_bulk folder_path sort_by w = (Raise e, w)).
Proof.
  split.
  - intros Hdir. unfold get_fwhr_bulk, collect_image_data, io_bind, listdir.
    rewrite Hdir. reflexivity.
  - intros before bad after e Hdir Hall Himg Hbad.
    unfold get_fwhr_bulk, collect_image_data, io_bind, listdir. rewrite Hdir.
    destruct (bulk_loop_prefix w folder_path before (bad :: after) [] Hall)
      as [new ->].
    cbn [bulk_loop]. rewrite Himg. unfold io_bind.
    pose proof (get_fwhr_local_world (folder_path ++ bad) false "average" "eyelid" w) as Hw.
    destruct (get_fwhr (folder_path ++ bad) false false "average" "eyelid" w)
      as [[ratio | e'] w']; cbn [fst snd] in Hbad, Hw; subst w'; [discriminate Hbad |].
    injection Hbad as ->. reflexivity.
Qed.

(** X15: a folder that lists no image name is no error: with a valid
    [sort_by] the run writes the table with its two column names and no
    row. *)
Theorem X15_no_images_gives_an_empty_table (folder_path sort_by : string) (w : world)
  (files : list string) :
  (forall by_column table, Permutation (sort_values by_column table) table) ->
  dirs w !! folder_path = Some files ->
  (forall f, In f files -> is_image_name f = false) ->
  sort_by = "filename" \/ sort_by = "ratio" ->
  get_fwhr_bulk folder_path sort_by w
  = (Ok tt,
     write_file (folder_path ++ "fwhr_ratios.csv")%string
       (CsvFile {| columns := ["Filename"; "Ratio"]; rows := [] |}) w).
Proof.
  intros Hsort Hdir Hnone Hby.
  assert (Hloop : forall image_data, bulk_loop folder_path files image_data w
                                     = (Ok image_data, w)).
  { clear Hdir. induction files as [| f files IH]; intros image_data; [reflexivity |].
    cbn [bulk_loop]. rewrite (Hnone f (or_introl eq_refl)).
    apply IH. intros g Hg. apply Hnone. right. exact Hg. }
  unfold get_fwhr_bulk, collect_image_data, io_bind, listdir.
  rewrite Hdir, Hloop.
  assert (Hnil : forall by_column, sort_values by_column [] = []).
  { intros by_column. apply Permutation_nil. apply Permutation_sym. apply Hsort. }
  destruct Hby as [-> | ->]; cbn [String.eqb Ascii.eqb Bool.eqb rows columns io_ret to_csv];
    rewrite Hnil; reflexivity.
Qed.

End BatchExtras.

Section ExtraRuns.

Local Existing Instance sample_libraries.

Lemma X8_second_url_load_overwrites_first_witness :
  disk (snd (load_image "http://example.org/other.jpg" true
               (snd (load_image "http://example.org/face.png" true second_world))))
    !! "tmp.jpg"
  = Some (picture [turned_face]).
Proof.
  apply (X8_second_url_load_overwrites_first
           "http://example.org/face.png" "http://example.org/other.jpg"
           (picture [frontal_face]) (picture [turned_face]) second_world).
  - right. exists "http://example.org/face.". reflexivity.
  - left. exists "http://example.org/other.". reflexivity.
  - reflexivity.
  - reflexivity.
Defined.

Lemma X10_only_the_first_face_counts_witness :
  disk sample_world !! "./images/b.png" = Some (picture [turned_face; frontal_face]) /\
  get_fwhr "./images/b.png" false false "average" "eyelid" sample_world
  = (Ok None, sample_world) /\
  get_fwhr "./empty/wall.jpg" false false "average" "eyelid" sample_world
  = (Raise IndexError, sample_world).
Proof.
  assert (Hb : disk sample_world !! "./images/b.png"
               = Some (picture [turned_face; frontal_face]))
    by (reflexivity).
  assert (Hwall : disk sample_world !! "./empty/wall.jpg" = Some (picture []))
    by (reflexivity).
  split; [exact Hb |]. split.
  - destruct (X10_only_the_first_face_counts "./images/b.png" "average" "eyelid"
                sample_world [turned_face; frontal_face] Hb) as [_ Hfirst].
    rewrite (Hfirst turned_face [frontal_face] eq_refl).
    reflexivity.
  - destruct (X10_only_the_first_face_counts "./empty/wall.jpg" "average" "eyelid"
                sample_world [] Hwall) as [Hnone _].
    apply Hnone. reflexivity.
Defined.

Lemma X14_one_bad_file_aborts_the_batch_witness :
  dirs second_world !! "./mixed/" = Some (["a.jpg"] ++ "blank.jpg" :: ["c.png"]) /\
  get_fwhr_bulk "./mixed/" "ratio" second_world = (Raise IndexError, second_world) /\
  get_fwhr_bulk "./nowhere/" "ratio" second_world
  = (Raise (listdir_error "./nowhere/"), second_world).
Proof.
  assert (Hdir : dirs second_world !! "./mixed/"
                 = Some (["a.jpg"] ++ "blank.jpg" :: ["c.png"]))
    by (reflexivity).
  destruct (X14_one_bad_file_aborts_the_batch "./mixed/" "ratio" second_world)
    as [_ Hbad].
  destruct (X14_one_bad_file_aborts_the_batch "./nowhere/" "ratio" second_world)
    as [Hlist _].
  split; [exact Hdir |]. split; [| apply Hlist; reflexivity].
  apply (Hbad ["a.jpg"] "blank.jpg" ["c.png"] IndexError Hdir).
  - intros f [<- | []] _.
    eexists ("a.jpg", _). split; [reflexivity |].
    exists [frontal_face], frontal_face, [].
    split; [reflexivity |]. split; [reflexivity |]. right.
    split; [reflexivity |].
    eexists. eexists. split; [reflexivity |].
    split; [reflexivity | reflexivity].
  - reflexivity.
  - reflexivity.
Defined.

Lemma X15_no_images_gives_an_empty_table_witness :
  disk (snd (get_fwhr_bulk "./docs/" "filename" second_world)) !! "./docs/fwhr_ratios.csv"
  = Some (CsvFile {| columns := ["Filename"; "Ratio"]; rows := [] |}).
Proof.
  rewrite (X15_no_images_gives_an_empty_table "./docs/" "filename" second_world
             ["notes.txt"; "README"; "photo.JPG"]).
  - reflexivity.
  - intros by_column table. apply Permutation_refl.
  - reflexivity.
  - intros f [<- | [<- | [<- | []]]]; reflexivity.
  - left. reflexivity.
Defined.

End ExtraRuns.

(** * Signs, exact tests and the direction of the gate *)

Section SignExtras.

Import Py Binary64 Rounding.

Lemma quot2_abs a : Z.abs (Z.quot a 2) <= Z.abs a.
Proof.
  destruct (Z.le_gt_cases 0 a) as [Hnn | Hneg].
  - rewrite Z.quot_div_nonneg by lia.
    pose proof (Z.div_pos a 2 Hnn ltac:(lia)).
    pose proof (Z.div_le_upper_bound a 2 a ltac:(lia) ltac:(lia)). lia.
  - replace a with (- (- a)) by lia. rewrite Z.quot_opp_l by lia.
    rewrite Z.quot_div_nonneg by lia.
    pose proof (Z.div_pos (- a) 2 ltac:(lia) ltac:(lia)).
    pose proof (Z.div_le_upper_bound (- a) 2 (- a) ltac:(lia) ltac:(lia)). lia.
Qed.

Lemma combine_bound method l r :
  pixel l -> pixel r -> Z.abs (combine method l r) < 2 ^ 53.
Proof.
  unfold pixel, combine. intros Hl Hr.
  assert (2 ^ 53 = 2 * 2 ^ 52) by reflexivity.
  destruct (String.eqb method "left"); [lia |].
  destruct (String.eqb method "right"); [lia |].
  pose proof (quot2_abs (l + r)). lia.
Qed.

Lemma float_truediv_sign k sx sy x y :
  0 <= k <= 250 -> bounded_float k sx x -> bounded_float k sy y ->
  exists m e, float_truediv x y = Ok (S754_finite (xorb sx sy) m e).
Proof.
  intros Hk Hx Hy.
  destruct (SFdiv_bounded k sx sy x y Hk Hx Hy) as (m & e & Hq & _).
  destruct Hy as (my & ey & -> & _).
  unfold float_truediv. cbn [is_zero]. rewrite Hq. eauto.
Qed.

Lemma bounded_float_weaken k k' s x :
  k <= k' -> bounded_float k s x -> bounded_float k' s x.
Proof. intros Hk (m & e & -> & He & HL). exists m, e. split; [reflexivity | lia]. Qed.

(** X6: on a LandmarkSet the ratio is always a finite float with the
    sign of width times height: a box of no height raises
    [ZeroDivisionError], a box of no width gives a zero, and every other
    box a non-zero finite float that is negative exactly when the width
    and the height have opposite signs. *)
Theorem X6_ratio_is_finite_and_signed (p : list point) (method top : string) :
  LandmarkSet p -> top = "eyebrow" \/ top = "eyelid" ->
  let width := px (landmark p 16) - px (landmark p 0) in
  let top_y := combine method (py (landmark p (fst (top_indices top))))
                 (py (landmark p (snd (top_indices top)))) - top_shift top in
  let bottom_y := combine method (py (landmark p 50)) (py (landmark p 52)) in
  let height := bottom_y - top_y in
  (height = 0 -> fwh_ratio_of p method top = Raise ZeroDivisionError) /\
  (height <> 0 -> width = 0 ->
   fwh_ratio_of p method top = Ok (S754_zero (height <? 0))) /\
  (height <> 0 -> width <> 0 ->
   exists m e,
     fwh_ratio_of p method top
     = Ok (S754_finite (xorb (width <? 0) (height <? 0)) m e)).
Proof.
  intros Hp Htop width top_y bottom_y height.
  unfold fwh_ratio_of. rewrite (get_face_points_box p method top Hp Htop).
  cbn [res_bind]. unfold FWHR_calc.
  cbn [top_right top_left bottom_left px py fst snd].
  fold width. fold top_y. fold bottom_y. fold height.
  destruct (index_landmark p 0 Hp ltac:(lia)) as (_ & Hx0 & _).
  destruct (index_landmark p 16 Hp ltac:(lia)) as (_ & Hx16 & _).
  destruct (index_landmark p 50 Hp ltac:(lia)) as (_ & _ & Hy50).
  destruct (index_landmark p 52 Hp ltac:(lia)) as (_ & _ & Hy52).
  destruct (top_indices_range top) as [Hi Hj].
  destruct (index_landmark p _ Hp Hi) as (_ & _ & Htl).
  destruct (index_landmark p _ Hp Hj) as (_ & _ & Htr).
  pose proof (combine_bound method _ _ Htl Htr) as Hct.
  pose proof (combine_bound method _ _ Hy50 Hy52) as Hcb.
  assert (Hshift : 0 <= top_shift top <= 4).
  { unfold top_shift. destruct (String.eqb top "eyelid"); lia. }
  assert (Hw : Z.abs width < 2 ^ 62).
  { pose proof (pixel_diff _ _ Hx16 Hx0) as Hd. fold width in Hd.
    assert (2 ^ 53 < 2 ^ 62) by (apply Z.pow_lt_mono_r; lia). lia. }
  assert (Hh : Z.abs height < 2 ^ 62).
  { subst height top_y bottom_y.
    assert (2 ^ 62 = 512 * 2 ^ 53) by reflexivity.
    pose proof (pow2_pos 53 ltac:(lia)). lia. }
  split; [| split].
  - intros Hzero. rewrite Hzero.
    destruct (float_of_int_ok width) as [w ->].
    { assert (2 ^ 62 < 2 ^ 1023) by (apply Z.pow_lt_mono_r; lia). lia. }
    reflexivity.
  - intros Hne Hwz. rewrite Hwz.
    destruct (float_of_int_bounded height Hne Hh) as (h & -> & (mh & eh & -> & _)).
    reflexivity.
  - intros Hne Hwne.
    destruct (float_of_int_bounded width Hwne Hw) as (w & -> & Hbw).
    destruct (float_of_int_bounded height Hne Hh) as (h & -> & Hbh).
    cbn [res_bind].
    apply (float_truediv_sign 63 _ _ w h ltac:(lia) Hbw Hbh).
Qed.

Lemma X6_ratio_is_finite_and_signed_witness :
  exists m e, fwh_ratio_of frontal_face "average" "eyelid" = Ok (S754_finite false m e).
Proof.
  pose proof (X6_ratio_is_finite_and_signed frontal_face "average" "eyelid") as HX.
  cbv zeta in HX.
  destruct HX as (_ & _ & Hfin).
  - apply landmark_setb_true. vm_compute. reflexivity.
  - right. reflexivity.
  - apply Hfin; vm_compute; intros Hc; discriminate Hc.
Defined.


Lemma binary_round_bounded s p ex :
  -100 <= ex <= 60 -> Zdigits2 (Zpos p) <= 185 ->
  bounded_float 250 s (binary_round prec emax s p ex).
Proof.
  intros Hex Hd. unfold binary_round.
  pose proof (shl_align_spec p ex (fexp (Zpos (digits2_pos p) + ex))) as H.
  cbv zeta in H.
  destruct (shl_align p ex (fexp (Zpos (digits2_pos p) + ex))) as [mz ez].
  cbn [fst snd] in H. destruct H as (Hez & Hmz & Hdig).
  pose proof (Zdigits2_pos (Zpos p) ltac:(lia)) as Hd0.
  change (Zpos (digits2_pos p)) with (Zdigits2 (Zpos p)) in Hez.
  rewrite fexp_eq in Hez.
  destruct (binary_round_aux_spec s (Zpos mz) ez loc_Exact ltac:(lia) ltac:(lia))
    as (m & e & Hres & He & Hdg & _).
  rewrite Hdig in He, Hdg. rewrite !fexp_eq in *.
  assert (Hfin : e <= emax - prec) by (unfold emax, prec; lia).
  apply Z.leb_le in Hfin. rewrite Hfin in Hres.
  exists m, e. split; [exact Hres |]. lia.
Qed.

(** The difference of two finite floats of moderate size: zero when
    their values are equal, and otherwise a finite float with the sign of
    the difference of the values. *)
Lemma SFsub_finite_sign sx mx ex sy my ey :
  -60 <= ex <= 60 -> -60 <= ey <= 60 ->
  Zdigits2 (Zpos mx) <= 60 -> Zdigits2 (Zpos my) <= 60 ->
  let ez := Z.min ex ey in
  let D := cond_Zopp sx (Zpos mx * 2 ^ (ex - ez)) - cond_Zopp sy (Zpos my * 2 ^ (ey - ez)) in
  (D = 0 -> float_sub (S754_finite sx mx ex) (S754_finite sy my ey) = S754_zero false) /\
  (D <> 0 ->
   bounded_float 250 (D <? 0) (float_sub (S754_finite sx mx ex) (S754_finite sy my ey))).
Proof.
  intros Hex Hey Hdx Hdy ez D. unfold float_sub. cbn [SFsub]. fold ez.
  pose proof (shl_align_spec mx ex ez) as Hx. cbv zeta in Hx.
  pose proof (shl_align_spec my ey ez) as Hy. cbv zeta in Hy.
  destruct Hx as (Hxe & Hxm & _). destruct Hy as (Hye & Hym & _).
  rewrite Hxm, Hym. rewrite Hxe, Hye.
  replace (Z.min ex ez) with ez by (subst ez; lia).
  replace (Z.min ey ez) with ez by (subst ez; lia).
  fold D.
  assert (Hbx : Zpos mx * 2 ^ (ex - ez) < 2 ^ 180).
  { pose proof (Zdigits2_bounds (Zpos mx) ltac:(lia)) as [_ Hu].
    assert (2 ^ Zdigits2 (Zpos mx) <= 2 ^ 60) by (apply Z.pow_le_mono_r; lia).
    assert (2 ^ (ex - ez) <= 2 ^ 120) by (apply Z.pow_le_mono_r; subst ez; lia).
    pose proof (pow2_pos (ex - ez) ltac:(subst ez; lia)).
    change (2 ^ 180) with (2 ^ 60 * 2 ^ 120). nia. }
  assert (Hby : Zpos my * 2 ^ (ey - ez) < 2 ^ 180).
  { pose proof (Zdigits2_bounds (Zpos my) ltac:(lia)) as [_ Hu].
    assert (2 ^ Zdigits2 (Zpos my) <= 2 ^ 60) by (apply Z.pow_le_mono_r; lia).
    assert (2 ^ (ey - ez) <= 2 ^ 120) by (apply Z.pow_le_mono_r; subst ez; lia).
    pose proof (pow2_pos (ey - ez) ltac:(subst ez; lia)).
    change (2 ^ 180) with (2 ^ 60 * 2 ^ 120). nia. }
  assert (Hpx : 0 < Zpos mx * 2 ^ (ex - ez)).
  { apply Z.mul_pos_pos; [lia | apply pow2_pos; subst ez; lia]. }
  assert (Hpy : 0 < Zpos my * 2 ^ (ey - ez)).
  { apply Z.mul_pos_pos; [lia | apply pow2_pos; subst ez; lia]. }
  assert (HD : Z.abs D < 2 ^ 181).
  { subst D. change (2 ^ 181) with (2 * 2 ^ 180).
    destruct sx, sy; cbn [cond_Zopp]; lia. }
  clearbody D. split.
  - intros ->. reflexivity.
  - intros HDne. unfold binary_normalize.
    assert (Hdig : forall p, Z.abs (Zpos p) < 2 ^ 181 -> Zdigits2 (Zpos p) <= 185).
    { intros p Hp. apply Z.le_trans with 181; [| lia].
      apply Zdigits2_le; lia. }
    destruct D as [| p | p]; [lia | |]; cbn [Z.ltb Z.compare];
      (apply binary_round_bounded; [subst ez; lia | apply Hdig; exact HD]).
Qed.


(** A 53-digit mantissa in range is already rounded. *)
Lemma binary_round_aux_canonical s P ez :
  Zpos (digits2_pos P) = 53 -> -1074 <= ez <= 971 ->
  binary_round_aux prec emax s (Zpos P) ez loc_Exact = S754_finite s P ez.
Proof.
  intros HP He. unfold binary_round_aux.
  assert (E2 : shr_fexp prec emax (Zpos P) ez loc_Exact
               = ({| shr_m := Zpos P; shr_r := false; shr_s := false |}, ez)).
  { unfold shr_fexp. cbn [Zdigits2]. rewrite HP.
    replace (fexp (53 + ez) - ez) with 0 by (rewrite fexp_eq; lia).
    reflexivity. }
  rewrite E2. cbn [shr_m loc_of_shr_record round_nearest_even].
  rewrite E2. cbn [shr_m].
  replace (ez <=? emax - prec) with true; [reflexivity |].
  symmetry. apply Z.leb_le. unfold emax, prec. lia.
Qed.

(** An int of at most 53 bits converts without rounding. *)
Lemma binary_round_exact s p :
  Zdigits2 (Zpos p) <= 53 ->
  let d := Zdigits2 (Zpos p) in
  binary_round prec emax s p 0
  = S754_finite s (Z.to_pos (Zpos p * 2 ^ (53 - d))) (d - 53).
Proof.
  intros Hd d. unfold binary_round.
  pose proof (shl_align_spec p 0 (fexp (Zpos (digits2_pos p) + 0))) as H.
  cbv zeta in H.
  destruct (shl_align p 0 (fexp (Zpos (digits2_pos p) + 0))) as [mz ez].
  cbn [fst snd] in H. destruct H as (Hez & Hmz & Hdig).
  pose proof (Zdigits2_pos (Zpos p) ltac:(lia)) as Hd0.
  change (Zpos (digits2_pos p)) with (Zdigits2 (Zpos p)) in Hez.
  fold d in Hez, Hdig, Hd0, Hd. rewrite fexp_eq in Hez.
  assert (Eez : ez = d - 53) by lia.
  rewrite binary_round_aux_canonical.
  - f_equal; [| exact Eez]. apply Pos2Z.inj. rewrite Hmz.
    replace (0 - ez) with (53 - d) by lia.
    rewrite Z2Pos.id; [reflexivity |].
    apply Z.mul_pos_pos; [lia | apply pow2_pos; lia].
  - change (Zpos (digits2_pos mz)) with (Zdigits2 (Zpos mz)). lia.
  - lia.
Qed.

Lemma float_of_int_exact z :
  z <> 0 -> Z.abs z < 2 ^ 53 ->
  let d := Zdigits2 (Z.abs z) in
  float_of_int z
  = Ok (S754_finite (z <? 0) (Z.to_pos (Z.abs z * 2 ^ (53 - d))) (d - 53)).
Proof.
  intros Hz Hb d. unfold float_of_int, binary_normalize.
  destruct z as [| p | p]; [lia | |];
    cbn [Z.abs Z.ltb Z.compare] in *;
    rewrite binary_round_exact by (apply Zdigits2_le; lia);
    reflexivity.
Qed.

(** Dividing a 53-digit float by [2.0] lowers its exponent by one. *)
Lemma halve_exact s M E :
  Zdigits2 (Zpos M) = 53 -> -60 <= E <= 60 ->
  SFdiv prec emax (S754_finite s M E) lit_2_0 = S754_finite s M (E - 1).
Proof.
  intros HM HE. unfold lit_2_0. cbn [SFdiv].
  destruct (div_core_spec M E 4503599627370496 (-51)) as (Hcore & _).
  { rewrite HM. change (Zdigits2 4503599627370496) with 53. lia. }
  rewrite HM in Hcore. change (Zdigits2 4503599627370496) with 53 in Hcore.
  replace (Z.min (fexp (53 + E - (53 + -51))) (E - -51)) with (E - 2) in Hcore
    by (rewrite fexp_eq; lia).
  replace (E - -51 - (E - 2)) with 53 in Hcore by lia.
  assert (Hq : Zpos M * 2 ^ 53 / 4503599627370496 = Zpos M~0).
  { change (2 ^ 53) with (2 * 4503599627370496). rewrite Z.mul_assoc.
    rewrite Z.div_mul by lia. lia. }
  assert (Hr : (Zpos M * 2 ^ 53) mod 4503599627370496 = 0).
  { change (2 ^ 53) with (2 * 4503599627370496). rewrite Z.mul_assoc.
    apply Z.mod_mul. lia. }
  rewrite Hq, Hr in Hcore.
  rewrite new_location_zero in Hcore.
  rewrite Hcore. rewrite xorb_false_r.
  replace (E - 1) with (E - 2 + 1) by lia.
  apply binary_round_aux_even; [exact HM | lia].
Qed.

(** [n / 2.0] for an int of at most 53 bits. *)
Lemma int_float_halve z :
  z <> 0 -> Z.abs z < 2 ^ 53 ->
  let d := Zdigits2 (Z.abs z) in
  int_float_truediv z lit_2_0
  = Ok (S754_finite (z <? 0) (Z.to_pos (Z.abs z * 2 ^ (53 - d))) (d - 54)).
Proof.
  intros Hz Hb d. unfold int_float_truediv.
  rewrite (float_of_int_exact z Hz Hb). fold d. cbn [res_bind].
  unfold float_truediv. change (is_zero lit_2_0) with false. cbv iota.
  pose proof (Zdigits2_pos (Z.abs z) ltac:(lia)) as Hd0. fold d in Hd0.
  pose proof (Zdigits2_le (Z.abs z) 53 ltac:(lia) Hb ltac:(lia)) as Hd. fold d in Hd.
  pose proof (Zdigits2_bounds (Z.abs z) ltac:(lia)) as [Hl Hu]. fold d in Hl, Hu.
  assert (HPpos : 0 < Z.abs z * 2 ^ (53 - d)).
  { apply Z.mul_pos_pos; [lia | apply pow2_pos; lia]. }
  rewrite halve_exact.
  - do 2 f_equal. lia.
  - rewrite Z2Pos.id by assumption.
    apply Zdigits2_unique; [| lia].
    pose proof (pow2_pos (53 - d) ltac:(lia)) as Hp.
    assert (E1 : 2 ^ (53 - 1) = 2 ^ (d - 1) * 2 ^ (53 - d)).
    { rewrite <- Z.pow_add_r by lia. f_equal. lia. }
    assert (E2 : 2 ^ 53 = 2 ^ d * 2 ^ (53 - d)).
    { rewrite <- Z.pow_add_r by lia. f_equal. lia. }
    rewrite E1, E2. split.
    + apply Z.mul_le_mono_nonneg_r; lia.
    + apply Z.mul_lt_mono_pos_r; lia.
  - lia.
Qed.

Lemma cond_Zopp_abs z k : cond_Zopp (z <? 0) (Z.abs z * k) = z * k.
Proof.
  destruct (Z.ltb_spec z 0); cbn [cond_Zopp]; lia.
Qed.

(** The difference of two halved ints: zero when they are equal, and
    otherwise a finite float that is negative exactly when the first is
    the smaller. *)
Lemma halves_sub_sign a b :
  Z.abs a < 2 ^ 53 -> Z.abs b < 2 ^ 53 ->
  exists ya yb,
    int_float_truediv a lit_2_0 = Ok ya /\
    int_float_truediv b lit_2_0 = Ok yb /\
    (b = a -> float_sub yb ya = S754_zero false) /\
    (b <> a -> bounded_float 250 (b <? a) (float_sub yb ya)).
Proof.
  intros Ha Hb.
  assert (Hhalf : forall z, z <> 0 -> Z.abs z < 2 ^ 53 ->
            let d := Zdigits2 (Z.abs z) in
            0 < Z.abs z * 2 ^ (53 - d) /\ 1 <= d <= 53 /\
            Zdigits2 (Z.abs z * 2 ^ (53 - d)) = 53).
  { intros z Hz Hzb d.
    pose proof (Zdigits2_pos (Z.abs z) ltac:(lia)) as Hd0. fold d in Hd0.
    pose proof (Zdigits2_le (Z.abs z) 53 ltac:(lia) Hzb ltac:(lia)) as Hd. fold d in Hd.
    pose proof (Zdigits2_bounds (Z.abs z) ltac:(lia)) as [Hl Hu]. fold d in Hl, Hu.
    pose proof (pow2_pos (53 - d) ltac:(lia)) as Hp.
    split; [apply Z.mul_pos_pos; lia |]. split; [lia |].
    apply Zdigits2_unique; [| lia].
    assert (E1 : 2 ^ (53 - 1) = 2 ^ (d - 1) * 2 ^ (53 - d)).
    { rewrite <- Z.pow_add_r by lia. f_equal. lia. }
    assert (E2 : 2 ^ 53 = 2 ^ d * 2 ^ (53 - d)).
    { rewrite <- Z.pow_add_r by lia. f_equal. lia. }
    rewrite E1, E2. split.
    - apply Z.mul_le_mono_nonneg_r; lia.
    - apply Z.mul_lt_mono_pos_r; lia. }
  destruct (Z.eq_dec a 0) as [-> | Hane]; destruct (Z.eq_dec b 0) as [-> | Hbne].
  - exists (S754_zero false), (S754_zero false).
    repeat split; try reflexivity. intros H. contradiction H. reflexivity.
  - rewrite (int_float_halve b Hbne Hb).
    destruct (Hhalf b Hbne Hb) as (Hpos & Hd & Hdig).
    eexists _, _. split; [reflexivity |]. split; [reflexivity |].
    split; [intros ->; contradiction Hbne; reflexivity |].
    intros _. cbn [float_sub SFsub].
    eexists _, _. split; [reflexivity |].
    rewrite Z2Pos.id by assumption. rewrite Hdig. lia.
  - rewrite (int_float_halve a Hane Ha).
    destruct (Hhalf a Hane Ha) as (Hpos & Hd & Hdig).
    eexists _, _. split; [reflexivity |]. split; [reflexivity |].
    split; [intros H; contradiction Hane; symmetry; exact H |].
    intros _. cbn [float_sub SFsub SFopp].
    eexists _, _. split.
    + f_equal. destruct (Z.ltb_spec a 0), (Z.ltb_spec 0 a); cbn; reflexivity || lia.
    + rewrite Z2Pos.id by assumption. rewrite Hdig. lia.
  - rewrite (int_float_halve a Hane Ha), (int_float_halve b Hbne Hb).
    destruct (Hhalf a Hane Ha) as (Hpa & Hda & Hdiga).
    destruct (Hhalf b Hbne Hb) as (Hpb & Hdb & Hdigb).
    set (da := Zdigits2 (Z.abs a)) in *. set (db := Zdigits2 (Z.abs b)) in *.
    eexists _, _. split; [reflexivity |]. split; [reflexivity |].
    pose proof (SFsub_finite_sign (b <? 0) (Z.to_pos (Z.abs b * 2 ^ (53 - db))) (db - 54)
                  (a <? 0) (Z.to_pos (Z.abs a * 2 ^ (53 - da))) (da - 54)) as Hsub.
    rewrite !Z2Pos.id in Hsub by assumption.
    rewrite Hdiga, Hdigb in Hsub.
    specialize (Hsub ltac:(lia) ltac:(lia) ltac:(lia) ltac:(lia)). cbv zeta in Hsub.
    set (ez := Z.min (db - 54) (da - 54)) in *.
    assert (Eb : Z.abs b * 2 ^ (53 - db) * 2 ^ (db - 54 - ez) = Z.abs b * 2 ^ (- 1 - ez)).
    { rewrite <- Z.mul_assoc, <- Z.pow_add_r by (subst ez; lia). do 2 f_equal. lia. }
    assert (Ea : Z.abs a * 2 ^ (53 - da) * 2 ^ (da - 54 - ez) = Z.abs a * 2 ^ (- 1 - ez)).
    { rewrite <- Z.mul_assoc, <- Z.pow_add_r by (subst ez; lia). do 2 f_equal. lia. }
    rewrite Ea, Eb, !cond_Zopp_abs in Hsub.
    pose proof (pow2_pos (- 1 - ez) ltac:(subst ez; lia)) as Hp.
    destruct Hsub as [Hzero Hnz]. split.
    + intros ->. apply Hzero. lia.
    + intros Hne.
      replace (b <? a) with (b * 2 ^ (-1 - ez) - a * 2 ^ (-1 - ez) <? 0).
      * apply Hnz. nia.
      * destruct (Z.ltb_spec b a), (Z.ltb_spec (b * 2 ^ (-1 - ez) - a * 2 ^ (-1 - ez)) 0);
          try reflexivity; nia.
Qed.

(** The eye test can only fire when the right eye sits lower in the
    image than the left one, seen along the direction of the width. *)
Lemma eye_test_sign p :
  LandmarkSet p -> px (landmark p 16) <> px (landmark p 0) ->
  exists e,
    eye_height_difference p = Ok e /\
    (float_gt e lit_5 = true ->
     0 < (py (landmark p 44) + py (landmark p 46)
          - (py (landmark p 37) + py (landmark p 41)))
         * (px (landmark p 16) - px (landmark p 0))).
Proof.
  intros Hp Hw. unfold eye_height_difference, face_width_scale, average_y.
  destruct (index_landmark p 0 Hp ltac:(lia)) as (-> & Hx0 & _).
  destruct (index_landmark p 16 Hp ltac:(lia)) as (-> & Hx16 & _).
  destruct (index_landmark p 37 Hp ltac:(lia)) as (-> & _ & Hy37).
  destruct (index_landmark p 41 Hp ltac:(lia)) as (-> & _ & Hy41).
  destruct (index_landmark p 44 Hp ltac:(lia)) as (-> & _ & Hy44).
  destruct (index_landmark p 46 Hp ltac:(lia)) as (-> & _ & Hy46).
  cbn [res_bind].
  set (w := px (landmark p 16) - px (landmark p 0)) in *.
  set (a := py (landmark p 37) + py (landmark p 41)) in *.
  set (b := py (landmark p 44) + py (landmark p 46)) in *.
  assert (Hwb : Z.abs w < 2 ^ 62).
  { pose proof (pixel_diff _ _ Hx16 Hx0) as Hd. fold w in Hd.
    assert (2 ^ 53 < 2 ^ 62) by (apply Z.pow_lt_mono_r; lia). lia. }
  destruct (int_truediv_bounded w 100 ltac:(lia) ltac:(lia) Hwb ltac:(cbn; lia))
    as (scale & -> & Hscale).
  cbn [res_bind].
  destruct (halves_sub_sign a b (pixel_sum _ _ Hy37 Hy41) (pixel_sum _ _ Hy44 Hy46))
    as (ya & yb & -> & -> & Hzero & Hnz).
  cbn [res_bind].
  change (100 <? 0) with false in Hscale. rewrite xorb_false_r in Hscale.
  destruct (Z.eq_dec b a) as [Hab | Hab].
  - rewrite (Hzero Hab). destruct Hscale as (ms & es & -> & _).
    eexists. split; [reflexivity |]. intros H. discriminate H.
  - destruct (float_truediv_sign 250 _ _ _ _ ltac:(lia) (Hnz Hab)
                (bounded_float_weaken 184 250 _ _ ltac:(lia) Hscale))
      as (m & e & ->).
    eexists. split; [reflexivity |].
    destruct (Z.ltb_spec b a), (Z.ltb_spec w 0); cbn [xorb];
      intros Hgt; try discriminate Hgt; nia.
Qed.

(** The nose test can only fire when the tip of the nose lies to the
    right of its bridge, seen along the direction of the width. *)
Lemma nose_test_sign p :
  LandmarkSet p -> px (landmark p 16) <> px (landmark p 0) ->
  exists n,
    nose_tilt p = Ok n /\
    (float_gt n lit_3_5 = true ->
     0 < (px (landmark p 30) - px (landmark p 27))
         * (px (landmark p 16) - px (landmark p 0))).
Proof.
  intros Hp Hw. unfold nose_tilt, face_width_scale.
  destruct (index_landmark p 0 Hp ltac:(lia)) as (-> & Hx0 & _).
  destruct (index_landmark p 16 Hp ltac:(lia)) as (-> & Hx16 & _).
  destruct (index_landmark p 30 Hp ltac:(lia)) as (-> & Hx30 & _).
  destruct (index_landmark p 27 Hp ltac:(lia)) as (-> & Hx27 & _).
  cbn [res_bind].
  set (w := px (landmark p 16) - px (landmark p 0)) in *.
  set (dx := px (landmark p 30) - px (landmark p 27)) in *.
  assert (H62 : 2 ^ 53 < 2 ^ 62) by (apply Z.pow_lt_mono_r; lia).
  assert (Hwb : Z.abs w < 2 ^ 62).
  { pose proof (pixel_diff _ _ Hx16 Hx0) as Hd. fold w in Hd. lia. }
  assert (Hdb : Z.abs dx < 2 ^ 62).
  { pose proof (pixel_diff _ _ Hx30 Hx27) as Hd. fold dx in Hd. lia. }
  destruct (int_truediv_bounded w 100 ltac:(lia) ltac:(lia) Hwb ltac:(cbn; lia))
    as (scale & -> & Hscale).
  cbn [res_bind].
  change (100 <? 0) with false in Hscale. rewrite xorb_false_r in Hscale.
  unfold int_float_truediv.
  destruct (Z.eq_dec dx 0) as [Hz | Hnz].
  - rewrite Hz. change (float_of_int 0) with (Ok (S754_zero false)). cbn [res_bind].
    destruct Hscale as (ms & es & -> & _).
    eexists. split; [reflexivity |]. intros H. discriminate H.
  - destruct (float_of_int_bounded dx Hnz Hdb) as (x & -> & Hx). cbn [res_bind].
    destruct (float_truediv_sign 184 _ _ _ _ ltac:(lia)
                (bounded_float_weaken 63 184 _ _ ltac:(lia) Hx) Hscale)
      as (m & e & ->).
    eexists. split; [reflexivity |].
    destruct (Z.ltb_spec dx 0), (Z.ltb_spec w 0); cbn [xorb];
      intros Hgt; try discriminate Hgt; nia.
Qed.

End SignExtras.

Section ExactTests.

Import Py Binary64 Rounding.

(** Dropping at most one binary digit. *)
Lemma round_step_bounds n z :
  n = 0 \/ n = 1 ->
  z - 1 <= z / 2 ^ n * 2 ^ n <= z /\ z + 1 <= (z / 2 ^ n + 1) * 2 ^ n <= z + 2.
Proof.
  intros [-> | ->].
  - change (2 ^ 0) with 1. rewrite Z.div_1_r. lia.
  - change (2 ^ 1) with 2. pose proof (Z.div_mod z 2 ltac:(lia)).
    pose proof (Z.mod_pos_bound z 2 ltac:(lia)). lia.
Qed.

Lemma pow2_multiple_kept n s c :
  n = 0 \/ n = 1 -> 1 <= s -> c * 2 ^ s = c * 2 ^ s / 2 ^ n * 2 ^ n.
Proof.
  intros [-> | ->] Hs.
  - change (2 ^ 0) with 1. rewrite Z.div_1_r. lia.
  - change (2 ^ 1) with 2.
    replace s with (s - 1 + 1) at 1 2 by lia.
    rewrite Z.pow_add_r by lia. change (2 ^ 1) with 2.
    rewrite Z.mul_assoc, Z.div_mul by lia. reflexivity.
Qed.

Lemma round_up_below n s c q :
  n = 0 \/ n = 1 -> 1 <= s -> q < c * 2 ^ s -> (q / 2 ^ n + 1) * 2 ^ n <= c * 2 ^ s.
Proof.
  intros [-> | ->] Hs Hq.
  - change (2 ^ 0) with 1. rewrite Z.div_1_r. lia.
  - change (2 ^ 1) with 2.
    assert (E2 : 2 ^ s = 2 ^ (s - 1) * 2).
    { replace s with (s - 1 + 1) at 1 by lia.
      rewrite Z.pow_add_r by lia. reflexivity. }
    rewrite E2 in *. rewrite Z.mul_assoc in *.
    set (T := c * 2 ^ (s - 1)) in *.
    pose proof (Z.div_mod q 2 ltac:(lia)).
    pose proof (Z.mod_pos_bound q 2 ltac:(lia)). lia.
Qed.

(** What [SFdiv_finite_spec] gives for two positive ints below
    [2 ^ 52]: the scaled quotient [q] has 53 or 54 digits, at most one
    of them is rounded away, and the result has a 53-digit mantissa. *)
Lemma int_quotient_spec pa pb :
  Zpos pa < 2 ^ 52 -> Zpos pb < 2 ^ 52 ->
  let s := 53 + Zdigits2 (Zpos pb) - Zdigits2 (Zpos pa) in
  let q := Zpos pa * 2 ^ s / Zpos pb in
  exists m e n1,
    SFdiv prec emax (S754_finite false pa 0) (S754_finite false pb 0)
    = S754_finite false m e /\
    2 * Zpos pb < 2 ^ s /\ 2 <= s /\
    (n1 = 0 \/ n1 = 1) /\ - s <= e <= 2 - s /\
    2 ^ 52 <= Zpos m < 2 ^ 53 /\
    q / 2 ^ n1 * 2 ^ n1 <= Zpos m * 2 ^ (e + s) <= (q / 2 ^ n1 + 1) * 2 ^ n1 /\
    ((Zpos pa * 2 ^ s) mod Zpos pb = 0 -> q = q / 2 ^ n1 * 2 ^ n1 ->
     Zpos m * 2 ^ (e + s) = q).
Proof.
  intros Ha Hb s q.
  pose proof (Zdigits2_pos (Zpos pa) ltac:(lia)) as Hda0.
  pose proof (Zdigits2_pos (Zpos pb) ltac:(lia)) as Hdb0.
  pose proof (Zdigits2_le (Zpos pa) 52 ltac:(lia) Ha ltac:(lia)) as Hda.
  pose proof (Zdigits2_le (Zpos pb) 52 ltac:(lia) Hb ltac:(lia)) as Hdb.
  pose proof (Zdigits2_bounds (Zpos pb) ltac:(lia)) as [_ Hbu].
  destruct (SFdiv_finite_spec false pa 0 false pb 0 ltac:(lia) ltac:(lia))
    as (m & e & Hres & Hn1 & He & Hdig & Hval & Hex & Hcan).
  set (da := Zdigits2 (Zpos pa)) in *. set (db := Zdigits2 (Zpos pb)) in *.
  assert (Ee' : Z.min (fexp (da + 0 - (db + 0))) (0 - 0) = - s).
  { subst s. rewrite fexp_eq. lia. }
  rewrite Ee' in *.
  replace (0 - 0 - - s) with s in * by lia.
  fold q in Hn1, He, Hval, Hex.
  set (n1 := Z.max 0 (fexp (Zdigits2 q + - s) - - s)) in *.
  assert (Hn1' : n1 = 0 \/ n1 = 1).
  { assert (n1 <= 1) by (apply Hn1; rewrite fexp_eq; lia).
    assert (0 <= n1) by (subst n1; lia). lia. }
  assert (Hs : 2 <= s) by (subst s; lia).
  assert (He' : - s <= e <= 2 - s) by (clearbody n1; lia).
  assert (Hfin : e <= emax - prec) by (unfold emax, prec; lia).
  apply Z.leb_le in Hfin. rewrite Hfin in Hres.
  assert (Hd53 : Zdigits2 (Zpos m) = 53).
  { rewrite fexp_eq in Hcan. clearbody n1. subst s. lia. }
  pose proof (Zdigits2_bounds (Zpos m) ltac:(lia)) as Hm. rewrite Hd53 in Hm.
  exists m, e, n1. split; [exact Hres |].
  split.
  { assert (2 ^ (db + 1) <= 2 ^ s) by (apply Z.pow_le_mono_r; subst s; lia).
    rewrite Z.pow_add_r in * by lia. change (2 ^ 1) with 2 in *. lia. }
  split; [exact Hs |]. split; [exact Hn1' |]. split; [exact He' |].
  split; [exact Hm |].
  replace (e - - s) with (e + s) in * by lia.
  split; [exact Hval | exact Hex].
Qed.

(** [a / b > 3] on two positive ints below [2 ^ 52] is the integer test
    [a > 3 * b]: the rounding of the quotient never crosses [3]. *)
Lemma int_truediv_gt_3 pa pb :
  Zpos pa < 2 ^ 52 -> Zpos pb < 2 ^ 52 ->
  exists x,
    SFdiv prec emax (S754_finite false pa 0) (S754_finite false pb 0) = x /\
    is_infinity x = false /\
    (float_gt x lit_3 = true <-> 3 * Zpos pb < Zpos pa).
Proof.
  intros Ha Hb.
  destruct (int_quotient_spec pa pb Ha Hb)
    as (m & e & n1 & Hres & H2b & Hs & Hn1 & He & Hm & Hval & Hex).
  set (s := 53 + Zdigits2 (Zpos pb) - Zdigits2 (Zpos pa)) in *.
  set (q := Zpos pa * 2 ^ s / Zpos pb) in *.
  exists (S754_finite false m e). split; [exact Hres |]. split; [reflexivity |].
  set (V := Zpos m * 2 ^ (e + s)) in *.
  pose proof (pow2_pos s ltac:(lia)) as HP.
  pose proof (pow2_pos (e + s) ltac:(lia)) as HPe.
  (* the comparison of the two canonical floats is that of their values *)
  assert (Hcmp : float_gt (S754_finite false m e) lit_3 = true <-> 3 * 2 ^ s < V).
  { unfold float_gt, lit_3, SFltb. cbn [SFcompare].
    destruct (Z.compare_spec (-51) e) as [Heq | Hlt | Hgt].
    - change (Pos.compare_cont Eq 6755399441055744 m)
        with (Pos.compare 6755399441055744 m).
      rewrite Pos2Z.inj_compare.
      assert (E3 : 3 * 2 ^ s = 6755399441055744 * 2 ^ (e + s)).
      { subst e. change 6755399441055744 with (3 * 2 ^ 51).
        rewrite <- Z.mul_assoc, <- Z.pow_add_r by lia. do 2 f_equal. lia. }
      rewrite E3. subst V.
      destruct (Z.compare_spec 6755399441055744 (Zpos m)) as [Hc | Hc | Hc];
        split; intros H; try discriminate H; try reflexivity; nia.
    - split; [intros _ | reflexivity]. subst V.
      assert (2 ^ (s + 2) <= 2 ^ (52 + (e + s))) by (apply Z.pow_le_mono_r; lia).
      rewrite !Z.pow_add_r in * by lia.
      change (2 ^ 2) with 4 in *. nia.
    - split; [intros H; discriminate H | intros H; exfalso]. subst V.
      assert (2 ^ (53 + (e + s)) <= 2 ^ (s + 1)) by (apply Z.pow_le_mono_r; lia).
      assert (Zpos m * 2 ^ (e + s) <= 2 ^ 53 * 2 ^ (e + s))
        by (apply Z.mul_le_mono_nonneg_r; lia).
      rewrite (Z.pow_add_r 2 53) in * by lia.
      rewrite (Z.pow_add_r 2 s 1) in * by lia.
      change (2 ^ 1) with 2 in *. lia. }
  rewrite Hcmp. clear Hcmp.
  set (A := Zpos pa * 2 ^ s) in *.
  pose proof (Z.div_mod A (Zpos pb) ltac:(lia)) as Hdm.
  pose proof (Z.mod_pos_bound A (Zpos pb) ltac:(lia)) as Hmod.
  fold q in Hdm.
  destruct (round_step_bounds n1 q Hn1) as [Hlo Hhi].
  split.
  - intros HV.
    destruct (Z.lt_trichotomy (Zpos pa) (3 * Zpos pb)) as [Hlt | [Heq | Hgt]];
      [exfalso | exfalso | exact Hgt].
    + assert (Hq : q < 3 * 2 ^ s).
      { subst q. apply Z.div_lt_upper_bound; [lia |]. subst A. nia. }
      pose proof (round_up_below n1 s 3 q Hn1 ltac:(lia) Hq). lia.
    + assert (EA : A = 3 * 2 ^ s * Zpos pb) by (subst A; rewrite Heq; lia).
      assert (Eq : q = 3 * 2 ^ s).
      { subst q. rewrite EA. apply Z.div_mul. lia. }
      assert (HVq : V = q).
      { apply Hex.
        - rewrite EA. apply Z.mod_mul. lia.
        - rewrite Eq. apply pow2_multiple_kept; [exact Hn1 | lia]. }
      lia.
  - intros Hgt.
    assert (Hq : 3 * 2 ^ s + 2 <= q).
    { subst q. apply Z.div_le_lower_bound; [lia |]. subst A. nia. }
    lia.
Qed.

(** The space test of the gate is an exact integer test: for a positive
    right space, [left / right > 3] holds exactly when
    [left > 3 * right]. *)
Lemma space_test_exact a b :
  0 < b < 2 ^ 52 -> Z.abs a < 2 ^ 52 ->
  exists x, int_truediv a b = Ok x /\ (float_gt x lit_3 = true <-> 3 * b < a).
Proof.
  intros Hb Ha. unfold int_truediv.
  destruct (Z.eqb_spec b 0) as [| _]; [lia |].
  destruct b as [| pb | pb]; try lia.
  destruct a as [| pa | pa].
  - eexists. split; [reflexivity |]. split; [intros H; discriminate H | lia].
  - cbn [int_operand].
    destruct (int_truediv_gt_3 pa pb ltac:(lia) ltac:(lia)) as (x & -> & -> & Hx).
    exists x. split; [reflexivity | exact Hx].
  - assert (H62 : 2 ^ 52 < 2 ^ 62) by (apply Z.pow_lt_mono_r; lia).
    pose proof (SFdiv_bounded 62 _ _ _ _ ltac:(lia)
                  (int_operand_bounded (Zneg pa) ltac:(lia) ltac:(lia))
                  (int_operand_bounded (Zpos pb) ltac:(lia) ltac:(lia))) as Hq.
    destruct Hq as (m & e & Hq & _). rewrite Hq. cbn [is_infinity].
    eexists. split; [reflexivity |].
    split; [intros H; discriminate H | lia].
Qed.

(** [math.ceil(h / 100)] is the integer ceiling of [h / 100]: the
    rounding of the quotient never crosses an integer. *)
Lemma ceil_div_100 ph :
  Zpos ph < 2 ^ 52 ->
  exists x,
    SFdiv prec emax (S754_finite false ph 0) (S754_finite false 100 0) = x /\
    is_infinity x = false /\
    math_ceil x = Ok ((Zpos ph + 99) / 100).
Proof.
  intros Hh.
  destruct (int_quotient_spec ph 100 Hh ltac:(cbn; lia))
    as (m & e & n1 & Hres & _ & _ & Hn1 & He & Hm & Hval & Hex).
  change (Zdigits2 100) with 7 in *.
  pose proof (Zdigits2_pos (Zpos ph) ltac:(lia)) as Hd0.
  pose proof (Zdigits2_le (Zpos ph) 52 ltac:(lia) Hh ltac:(lia)) as Hd.
  set (s := 53 + 7 - Zdigits2 (Zpos ph)) in *.
  set (q := Zpos ph * 2 ^ s / 100) in *.
  exists (S754_finite false m e). split; [exact Hres |]. split; [reflexivity |].
  cbn [math_ceil]. destruct (Z.leb_spec 0 e) as [| _]; [lia |]. f_equal.
  set (V := Zpos m * 2 ^ (e + s)) in *.
  set (K := (Zpos ph + 99) / 100).
  assert (HK : 100 * (K - 1) < Zpos ph <= 100 * K).
  { pose proof (Z.div_mod (Zpos ph + 99) 100 ltac:(lia)) as Hdm.
    pose proof (Z.mod_pos_bound (Zpos ph + 99) 100 ltac:(lia)) as Hr.
    fold K in Hdm. lia. }
  assert (HP : 256 <= 2 ^ s).
  { change 256 with (2 ^ 8). apply Z.pow_le_mono_r; subst s; lia. }
  pose proof (pow2_pos (e + s) ltac:(lia)) as HPe.
  pose proof (pow2_pos (- e) ltac:(lia)) as HW.
  assert (Esplit : 2 ^ s = 2 ^ (e + s) * 2 ^ (- e)).
  { rewrite <- Z.pow_add_r by lia. f_equal. lia. }
  set (A := Zpos ph * 2 ^ s) in *.
  pose proof (Z.div_mod A 100 ltac:(lia)) as Hdm.
  pose proof (Z.mod_pos_bound A 100 ltac:(lia)) as Hmod.
  fold q in Hdm.
  destruct (round_step_bounds n1 q Hn1) as [Hlo Hhi].
  (* the value lies in the same unit interval as [h / 100] *)
  assert (HV : (K - 1) * 2 ^ s < V <= K * 2 ^ s).
  { split.
    - assert (Hq : (K - 1) * 2 ^ s + 2 <= q).
      { subst q. apply Z.div_le_lower_bound; [lia |]. subst A. nia. }
      lia.
    - destruct (Z.eq_dec (Zpos ph) (100 * K)) as [Heq | Hne].
      + assert (EA : A = K * 2 ^ s * 100) by (subst A; rewrite Heq; lia).
        assert (Eq : q = K * 2 ^ s).
        { subst q. rewrite EA. apply Z.div_mul. lia. }
        assert (HVq : V = q).
        { apply Hex.
          - rewrite EA. apply Z.mod_mul. lia.
          - rewrite Eq. apply pow2_multiple_kept; [exact Hn1 | subst s; lia]. }
        lia.
      + assert (Hq : q <= K * 2 ^ s - 3).
        { assert (100 * q <= 100 * (K * 2 ^ s) - 256) by (subst A; nia). lia. }
        lia. }
  subst V. rewrite Esplit in HV.
  assert (Hm1 : (K - 1) * 2 ^ (- e) < Zpos m <= K * 2 ^ (- e)) by nia.
  change (Zneg m) with (- Zpos m).
  assert (E : - Zpos m / 2 ^ (- e) = - K).
  { symmetry. apply Z.div_unique with (r := K * 2 ^ (- e) - Zpos m); lia. }
  rewrite E. lia.
Qed.

End ExactTests.

Section GateDirection.

Import Py Binary64 Rounding.

Lemma space_ratio_exact p :
  LandmarkSet p ->
  let left_space := px (landmark p 36) - px (landmark p 0) in
  let right_space := px (landmark p 16) - px (landmark p 45) in
  0 < right_space < 2 ^ 52 -> Z.abs left_space < 2 ^ 52 ->
  exists s, space_ratio p = Ok s /\ (float_gt s lit_3 = true <-> 3 * right_space < left_space).
Proof.
  intros Hp left_space right_space Hr Hl. unfold space_ratio.
  destruct (index_landmark p 36 Hp ltac:(lia)) as (-> & _ & _).
  destruct (index_landmark p 0 Hp ltac:(lia)) as (-> & _ & _).
  destruct (index_landmark p 16 Hp ltac:(lia)) as (-> & _ & _).
  destruct (index_landmark p 45 Hp ltac:(lia)) as (-> & _ & _).
  cbn [res_bind]. apply space_test_exact; assumption.
Qed.

(** X18: on a face whose width runs left to right, the gate returns,
    and it rejects only for a right eye lower than the left one, a nose
    tip right of the bridge, or a left space of more than three right
    spaces: the same tilt in the other direction is never a reason. *)
Theorem X18_gate_rejects_one_direction_only (p : list point) (debug : bool) :
  LandmarkSet p ->
  let left_space := px (landmark p 36) - px (landmark p 0) in
  let right_space := px (landmark p 16) - px (landmark p 45) in
  px (landmark p 0) < px (landmark p 16) ->
  0 < right_space < 2 ^ 52 -> Z.abs left_space < 2 ^ 52 ->
  (exists b, good_picture_check p debug = Ok b) /\
  (good_picture_check p debug = Ok false ->
   py (landmark p 37) + py (landmark p 41) < py (landmark p 44) + py (landmark p 46)
   \/ px (landmark p 27) < px (landmark p 30)
   \/ 3 * right_space < left_space).
Proof.
  intros Hp left_space right_space Hw Hr Hl.
  destruct (eye_test_sign p Hp ltac:(lia)) as (e & He & Heye).
  destruct (nose_test_sign p Hp ltac:(lia)) as (n & Hn & Hnose).
  destruct (space_ratio_exact p Hp Hr Hl) as (s & Hs & Hspace).
  fold left_space in Hspace. fold right_space in Hspace.
  unfold good_picture_check.
  rewrite (picture_measures_heuristics p e n s He Hn Hs). cbn [res_bind].
  split.
  - destruct (float_gt e lit_5 || float_gt n lit_3_5 || float_gt s lit_3); eauto.
  - destruct (float_gt e lit_5) eqn:Ee.
    { intros _. left. specialize (Heye eq_refl). nia. }
    destruct (float_gt n lit_3_5) eqn:En.
    { intros _. right. left. specialize (Hnose eq_refl). nia. }
    destruct (float_gt s lit_3) eqn:Es.
    { intros _. right. right. apply Hspace. reflexivity. }
    intros Hb. discriminate Hb.
Qed.

(** X19: the space test is an exact integer test.  On a face whose
    right eye is not lower than the left and whose nose tip is not right
    of the bridge, the gate accepts exactly when the left space is at
    most three times the right space; no rounding of the quotient
    enters. *)
Theorem X19_space_test_is_an_integer_test (p : list point) (debug : bool) :
  LandmarkSet p ->
  let left_space := px (landmark p 36) - px (landmark p 0) in
  let right_space := px (landmark p 16) - px (landmark p 45) in
  px (landmark p 0) < px (landmark p 16) ->
  0 < right_space < 2 ^ 52 -> Z.abs left_space < 2 ^ 52 ->
  py (landmark p 44) + py (landmark p 46) <= py (landmark p 37) + py (landmark p 41) ->
  px (landmark p 30) <= px (landmark p 27) ->
  good_picture_check p debug = Ok (left_space <=? 3 * right_space).
Proof.
  intros Hp left_space right_space Hw Hr Hl Heyes Hnoses.
  destruct (eye_test_sign p Hp ltac:(lia)) as (e & He & Heye).
  destruct (nose_test_sign p Hp ltac:(lia)) as (n & Hn & Hnose).
  destruct (space_ratio_exact p Hp Hr Hl) as (s & Hs & Hspace).
  fold left_space in Hspace. fold right_space in Hspace.
  unfold good_picture_check.
  rewrite (picture_measures_heuristics p e n s He Hn Hs). cbn [res_bind].
  destruct (float_gt e lit_5) eqn:Ee.
  { exfalso. specialize (Heye eq_refl). nia. }
  destruct (float_gt n lit_3_5) eqn:En.
  { exfalso. specialize (Hnose eq_refl). nia. }
  cbn [orb].
  destruct (float_gt s lit_3) eqn:Es.
  - assert (3 * right_space < left_space) by (apply Hspace; reflexivity).
    destruct (Z.leb_spec left_space (3 * right_space)); [lia | reflexivity].
  - destruct (Z.leb_spec left_space (3 * right_space)) as [| Hgt]; [reflexivity |].
    apply Hspace in Hgt. discriminate Hgt.
Qed.

(** X16: [show_box] asks for the four sides of the box, bottom-left to
    top-left, bottom-left to bottom-right, top-left to top-right and
    top-right to bottom-right, all of one width: the least integer that
    is at least a hundredth of the image height, without rounding
    error. *)
Theorem X16_box_lines_are_a_hundredth_of_the_height_wide
  (w h : Z) (corners : BoxCorners) :
  0 <= h < 2 ^ 52 ->
  exists lines,
    show_box (w, h) corners = Ok lines /\
    map (fun l => (line_from l, line_to l)) lines
    = [ (bottom_left corners, top_left corners);
        (bottom_left corners, bottom_right corners);
        (top_left corners, top_right corners);
        (top_right corners, bottom_right corners) ] /\
    forall l, In l lines -> h <= 100 * line_width l < h + 100.
Proof.
  intros Hh. unfold show_box.
  assert (Hq : exists q, int_truediv h 100 = Ok q /\ math_ceil q = Ok ((h + 99) / 100)).
  { unfold int_truediv. change (100 =? 0) with false. cbv iota.
    destruct h as [| ph | ph]; [| | lia].
    - eexists. split; reflexivity.
    - cbn [int_operand].
      destruct (ceil_div_100 ph ltac:(lia)) as (x & -> & -> & Hc).
      exists x. split; [reflexivity | exact Hc]. }
  destruct Hq as (q & -> & Hc). cbn [res_bind]. rewrite Hc. cbn [res_bind].
  eexists. split; [reflexivity |]. split; [reflexivity |].
  pose proof (Z.div_mod (h + 99) 100 ltac:(lia)) as Hdm.
  pose proof (Z.mod_pos_bound (h + 99) 100 ltac:(lia)) as Hr.
  intros l [<- | [<- | [<- | [<- | []]]]]; cbn [line_width]; lia.
Qed.

Lemma X18_gate_rejects_one_direction_only_witness :
  (exists b, good_picture_check uneven_face false = Ok b) /\
  (good_picture_check uneven_face false = Ok false ->
   py (landmark uneven_face 37) + py (landmark uneven_face 41)
   < py (landmark uneven_face 44) + py (landmark uneven_face 46)
   \/ px (landmark uneven_face 27) < px (landmark uneven_face 30)
   \/ 3 * (px (landmark uneven_face 16) - px (landmark uneven_face 45))
      < px (landmark uneven_face 36) - px (landmark uneven_face 0)).
Proof.
  apply (X18_gate_rejects_one_direction_only uneven_face false).
  - apply landmark_setb_true. vm_compute. reflexivity.
  - vm_compute. reflexivity.
  - split; vm_compute; reflexivity.
  - vm_compute. reflexivity.
Defined.

Lemma X19_space_test_is_an_integer_test_witness :
  good_picture_check leaning_face false = Ok true.
Proof.
  apply (X19_space_test_is_an_integer_test leaning_face false).
  - apply landmark_setb_true. vm_compute. reflexivity.
  - vm_compute. reflexivity.
  - split; vm_compute; reflexivity.
  - vm_compute. reflexivity.
  - apply Z.leb_le. vm_compute. reflexivity.
  - apply Z.leb_le. vm_compute. reflexivity.
Defined.

Lemma X16_box_lines_are_a_hundredth_of_the_height_wide_witness :
  exists lines,
    show_box (1920, 1080) sample_box = Ok lines /\
    forall l, In l lines -> line_width l = 11.
Proof.
  destruct (X16_box_lines_are_a_hundredth_of_the_height_wide 1920 1080 sample_box)
    as (lines & Hshow & _ & Hwidth).
  - split; [lia | reflexivity].
  - exists lines. split; [exact Hshow |].
    intros l Hl. specialize (Hwidth l Hl). lia.
Defined.

End GateDirection.
